(** * Library catalog service: transactor, use cases and outbox handlers

    A shallow embedding of the Go packages [entity], [repository], [library],
    [outbox] and [app].  Go functions that talk to the database, the HTTP sinks, the
    response stream or the logger become functions in a state monad over a
    [world]; a Go [error] value that may be nil is an [option error]. *)

From stdpp Require Import base strings list gmap pretty.
From Stdlib Require Import ZArith.

Open Scope string_scope.

(** ** Go values shared by all packages *)

Definition bytes := list Byte.byte.

(** google.golang.org/grpc/codes: the codes the service uses. *)
Inductive Code := OK | InvalidArgument | NotFound | Internal.

Definition Code_String (c : Code) : string :=
  match c with
  | OK => "OK"
  | InvalidArgument => "InvalidArgument"
  | NotFound => "NotFound"
  | Internal => "Internal"
  end.

(** Go [error] values.  The package-level sentinels are constructors of
    their own, so that [errors.Is] can tell them from any other error with
    the same text; [Errorf prefix err] is [fmt.Errorf(prefix + "%w", err)]. *)
Inductive error :=
  | ErrAuthorNotFound                       (* entity.ErrAuthorNotFound *)
  | ErrBookNotFound                         (* entity.ErrBookNotFound *)
  | ErrTxNotFound                           (* repository.ErrTxNotFound *)
  | ErrTxClosed                             (* pgx.ErrTxClosed *)
  | ErrNoRows                               (* sql.ErrNoRows *)
  | PgError (severity message code : string) (* *pgconn.PgError *)
  | ErrNew (msg : string)                   (* errors.New(msg), any other leaf *)
  | Errorf (prefix : string) (err : error)
  | StatusError (c : Code) (msg : string).  (* status.Error(c, msg) *)

#[global] Instance Code_eq_dec : EqDecision Code.
Proof. solve_decision. Defined.

#[global] Instance error_eq_dec : EqDecision error.
Proof. solve_decision. Defined.

(** [err.Error()] *)
Fixpoint Error (e : error) : string :=
  match e with
  | ErrAuthorNotFound => "author not found"
  | ErrBookNotFound => "book not found"
  | ErrTxNotFound => "transaction is not found in context"
  | ErrTxClosed => "tx is closed"
  | ErrNoRows => "sql: no rows in result set"
  | PgError severity message code =>
      severity ++ ": " ++ message ++ " (SQLSTATE " ++ code ++ ")"
  | ErrNew msg => msg
  | Errorf prefix err => prefix ++ Error err
  | StatusError c msg => "rpc error: code = " ++ Code_String c ++ " desc = " ++ msg
  end.

(** [errors.Unwrap] *)
Definition errors_Unwrap (e : error) : option error :=
  match e with
  | Errorf _ err => Some err
  | _ => None
  end.

(** [errors.Is(err, target)]: walk the chain of wrapped errors. *)
Fixpoint errors_Is (err target : error) : bool :=
  bool_decide (err = target) ||
  match err with
  | Errorf _ inner => errors_Is inner target
  | _ => false
  end.

(** [errors.As(err, &pgErr)] for [pgErr *pgconn.PgError]: the SQLSTATE of the
    first PgError in the chain. *)
Fixpoint errors_As_PgError (err : error) : option string :=
  match err with
  | PgError _ _ code => Some code
  | Errorf _ inner => errors_As_PgError inner
  | _ => None
  end.

(** A Go pair [(T, error)]. *)
Inductive result (A : Type) :=
  | Ok (a : A)
  | Err (e : error).
Arguments Ok {A} a.
Arguments Err {A} e.

(** ** package entity *)

Module entity.

Record Author := mkAuthor {
  Author_ID : string;
  Author_Name : string;
}.

(** [time.Time] is a number of ticks. *)
Record Book := mkBook {
  ID : string;
  Name : string;
  AuthorIDs : list string;
  CreatedAt : Z;
  UpdatedAt : Z;
}.

(** The zero values [entity.Author{}] and [entity.Book{}]. *)
Definition Author_zero : Author := mkAuthor "" "".
Definition Book_zero : Book := mkBook "" "" [] 0 0.

End entity.

(** [encoding/json] for the two entities.  The codec is the standard
    library's, not this repository's: the development is parametric in it. *)
Class Json := {
  json_Marshal_Book : entity.Book -> result bytes;
  json_Marshal_Author : entity.Author -> result bytes;
  json_Unmarshal_Book : bytes -> result entity.Book;
  json_Unmarshal_Author : bytes -> result entity.Author;
}.

(** generated/api/library: the protobuf messages. *)
Module pb.

Record Book := mkBook {
  Id : string;
  Name : string;
  AuthorIds : list string;
  CreatedAt : Z;
  UpdatedAt : Z;
}.

Record AddBookRequest := { AddBook_Name : string; AddBook_AuthorIds : list string }.
Record AddBookResponse := { AddBook_Book : Book }.
Record RegisterAuthorRequest := { RegisterAuthor_Name : string }.
Record RegisterAuthorResponse := { RegisterAuthor_Id : string }.
Record GetAuthorBooksRequest := { GetAuthorBooks_AuthorId : string }.

End pb.

(** ** The world the service runs in *)

(** [repository.OutboxKind] is a Go [int]. *)
Definition OutboxKind := Z.

(** Rows of the [outbox] table. *)
Record outbox_row := mkOutboxRow {
  row_kind : OutboxKind;
  row_payload : bytes;
  row_created_at : Z;
  row_in_progress_at : option Z;
  row_processed_at : option Z;
}.

(** The four tables. [author_book] rows are [(author_id, book_id)]. *)
Record tables := mkTables {
  author : gmap string string;
  book : gmap string (string * Z * Z);
  author_book : list (string * string);
  outbox : gmap string outbox_row;
}.

(** Statements the repositories send, and the driver calls that carry them. *)
Inductive statement :=
  | InsertBook (name : string)
  | CopyAuthorBook (rows : list (string * string))
  | InsertAuthor (name : string)
  | InsertOutbox (key : string) (kind : OutboxKind) (payload : bytes).

Definition Tx := nat.

Inductive event :=
  | EvBegin (tx : Tx)
  | EvCommit (tx : Tx)
  | EvRollback (tx : Tx)
  | EvExec (tx : option Tx) (s : statement).

Inductive Level := DebugLevel | InfoLevel | ErrorLevel.

(** One logger call: level, message and the [zap.Error] field (absent when
    the call has none or the error is nil). *)
Definition entry : Type := Level * string * option error.

Record Request := mkRequest {
  req_url : string;
  req_contentType : string;
  req_body : string;
}.

(** [Body_Close] is what [resp.Body.Close()] will return. *)
Record Response := mkResponse {
  StatusCode : Z;
  Status : string;
  Body_Close : option error;
}.

(** The state threaded through every effectful function.
    - [durable] holds the committed rows, [open_tx] the view of each open
      transaction;
    - [faults] scripts the outcome of the next driver calls that reach the
      server ([None]: the call goes through), [ids] the ids the database
      generates next, [clock] is the database's [now()];
    - [calls] records the driver calls, oldest first;
    - [http_plan] scripts what the sinks answer, [http_calls] records the
      POST requests; [stream_plan] and [stream_sent] do the same for the
      response stream of GetAuthorBooks;
    - [logs] is the logger's output. *)
Record world := mkWorld {
  durable : tables;
  open_tx : gmap Tx tables;
  faults : list (option error);
  ids : list string;
  clock : Z;
  calls : list event;
  http_plan : list (result Response);
  http_calls : list Request;
  stream_plan : list (option error);
  stream_sent : list pb.Book;
  logs : list entry;
}.

Definition set_durable (t : tables) (w : world) : world :=
  mkWorld t (open_tx w) (faults w) (ids w) (clock w) (calls w)
          (http_plan w) (http_calls w) (stream_plan w) (stream_sent w) (logs w).
Definition set_open_tx (o : gmap Tx tables) (w : world) : world :=
  mkWorld (durable w) o (faults w) (ids w) (clock w) (calls w)
          (http_plan w) (http_calls w) (stream_plan w) (stream_sent w) (logs w).
Definition set_faults (f : list (option error)) (w : world) : world :=
  mkWorld (durable w) (open_tx w) f (ids w) (clock w) (calls w)
          (http_plan w) (http_calls w) (stream_plan w) (stream_sent w) (logs w).
Definition set_ids (i : list string) (w : world) : world :=
  mkWorld (durable w) (open_tx w) (faults w) i (clock w) (calls w)
          (http_plan w) (http_calls w) (stream_plan w) (stream_sent w) (logs w).
Definition set_calls (c : list event) (w : world) : world :=
  mkWorld (durable w) (open_tx w) (faults w) (ids w) (clock w) c
          (http_plan w) (http_calls w) (stream_plan w) (stream_sent w) (logs w).
Definition set_http_plan (p : list (result Response)) (w : world) : world :=
  mkWorld (durable w) (open_tx w) (faults w) (ids w) (clock w) (calls w)
          p (http_calls w) (stream_plan w) (stream_sent w) (logs w).
Definition set_http_calls (c : list Request) (w : world) : world :=
  mkWorld (durable w) (open_tx w) (faults w) (ids w) (clock w) (calls w)
          (http_plan w) c (stream_plan w) (stream_sent w) (logs w).
Definition set_stream_plan (p : list (option error)) (w : world) : world :=
  mkWorld (durable w) (open_tx w) (faults w) (ids w) (clock w) (calls w)
          (http_plan w) (http_calls w) p (stream_sent w) (logs w).
Definition set_stream_sent (s : list pb.Book) (w : world) : world :=
  mkWorld (durable w) (open_tx w) (faults w) (ids w) (clock w) (calls w)
          (http_plan w) (http_calls w) (stream_plan w) s (logs w).
Definition set_logs (l : list entry) (w : world) : world :=
  mkWorld (durable w) (open_tx w) (faults w) (ids w) (clock w) (calls w)
          (http_plan w) (http_calls w) (stream_plan w) (stream_sent w) l.

(** ** The state monad *)

Definition M (A : Type) : Type := world -> A * world.

Definition ret {A} (a : A) : M A := fun w => (a, w).

Definition bind {A B} (m : M A) (k : A -> M B) : M B :=
  fun w => let (a, w') := m w in k a w'.

Notation "x <- m ;; k" := (bind m (fun x => k))
  (at level 100, m at next level, right associativity).
Notation "m ;;; k" := (bind m (fun _ => k))
  (at level 100, right associativity).

Definition gets {A} (f : world -> A) : M A := fun w => (f w, w).
Definition modify (f : world -> world) : M unit := fun w => (tt, f w).

(** go.uber.org/zap *)
Module zap.

(** [zap.Error(err)]: no field for a nil error. *)
Definition log (l : Level) (msg : string) (err : option error) : M unit :=
  modify (fun w => set_logs (logs w ++ [(l, msg, err)]) w).

Definition Info (msg : string) : M unit := log InfoLevel msg None.

End zap.

(** [context.Context], as far as the service looks into it: the value stored
    under the key [txInjector{}]. *)
Record Context := mkContext {
  Value_txInjector : option Tx;
}.

Definition context_Background : Context := mkContext None.
Definition context_WithValue (ctx : Context) (tx : Tx) : Context := mkContext (Some tx).

(** ** github.com/jackc/pgx and the database behind it

    The driver and the server are not this repository's code.  The model keeps
    what the repositories rely on: a transaction works on its own view of the
    tables, Commit publishes the view, Rollback drops it, and a closed
    transaction answers [ErrTxClosed].  Any call that reaches the server can
    fail with the error scripted in [faults].  Of the schema's constraints the
    server checks the primary keys, the uniqueness of the idempotency key and
    the foreign key from [author_book] to [author]; any other rejection is a
    scripted failure. *)
Module pgx.

Definition pop_fault : M (option error) :=
  fun w => (hd None (faults w), set_faults (tl (faults w)) w).

Definition next_id : M string :=
  fun w => (hd "" (ids w), set_ids (tl (ids w)) w).

Definition record (e : event) : M unit :=
  modify (fun w => set_calls (calls w ++ [e]) w).

(** [pool.Begin(ctx)] *)
Definition Begin : M (result Tx) :=
  f <- pop_fault ;;
  match f with
  | Some e => ret (Err e)
  | None =>
      tx <- gets (fun w => fresh (dom (open_tx w))) ;;
      modify (fun w => set_open_tx (<[tx := durable w]> (open_tx w)) w) ;;;
      record (EvBegin tx) ;;;
      ret (Ok tx)
  end.

(** [tx.Commit(ctx)] *)
Definition Commit (tx : Tx) : M (option error) :=
  record (EvCommit tx) ;;;
  view <- gets (fun w => open_tx w !! tx) ;;
  match view with
  | None => ret (Some ErrTxClosed)
  | Some t =>
      f <- pop_fault ;;
      modify (fun w => set_open_tx (delete tx (open_tx w)) w) ;;;
      match f with
      | Some e => ret (Some e)
      | None => modify (set_durable t) ;;; ret None
      end
  end.

(** [tx.Rollback(ctx)] *)
Definition Rollback (tx : Tx) : M (option error) :=
  record (EvRollback tx) ;;;
  view <- gets (fun w => open_tx w !! tx) ;;
  match view with
  | None => ret (Some ErrTxClosed)
  | Some _ =>
      f <- pop_fault ;;
      modify (fun w => set_open_tx (delete tx (open_tx w)) w) ;;;
      ret f
  end.

Definition unique_violation : error :=
  PgError "ERROR" "duplicate key value violates unique constraint" "23505".
Definition foreign_key_violation : error :=
  PgError "ERROR" "insert or update on table violates foreign key constraint" "23503".

(** Modelled from the spec: the schema, whose migrations are not among the
    sources.  Ids are assigned by the store and are primary keys, the
    idempotency key of an outbox row is unique, and a row of [author_book]
    needs its author to exist.  [apply s id now t] is what the server does
    with the statement [s] on the view [t]: the new view and the generated
    id, or the constraint it rejects the statement with. [id] is the id the
    server generates, [now] its clock. *)
Definition apply (s : statement) (id : string) (now : Z) (t : tables)
  : result (tables * string) :=
  match s with
  | InsertBook name =>
      match book t !! id with
      | Some _ => Err unique_violation
      | None =>
          Ok (mkTables (author t) (<[id := (name, now, now)]> (book t))
                       (author_book t) (outbox t), id)
      end
  | InsertAuthor name =>
      match author t !! id with
      | Some _ => Err unique_violation
      | None =>
          Ok (mkTables (<[id := name]> (author t)) (book t)
                       (author_book t) (outbox t), id)
      end
  | CopyAuthorBook rows =>
      if forallb (fun r => bool_decide (is_Some (author t !! r.1))) rows
      then Ok (mkTables (author t) (book t) (author_book t ++ rows) (outbox t), id)
      else Err foreign_key_violation
  | InsertOutbox key kind payload =>
      match outbox t !! key with
      | Some _ => Err unique_violation
      | None =>
          Ok (mkTables (author t) (book t) (author_book t)
                       (<[key := mkOutboxRow kind payload now None None]> (outbox t)), id)
      end
  end.

Definition generates_id (s : statement) : bool :=
  match s with
  | InsertBook _ | InsertAuthor _ => true
  | _ => false
  end.

(** The view a statement runs on: the transaction's, or the committed
    tables when it is sent on the pool. *)
Definition view (otx : option Tx) (w : world) : option tables :=
  match otx with
  | Some tx => open_tx w !! tx
  | None => Some (durable w)
  end.

Definition store (otx : option Tx) (t : tables) (w : world) : world :=
  match otx with
  | Some tx => set_open_tx (<[tx := t]> (open_tx w)) w
  | None => set_durable t w
  end.

(** One statement sent on a transaction ([tx.QueryRow], [tx.CopyFrom],
    [tx.Exec]) or on the pool; on success the generated id (for the
    INSERT ... RETURNING statements) and the server's clock come back. *)
Definition exec (otx : option Tx) (s : statement) : M (result (string * Z)) :=
  record (EvExec otx s) ;;;
  v <- gets (view otx) ;;
  match v with
  | None => ret (Err ErrTxClosed)
  | Some t =>
      f <- pop_fault ;;
      match f with
      | Some e => ret (Err e)
      | None =>
          id <- (if generates_id s then next_id else ret "") ;;
          now <- gets clock ;;
          match apply s id now t with
          | Err e => ret (Err e)
          | Ok (t', id') => modify (store otx t') ;;; ret (Ok (id', now))
          end
      end
  end.

(** A scanned row of the two book queries: the book's columns and
    [array_agg(ab.author_id)], whose elements may be NULL. *)
Record book_row := mkBookRow {
  col_id : string;
  col_name : string;
  col_created_at : Z;
  col_updated_at : Z;
  col_authors : list (option string);
}.

(** [array_agg(ab.author_id)] over [book b LEFT JOIN author_book ab ON
    b.id = ab.book_id], for the group of book [id]: a book without a row
    in [author_book] is joined with one all-NULL row. *)
Definition array_agg (t : tables) (id : string) : list (option string) :=
  match filter (fun r => r.2 = id) (author_book t) with
  | [] => [None]
  | rs => map (fun r => Some r.1) rs
  end.

Definition book_rows (t : tables) (keep : string -> bool) : list book_row :=
  map (fun '(id, (name, created, updated)) =>
         mkBookRow id name created updated (array_agg t id))
      (filter (fun r => keep r.1 = true) (map_to_list (book t))).

(** [pool.QueryRow]/[pool.Query] with the SELECT of GetBookInfo
    ([WHERE b.id = $1]) and of GetAuthorBooks ([WHERE b.id = ANY (SELECT
    book_id FROM author_book WHERE author_id = $1)]). *)
Definition select_book (id : string) : M (result book_row) :=
  f <- pop_fault ;;
  match f with
  | Some e => ret (Err e)
  | None =>
      rows <- gets (fun w => book_rows (durable w) (fun b => bool_decide (b = id))) ;;
      match rows with
      | [] => ret (Err ErrNoRows)
      | r :: _ => ret (Ok r)
      end
  end.

Definition select_author_books (id : string) : M (result (list book_row)) :=
  f <- pop_fault ;;
  match f with
  | Some e => ret (Err e)
  | None =>
      rows <- gets (fun w => book_rows (durable w)
                (fun b => bool_decide ((id, b) ∈ author_book (durable w)))) ;;
      ret (Ok rows)
  end.

End pgx.

(** [net/http]: [client.Post(url, contentType, body)].  The answer is the next
    one scripted in [http_plan]; without one the request fails in transport. *)
Module http.

Definition Post (url contentType body : string) : M (result Response) :=
  modify (fun w => set_http_calls (http_calls w ++ [mkRequest url contentType body]) w) ;;;
  fun w =>
    (hd (Err (ErrNew "connection refused")) (http_plan w),
     set_http_plan (tl (http_plan w)) w).

End http.

(** The server side of the GetAuthorBooks stream: [Send] records the message
    and answers with the next outcome scripted in [stream_plan]. *)
Record Library_GetAuthorBooksServer := {
  Send : pb.Book -> M (option error);
}.

Definition recording_stream : Library_GetAuthorBooksServer :=
  {| Send := fun b w =>
       (hd None (stream_plan w),
        set_stream_plan (tl (stream_plan w))
          (set_stream_sent (stream_sent w ++ [b]) w)) |}.

(** ** package repository *)

Module repository.

Definition OutboxKindUndefined : OutboxKind := 0%Z.
Definition OutboxKindBook : OutboxKind := 1%Z.
Definition OutboxKindAuthor : OutboxKind := 2%Z.

(** [func (o OutboxKind) String() string] *)
Definition OutboxKind_String (o : OutboxKind) : string :=
  if bool_decide (o = OutboxKindBook) then "book"
  else if bool_decide (o = OutboxKindAuthor) then "author"
  else "undefined".

Record OutboxData := mkOutboxData {
  IdempotencyKey : string;
  Kind : OutboxKind;
  RawData : bytes;
}.

(** The interfaces, with the methods the use cases below call.  A method
    that returns [(T, error)] returns both values, as in Go. *)
Record AuthorRepository := {
  RegisterAuthor : Context -> entity.Author -> M (entity.Author * option error);
  GetAuthorBooks : Context -> string -> M (list entity.Book * option error);
}.

Record BooksRepository := {
  AddBook : Context -> entity.Book -> M (entity.Book * option error);
  GetBookInfo : Context -> string -> M (entity.Book * option error);
}.

(** [WithTx(ctx, f)]. The Go closure [f] assigns to variables of the
    enclosing function; their values are threaded through as [V]. *)
Record Transactor := {
  WithTx : forall V : Type,
    Context -> (Context -> V -> M (V * option error)) -> V -> M (V * option error);
}.

Record OutboxRepository := {
  SendMessage : Context -> string -> OutboxKind -> bytes -> M (option error);
  GetMessages : Context -> Z -> Z -> M (result (list OutboxData));
  MarkAsProcessed : Context -> list string -> M (option error);
}.

(** *** transactor *)

Definition extractTx (ctx : Context) : result Tx :=
  match Value_txInjector ctx with
  | Some tx => Ok tx
  | None => Err ErrTxNotFound
  end.

Definition injectTx (ctx : Context) : M (result (Context * Tx)) :=
  match extractTx ctx with
  | Ok tx => ret (Ok (ctx, tx))
  | Err _ =>
      r <- pgx.Begin ;;
      match r with
      | Err err => ret (Err err)
      | Ok tx => ret (Ok (context_WithValue ctx tx, tx))
      end
  end.

(** The function deferred by WithTx. [err] and [txErr] are the Go variables
    of these names at the time the deferred function runs; the value
    returned is the final [txErr]. *)
Definition WithTx_deferred (tx : Tx) (err txErr : option error) : M (option error) :=
  match txErr with
  | Some _ =>
      err' <- pgx.Rollback tx ;;
      zap.log ErrorLevel "Error while doing rollback." err' ;;;
      ret txErr
  | None =>
      txErr' <- pgx.Commit tx ;;
      match err with
      | Some e => zap.log ErrorLevel "Error while commiting transaction." (Some e)
      | None => ret tt
      end ;;;
      ret txErr'
  end.

Definition transactorImpl_WithTx {V : Type} (ctx : Context)
    (f : Context -> V -> M (V * option error)) (v : V) : M (V * option error) :=
  r <- injectTx ctx ;;
  match r with
  | Err err =>
      zap.log ErrorLevel "Error while injecting transaction." (Some err) ;;;
      ret (v, Some (Errorf "can not inject transaction, error: " err))
  | Ok (ctxWithTx, tx) =>
      r <- f ctxWithTx v ;;
      let (v', err) := r in
      match err with
      | Some e =>
          zap.log ErrorLevel "Error while executing function." (Some e) ;;;
          txErr <- WithTx_deferred tx err (Some (Errorf "function execution error: " e)) ;;
          ret (v', txErr)
      | None =>
          txErr <- WithTx_deferred tx err None ;;
          ret (v', txErr)
      end
  end.

Definition transactorImpl : Transactor :=
  {| WithTx := @transactorImpl_WithTx |}.

(** *** postgres repository *)

Definition ErrForeignKeyViolation : string := "23503".

Definition getRows (bookID : string) (authorIDs : list string) : list (string * string) :=
  map (fun a => (a, bookID)) authorIDs.

Definition mapErr (err : option error) : M (option error) :=
  match err with
  | Some e =>
      if bool_decide (errors_As_PgError e = Some ErrForeignKeyViolation)
      then ret (Some ErrAuthorNotFound)
      else zap.log ErrorLevel "Error while accessing to data base." err ;;; ret err
  | None =>
      zap.log ErrorLevel "Error while accessing to data base." err ;;; ret err
  end.

Definition addBookAuthors (tx : Tx) (book : entity.Book) : M (option error) :=
  r <- pgx.exec (Some tx)
         (CopyAuthorBook (getRows (entity.ID book) (entity.AuthorIDs book))) ;;
  match r with
  | Err err => mapErr (Some err)
  | Ok _ => ret None
  end.

(** The loop of getBookFromRows over the scanned [[]*string]. *)
Definition appendAuthors (bookAuthors : list (option string)) (authorIDs : list string)
  : list string :=
  fold_left (fun acc author =>
               match author with
               | Some a => (acc ++ [a])%list
               | None => acc
               end) bookAuthors authorIDs.

Definition getBookFromRows (row : result pgx.book_row) : M (entity.Book * option error) :=
  match row with
  | Err err =>
      zap.log ErrorLevel "Error while accessing to data base." (Some err) ;;;
      ret (entity.Book_zero, Some err)
  | Ok r =>
      ret (entity.mkBook (pgx.col_id r) (pgx.col_name r)
             (appendAuthors (pgx.col_authors r) [])
             (pgx.col_created_at r) (pgx.col_updated_at r), None)
  end.

(** The statements of AddBook, after the transaction has been chosen. *)
Definition AddBook_statements (tx : Tx) (book : entity.Book)
  : M (entity.Book * option error) :=
  r <- pgx.exec (Some tx) (InsertBook (entity.Name book)) ;;
  match r with
  | Err err =>
      zap.log ErrorLevel "Error while accessing to data base." (Some err) ;;;
      ret (entity.Book_zero, Some err)
  | Ok (id, now) =>
      let book := entity.mkBook id (entity.Name book) (entity.AuthorIDs book) now now in
      err <- addBookAuthors tx book ;;
      match err with
      | Some e => ret (entity.Book_zero, Some e)
      | None => ret (book, None)
      end
  end.

(** The function deferred by AddBook and RegisterAuthor when they opened
    the transaction themselves. [err] is nil whenever [txErr] is. *)
Definition own_tx_deferred (tx : Tx) (txErr : option error) : M (option error) :=
  match txErr with
  | Some _ =>
      err <- pgx.Rollback tx ;;
      zap.log ErrorLevel "Error while doing rollback." err ;;;
      ret txErr
  | None => pgx.Commit tx
  end.

Definition postgresImpl_AddBook (ctx : Context) (book : entity.Book)
  : M (entity.Book * option error) :=
  match extractTx ctx with
  | Ok tx => AddBook_statements tx book
  | Err _ =>
      r <- pgx.Begin ;;
      match r with
      | Err err => ret (entity.Book_zero, Some err)
      | Ok tx =>
          r <- AddBook_statements tx book ;;
          txErr <- own_tx_deferred tx r.2 ;;
          ret (r.1, txErr)
      end
  end.

Definition RegisterAuthor_statements (tx : Tx) (author : entity.Author)
  : M (entity.Author * option error) :=
  r <- pgx.exec (Some tx) (InsertAuthor (entity.Author_Name author)) ;;
  match r with
  | Err err =>
      zap.log ErrorLevel "Error while accessing to data base." (Some err) ;;;
      ret (entity.Author_zero, Some err)
  | Ok (id, _) => ret (entity.mkAuthor id (entity.Author_Name author), None)
  end.

Definition postgresImpl_RegisterAuthor (ctx : Context) (author : entity.Author)
  : M (entity.Author * option error) :=
  match extractTx ctx with
  | Ok tx => RegisterAuthor_statements tx author
  | Err _ =>
      r <- pgx.Begin ;;
      match r with
      | Err err => ret (entity.Author_zero, Some err)
      | Ok tx =>
          r <- RegisterAuthor_statements tx author ;;
          txErr <- own_tx_deferred tx r.2 ;;
          ret (r.1, txErr)
      end
  end.

Definition postgresImpl_GetBookInfo (ctx : Context) (id : string)
  : M (entity.Book * option error) :=
  row <- pgx.select_book id ;;
  r <- getBookFromRows row ;;
  match r.2 with
  | Some err =>
      if errors_Is err ErrNoRows then ret (entity.Book_zero, Some ErrBookNotFound)
      else
        zap.log ErrorLevel "Error while accessing to data base." (Some err) ;;;
        ret (entity.Book_zero, Some err)
  | None => ret (r.1, None)
  end.

(** The [rows.Next()] loop of GetAuthorBooks. *)
Fixpoint scanBooks (rows : list pgx.book_row) (authorBooks : list entity.Book)
  : M (list entity.Book * option error) :=
  match rows with
  | [] => ret (authorBooks, None)
  | row :: rest =>
      r <- getBookFromRows (Ok row) ;;
      match r.2 with
      | Some err =>
          zap.log ErrorLevel "Error while working with row." (Some err) ;;;
          ret ([], Some err)
      | None => scanBooks rest (authorBooks ++ [r.1])
      end
  end.

Definition postgresImpl_GetAuthorBooks (ctx : Context) (id : string)
  : M (list entity.Book * option error) :=
  q <- pgx.select_author_books id ;;
  match q with
  | Err err =>
      zap.log ErrorLevel "Error while accessing to data base." (Some err) ;;;
      ret ([], Some err)
  | Ok rows => scanBooks rows []
  end.

(** Modelled from the spec: the outbox store's Enqueue, [SendMessage]; its
    implementation ([repository.NewOutbox]) is not among the sources.  It
    inserts an event row and enlists in the transaction that [ctx] carries;
    enqueuing a kind that is not a recognized, non-undefined value fails;
    a second enqueue with the same key creates no second row (the unique
    constraint's error is propagated). *)
Definition outbox_SendMessage (ctx : Context) (idempotencyKey : string)
    (kind : OutboxKind) (message : bytes) : M (option error) :=
  if bool_decide (kind = OutboxKindBook \/ kind = OutboxKindAuthor) then
    r <- pgx.exec (Value_txInjector ctx) (InsertOutbox idempotencyKey kind message) ;;
    match r with
    | Err err => ret (Some err)
    | Ok _ => ret None
    end
  else ret (Some (ErrNew "undefined outbox kind")).

(** The outbox store.  The write use cases only enqueue; the store's two
    other methods are whatever the caller supplies. *)
Definition NewOutbox
    (getMessages : Context -> Z -> Z -> M (result (list OutboxData)))
    (markAsProcessed : Context -> list string -> M (option error))
  : OutboxRepository :=
  {| SendMessage := outbox_SendMessage;
     GetMessages := getMessages;
     MarkAsProcessed := markAsProcessed |}.

Definition postgresImpl_Books : BooksRepository :=
  {| AddBook := postgresImpl_AddBook; GetBookInfo := postgresImpl_GetBookInfo |}.

Definition postgresImpl_Authors : AuthorRepository :=
  {| RegisterAuthor := postgresImpl_RegisterAuthor;
     GetAuthorBooks := postgresImpl_GetAuthorBooks |}.

End repository.

(** ** package library: the use cases *)

Module library.

Record libraryImpl := New {
  transactor : repository.Transactor;
  outboxRepository : repository.OutboxRepository;
  authorRepository : repository.AuthorRepository;
  booksRepository : repository.BooksRepository;
}.

Definition convertErr (err : error) : error :=
  if errors_Is err ErrAuthorNotFound then StatusError NotFound (Error err)
  else if errors_Is err ErrBookNotFound then StatusError NotFound (Error err)
  else StatusError Internal (Error err).

Definition toProto (book : entity.Book) : pb.Book :=
  pb.mkBook (entity.ID book) (entity.Name book) (entity.AuthorIDs book)
            (entity.CreatedAt book) (entity.UpdatedAt book).

Section UseCases.

Context {J : Json}.
Variable l : libraryImpl.

(** The closure AddBook hands to WithTx; [book] is the variable of
    AddBook that the closure assigns. *)
Definition AddBook_func (request : pb.AddBookRequest) (ctx : Context)
    (book : entity.Book) : M (entity.Book * option error) :=
  zap.Info "Add book request is being made to the database." ;;;
  r <- repository.AddBook (booksRepository l) ctx
         (entity.mkBook "" (pb.AddBook_Name request) (pb.AddBook_AuthorIds request) 0 0) ;;
  let (book, txErr) := r in
  match txErr with
  | Some e => ret (book, Some e)
  | None =>
      match json_Marshal_Book book with
      | Err e => ret (book, Some e)
      | Ok serialized =>
          let idempotencyKey :=
            repository.OutboxKind_String repository.OutboxKindBook ++ "_" ++ entity.ID book in
          txErr <- repository.SendMessage (outboxRepository l) ctx idempotencyKey
                     repository.OutboxKindBook serialized ;;
          match txErr with
          | Some e => ret (book, Some e)
          | None => ret (book, None)
          end
      end
  end.

Definition AddBook (ctx : Context) (request : pb.AddBookRequest)
  : M (result pb.AddBookResponse) :=
  r <- repository.WithTx (transactor l) _ ctx (AddBook_func request) entity.Book_zero ;;
  let (book, err) := r in
  match err with
  | Some e => ret (Err (convertErr e))
  | None => ret (Ok {| pb.AddBook_Book := toProto book |})
  end.

Definition RegisterAuthor_func (request : pb.RegisterAuthorRequest) (ctx : Context)
    (author : entity.Author) : M (entity.Author * option error) :=
  zap.Info "Register author info request is being made to the database." ;;;
  r <- repository.RegisterAuthor (authorRepository l) ctx
         (entity.mkAuthor "" (pb.RegisterAuthor_Name request)) ;;
  let (author, txErr) := r in
  match txErr with
  | Some e => ret (author, Some e)
  | None =>
      match json_Marshal_Author author with
      | Err e => ret (author, Some e)
      | Ok serialized =>
          let idempotencyKey :=
            repository.OutboxKind_String repository.OutboxKindAuthor ++ "_"
              ++ entity.Author_ID author in
          txErr <- repository.SendMessage (outboxRepository l) ctx idempotencyKey
                     repository.OutboxKindAuthor serialized ;;
          match txErr with
          | Some e => ret (author, Some e)
          | None => ret (author, None)
          end
      end
  end.

Definition RegisterAuthor (ctx : Context) (request : pb.RegisterAuthorRequest)
  : M (result pb.RegisterAuthorResponse) :=
  r <- repository.WithTx (transactor l) _ ctx (RegisterAuthor_func request)
         entity.Author_zero ;;
  let (author, err) := r in
  match err with
  | Some e => ret (Err (convertErr e))
  | None => ret (Ok {| pb.RegisterAuthor_Id := entity.Author_ID author |})
  end.

(** The [for _, book := range books] loop of GetAuthorBooks. *)
Fixpoint sendBooks (resp : Library_GetAuthorBooksServer) (books : list entity.Book)
  : M unit :=
  match books with
  | [] => ret tt
  | book :: rest =>
      err <- Send resp (toProto book) ;;
      match err with
      | Some e => zap.log ErrorLevel "error while sending response" (Some e)
      | None => ret tt
      end ;;;
      sendBooks resp rest
  end.

Definition GetAuthorBooks (ctx : Context) (request : pb.GetAuthorBooksRequest)
    (resp : Library_GetAuthorBooksServer) : M (option error) :=
  zap.Info "Get author books request is being made to the database." ;;;
  r <- repository.GetAuthorBooks (authorRepository l) ctx
         (pb.GetAuthorBooks_AuthorId request) ;;
  let (books, err) := r in
  match err with
  | Some e => ret (Some (convertErr e))
  | None => sendBooks resp books ;;; ret None
  end.

End UseCases.

End library.

(** ** package outbox: the dispatcher *)

Module outbox.

Definition KindHandler : Type := Context -> bytes -> M (option error).
Definition GlobalHandler : Type := OutboxKind -> result KindHandler.




End outbox.

(** ** package app: the handlers of the outbox kinds *)

Module app.

Definition httpMinErrorStatus : Z := 400.

(** The function deferred by SendID: close the body, log a failure. *)
Definition SendID_deferred (resp : Response) : M unit :=
  match Body_Close resp with
  | Some err => zap.log ErrorLevel "Error while closing response body." (Some err)
  | None => ret tt
  end.

Definition SendID (url : string) (id : string) : M (option error) :=
  r <- http.Post url "text/plain" id ;;
  match r with
  | Err err => ret (Some (Errorf "error while processing post request: " err))
  | Ok resp =>
      if bool_decide (StatusCode resp >= httpMinErrorStatus)%Z
      then SendID_deferred resp ;;; ret (Some (ErrNew ("http error: " ++ Status resp)))
      else SendID_deferred resp ;;; ret None
  end.

Section Handlers.

Context {J : Json}.

Definition bookOutboxHandler (url : string) : outbox.KindHandler :=
  fun _ data =>
    match json_Unmarshal_Book data with
    | Err err =>
        zap.log ErrorLevel "error while deserializing data in book." None ;;;
        ret (Some (Errorf "can not deserialize data in book outbox handler: " err))
    | Ok book => SendID url (entity.ID book)
    end.

Definition authorOutboxHandler (url : string) : outbox.KindHandler :=
  fun _ data =>
    match json_Unmarshal_Author data with
    | Err err =>
        zap.log ErrorLevel "error while deserializing data in author." None ;;;
        ret (Some (Errorf "can not deserialize data in author outbox handler: " err))
    | Ok author => SendID url (entity.Author_ID author)
    end.

Definition globalOutboxHandler (bookURL authorURL : string) : outbox.GlobalHandler :=
  fun kind =>
    if bool_decide (kind = repository.OutboxKindBook)
    then Ok (bookOutboxHandler bookURL)
    else if bool_decide (kind = repository.OutboxKindAuthor)
    then Ok (authorOutboxHandler authorURL)
    else Err (ErrNew ("unsupported outbox kind: " ++ pretty kind)).

(** The use cases as [Run] wires them: the transactor and the postgres
    repository of this package set, and the outbox store. *)
Definition useCases (outboxRepository : repository.OutboxRepository)
  : library.libraryImpl :=
  library.New repository.transactorImpl outboxRepository
              repository.postgresImpl_Authors repository.postgresImpl_Books.

End Handlers.

End app.

(** ** The rest of the service

    The packages above hold what the write path and the outbox need.  Below
    are the other methods of the postgres repository, the other use cases,
    the controllers in front of the use cases and the configuration. *)

(** The statements of the remaining repository methods.  They are not
    entered in [calls], which keeps the statements of the write path. *)
Module sql.

(** One statement, sent on a transaction or on the pool ([None]); [sem] is
    what the server does with it on the view it runs on, given its clock. *)
Definition run {A : Type} (otx : option Tx) (sem : Z -> tables -> result (tables * A))
  : M (result A) :=
  v <- gets (pgx.view otx) ;;
  match v with
  | None => ret (Err ErrTxClosed)
  | Some t =>
      f <- pgx.pop_fault ;;
      match f with
      | Some e => ret (Err e)
      | None =>
          now <- gets clock ;;
          match sem now t with
          | Err e => ret (Err e)
          | Ok (t', a) => modify (pgx.store otx t') ;;; ret (Ok a)
          end
      end
  end.

(** [UPDATE author SET name = $2 WHERE id = $1]; the answer is
    [RowsAffected()]. *)
Definition update_author (id name : string) (now : Z) (t : tables) : result (tables * Z) :=
  match author t !! id with
  | Some _ => Ok (mkTables (<[id := name]> (author t)) (book t) (author_book t) (outbox t), 1%Z)
  | None => Ok (t, 0%Z)
  end.

(** [SELECT id, name FROM author WHERE id = ANY($1)] with the one-element
    array of [id], scanned into [(id, name)]. *)
Definition select_author (id : string) (now : Z) (t : tables)
  : result (tables * (string * string)) :=
  match author t !! id with
  | Some name => Ok (t, (id, name))
  | None => Err ErrNoRows
  end.

Section UpdatedAt.

(** What the schema makes of [updated_at] when a book row is updated, from
    the old value and the server's clock.  The migrations are not among the
    sources; the development is parametric in the rule. *)
Variable updated_at_rule : Z -> Z -> Z.

(** [UPDATE book SET name=$2 WHERE id=$1 RETURNING created_at, updated_at] *)
Definition update_book (id name : string) (now : Z) (t : tables) : result (tables * (Z * Z)) :=
  match book t !! id with
  | Some (_, created, updated) =>
      let updated' := updated_at_rule updated now in
      Ok (mkTables (author t) (<[id := (name, created, updated')]> (book t))
                   (author_book t) (outbox t), (created, updated'))
  | None => Err ErrNoRows
  end.

End UpdatedAt.

(** The WHERE clause of [DELETE FROM author_book WHERE book_id=ANY($1) AND
    author_id != ANY($2)], with the one-element array of [bookID] for $1:
    [x != ANY(array)] holds when [x] differs from some element of the
    array. *)
Definition deleted (bookID : string) (authorIDs : list string) (r : string * string) : bool :=
  bool_decide (r.2 = bookID) && existsb (fun a => negb (bool_decide (r.1 = a))) authorIDs.

Definition delete_book_authors (bookID : string) (authorIDs : list string) (now : Z)
    (t : tables) : result (tables * Z) :=
  let kept := filter (fun r => deleted bookID authorIDs r = false) (author_book t) in
  Ok (mkTables (author t) (book t) kept (outbox t),
      Z.of_nat (length (author_book t) - length kept)).

(** Modelled from the spec: the schema, as in [pgx.apply]: a row of
    [author_book] needs its author to exist.  The statement is [INSERT INTO
    author_book (author_id, book_id) VALUES ($1, $2) ON CONFLICT (book_id,
    author_id) DO NOTHING]: a row that is there already is left alone. *)
Definition insert_author_book (authorID bookID : string) (now : Z) (t : tables)
  : result (tables * Z) :=
  if bool_decide ((authorID, bookID) ∈ author_book t) then Ok (t, 0%Z)
  else if bool_decide (is_Some (author t !! authorID))
  then Ok (mkTables (author t) (book t) (author_book t ++ [(authorID, bookID)]) (outbox t), 1%Z)
  else Err pgx.foreign_key_violation.

End sql.

(** generated/api/library: the messages of the remaining calls. *)
Module rpc.

Record UpdateBookRequest := {
  UpdateBook_Id : string;
  UpdateBook_Name : string;
  UpdateBook_AuthorIds : list string;
}.
Record GetBookInfoRequest := { GetBookInfo_Id : string }.
Record GetBookInfoResponse := { GetBookInfo_Book : pb.Book }.
Record ChangeAuthorInfoRequest := { ChangeAuthorInfo_Id : string; ChangeAuthorInfo_Name : string }.
Record GetAuthorInfoRequest := { GetAuthorInfo_Id : string }.
Record GetAuthorInfoResponse := { GetAuthorInfo_RespId : string; GetAuthorInfo_RespName : string }.

End rpc.

(** The remaining methods of [postgresImpl]. *)
Module postgres.

(** [txRollback]: roll back, log a failure at debug level. *)
Definition txRollback (tx : Tx) : M unit :=
  err <- pgx.Rollback tx ;;
  match err with
  | Some e => zap.log DebugLevel "Error while doing rollback." (Some e)
  | None => ret tt
  end.

(** The loop of UpdateBook over the author ids: [Some err] when the loop body
    returned [mapErr(err)], [None] when the loop ran to its end. *)
Fixpoint insertAuthors (tx : Tx) (bookID : string) (authorIDs : list string)
  : M (option (option error)) :=
  match authorIDs with
  | [] => ret None
  | authorID :: rest =>
      r <- sql.run (Some tx) (sql.insert_author_book authorID bookID) ;;
      match r with
      | Err err => mapped <- repository.mapErr (Some err) ;; ret (Some mapped)
      | Ok _ => insertAuthors tx bookID rest
      end
  end.

Section UpdateBook.

Variable updated_at_rule : Z -> Z -> Z.

(** UpdateBook after [Begin], up to its return; the deferred txRollback
    follows in [UpdateBook]. *)
Definition UpdateBook_statements (tx : Tx) (id name : string) (authorIDs : list string)
  : M (entity.Book * option error) :=
  r <- sql.run (Some tx) (sql.update_book updated_at_rule id name) ;;
  match r with
  | Err err =>
      if errors_Is err ErrNoRows then ret (entity.Book_zero, Some ErrBookNotFound)
      else
        zap.log ErrorLevel "Error while accessing to data base." (Some err) ;;;
        ret (entity.Book_zero, Some err)
  | Ok (created, updated) =>
      let book := entity.mkBook id name authorIDs created updated in
      r <- sql.run (Some tx) (sql.delete_book_authors id authorIDs) ;;
      match r with
      | Err err =>
          zap.log ErrorLevel "Error while accessing to data base." (Some err) ;;;
          ret (entity.Book_zero, Some err)
      | Ok _ =>
          returned <- insertAuthors tx id authorIDs ;;
          match returned with
          | Some err => ret (entity.Book_zero, err)
          | None =>
              err <- pgx.Commit tx ;;
              match err with
              | Some e => ret (entity.Book_zero, Some e)
              | None => ret (book, None)
              end
          end
      end
  end.

Definition UpdateBook (ctx : Context) (id name : string) (authorIDs : list string)
  : M (entity.Book * option error) :=
  r <- pgx.Begin ;;
  match r with
  | Err err => ret (entity.Book_zero, Some err)
  | Ok tx =>
      r <- UpdateBook_statements tx id name authorIDs ;;
      txRollback tx ;;;
      ret r
  end.

End UpdateBook.

Definition ChangeAuthorInfo (ctx : Context) (id name : string)
  : M (entity.Author * option error) :=
  r <- sql.run None (sql.update_author id name) ;;
  match r with
  | Err err =>
      zap.log ErrorLevel "Error while accessing to data base." (Some err) ;;;
      ret (entity.Author_zero, Some err)
  | Ok affected =>
      if bool_decide (affected = 0%Z) then ret (entity.Author_zero, Some ErrAuthorNotFound)
      else ret (entity.mkAuthor id name, None)
  end.

Definition GetAuthorInfo (ctx : Context) (id : string) : M (entity.Author * option error) :=
  r <- sql.run None (sql.select_author id) ;;
  match r with
  | Err err =>
      if errors_Is err ErrNoRows then ret (entity.Author_zero, Some ErrAuthorNotFound)
      else
        zap.log ErrorLevel "Error while accessing to data base." (Some err) ;;;
        ret (entity.Author_zero, Some err)
  | Ok (id', name) => ret (entity.mkAuthor id' name, None)
  end.

End postgres.

(** The remaining use cases of [libraryImpl].  The repository method each
    one calls is passed as an argument. *)
Module usecases.

Definition UpdateBook
    (updateBook : Context -> string -> string -> list string -> M (entity.Book * option error))
    (ctx : Context) (request : rpc.UpdateBookRequest) : M (result unit) :=
  zap.Info "Update book request is being made to the database." ;;;
  r <- updateBook ctx (rpc.UpdateBook_Id request) (rpc.UpdateBook_Name request)
         (rpc.UpdateBook_AuthorIds request) ;;
  match r.2 with
  | Some err => ret (Err (library.convertErr err))
  | None => ret (Ok tt)
  end.

Definition GetBookInfo (l : library.libraryImpl) (ctx : Context)
    (request : rpc.GetBookInfoRequest) : M (result rpc.GetBookInfoResponse) :=
  zap.Info "Get book info request is being made to the database." ;;;
  r <- repository.GetBookInfo (library.booksRepository l) ctx (rpc.GetBookInfo_Id request) ;;
  match r.2 with
  | Some err => ret (Err (library.convertErr err))
  | None => ret (Ok {| rpc.GetBookInfo_Book := library.toProto r.1 |})
  end.

Definition ChangeAuthorInfo
    (changeAuthorInfo : Context -> string -> string -> M (entity.Author * option error))
    (ctx : Context) (request : rpc.ChangeAuthorInfoRequest) : M (result unit) :=
  zap.Info "Change author info request is being made to the database." ;;;
  r <- changeAuthorInfo ctx (rpc.ChangeAuthorInfo_Id request)
         (rpc.ChangeAuthorInfo_Name request) ;;
  match r.2 with
  | Some err => ret (Err (library.convertErr err))
  | None => ret (Ok tt)
  end.

Definition GetAuthorInfo
    (getAuthorInfo : Context -> string -> M (entity.Author * option error))
    (ctx : Context) (request : rpc.GetAuthorInfoRequest) : M (result rpc.GetAuthorInfoResponse) :=
  zap.Info "Get author info request is being made to the database." ;;;
  r <- getAuthorInfo ctx (rpc.GetAuthorInfo_Id request) ;;
  match r.2 with
  | Some err => ret (Err (library.convertErr err))
  | None =>
      ret (Ok {| rpc.GetAuthorInfo_RespId := entity.Author_ID r.1;
                 rpc.GetAuthorInfo_RespName := entity.Author_Name r.1 |})
  end.

End usecases.

(** package controller: validation in front of the use cases.
    [request.ValidateAll()] is generated code and is passed as [validate]. *)
Module controller.

Section Controllers.

Context {J : Json}.
Variable l : library.libraryImpl.

Definition AddBook (validate : pb.AddBookRequest -> option error) (ctx : Context)
    (request : pb.AddBookRequest) : M (result pb.AddBookResponse) :=
  zap.Info "Validating add book request" ;;;
  match validate request with
  | Some err =>
      zap.log ErrorLevel "Error during validating add book request." (Some err) ;;;
      ret (Err (StatusError InvalidArgument (Error err)))
  | None =>
      r <- library.AddBook l ctx request ;;
      match r with
      | Err err =>
          zap.log ErrorLevel "Error during add book request." (Some err) ;;;
          ret (Err err)
      | Ok book =>
          zap.Info "Add book request has passed successfully" ;;;
          ret (Ok book)
      end
  end.

Definition RegisterAuthor (validate : pb.RegisterAuthorRequest -> option error)
    (ctx : Context) (request : pb.RegisterAuthorRequest)
  : M (result pb.RegisterAuthorResponse) :=
  zap.Info "Validating register author request." ;;;
  match validate request with
  | Some err =>
      zap.log ErrorLevel "Error during validating register author request." (Some err) ;;;
      ret (Err (StatusError InvalidArgument (Error err)))
  | None =>
      r <- library.RegisterAuthor l ctx request ;;
      match r with
      | Err err =>
          zap.log ErrorLevel "Error during register author request." (Some err) ;;;
          ret (Err err)
      | Ok author =>
          zap.Info "Register author request has passed successfully." ;;;
          ret (Ok author)
      end
  end.

(** [server.Context()] is the context of the stream. *)
Definition GetAuthorBooks (validate : pb.GetAuthorBooksRequest -> option error)
    (serverContext : Context) (request : pb.GetAuthorBooksRequest)
    (server : Library_GetAuthorBooksServer) : M (option error) :=
  zap.Info "Validating get author books request." ;;;
  match validate request with
  | Some err =>
      zap.log ErrorLevel "Error during validating get author books request." (Some err) ;;;
      ret (Some (StatusError InvalidArgument (Error err)))
  | None =>
      err <- library.GetAuthorBooks l serverContext request server ;;
      match err with
      | Some e =>
          zap.log ErrorLevel "Error during get author books request." (Some e) ;;;
          ret (Some e)
      | None =>
          zap.Info "Add book request has passed successfully." ;;;
          ret None
      end
  end.

End Controllers.

(** The controllers of the remaining calls; the use case each one calls is
    the method of its [booksUseCase] or [authorUseCase] and is passed as an
    argument. *)
Definition ChangeAuthorInfo
    (changeAuthorInfo : Context -> rpc.ChangeAuthorInfoRequest -> M (result unit))
    (validate : rpc.ChangeAuthorInfoRequest -> option error)
    (ctx : Context) (request : rpc.ChangeAuthorInfoRequest) : M (result unit) :=
  zap.Info "Validating change author request." ;;;
  match validate request with
  | Some err =>
      zap.log ErrorLevel "Error during validating change author info request." (Some err) ;;;
      ret (Err (StatusError InvalidArgument (Error err)))
  | None =>
      r <- changeAuthorInfo ctx request ;;
      match r with
      | Err err =>
          zap.log ErrorLevel "Error during change author info request." (Some err) ;;;
          ret (Err err)
      | Ok resp =>
          zap.Info "Change author request has passed successfully." ;;;
          ret (Ok resp)
      end
  end.

Definition GetBookInfo
    (getBookInfo : Context -> rpc.GetBookInfoRequest -> M (result rpc.GetBookInfoResponse))
    (validate : rpc.GetBookInfoRequest -> option error)
    (ctx : Context) (request : rpc.GetBookInfoRequest)
  : M (result rpc.GetBookInfoResponse) :=
  zap.Info "Validating get book info request." ;;;
  match validate request with
  | Some err =>
      zap.log ErrorLevel "Error during validating get book info request." (Some err) ;;;
      ret (Err (StatusError InvalidArgument (Error err)))
  | None =>
      r <- getBookInfo ctx request ;;
      match r with
      | Err err =>
          zap.log ErrorLevel "Error during get book info request." (Some err) ;;;
          ret (Err err)
      | Ok book =>
          zap.Info "Change author request has passed successfully." ;;;
          ret (Ok book)
      end
  end.

Definition UpdateBook
    (updateBook : Context -> rpc.UpdateBookRequest -> M (result unit))
    (validate : rpc.UpdateBookRequest -> option error)
    (ctx : Context) (request : rpc.UpdateBookRequest) : M (result unit) :=
  zap.Info "Validating update book request." ;;;
  match validate request with
  | Some err =>
      zap.log ErrorLevel "Error during validating update book request." (Some err) ;;;
      ret (Err (StatusError InvalidArgument (Error err)))
  | None =>
      r <- updateBook ctx request ;;
      match r with
      | Err err =>
          zap.log ErrorLevel "Error during update book request." (Some err) ;;;
          ret (Err err)
      | Ok resp =>
          zap.Info "Update book request has passed successfully." ;;;
          ret (Ok resp)
      end
  end.

Definition GetAuthorInfo
    (getAuthorInfo : Context -> rpc.GetAuthorInfoRequest
                     -> M (result rpc.GetAuthorInfoResponse))
    (validate : rpc.GetAuthorInfoRequest -> option error)
    (ctx : Context) (request : rpc.GetAuthorInfoRequest)
  : M (result rpc.GetAuthorInfoResponse) :=
  zap.Info "Validating get author info request." ;;;
  match validate request with
  | Some err =>
      zap.log ErrorLevel "Error during validating get author info request." (Some err) ;;;
      ret (Err (StatusError InvalidArgument (Error err)))
  | None =>
      r <- getAuthorInfo ctx request ;;
      match r with
      | Err err =>
          zap.log ErrorLevel "Error during get author info request." (Some err) ;;;
          ret (Err err)
      | Ok author =>
          zap.Info "Get author info request has passed successfully." ;;;
          ret (Ok author)
      end
  end.

End controller.

(** package config: the configuration read from the environment. *)
Module config.

Record GRPC := mkGRPC { GRPC_Port : string; GatewayPort : string }.

Record PG := mkPG {
  URL : string;
  Host : string;
  PG_Port : string;
  DB : string;
  User : string;
  Password : string;
  MaxConn : string;
}.

(** [int] and [time.Duration] are 64-bit: stored as [Z], the arithmetic on
    them wraps. *)
Record Outbox := mkOutbox {
  Enabled : bool;
  Workers : Z;
  BatchSize : Z;
  WaitTimeMS : Z;
  InProgressTTLMS : Z;
  AuthorSendURL : string;
  BookSendURL : string;
}.

Record Config := mkConfig { Config_GRPC : GRPC; Config_PG : PG; Config_Outbox : Outbox }.

(** The zero value of [Outbox], as [&Config{}] leaves it. *)
Definition Outbox_zero : Outbox := mkOutbox false 0 0 0 0 "" "".

(** The process environment. *)
Abbreviation environ := (gmap string string).

(** [os.LookupEnv] is the lookup [env !! name]; [os.Getenv] gives the empty
    string for a variable that is not set. *)
Definition Getenv (env : environ) (name : string) : string :=
  default "" (env !! name).

Definition getOrDefault (env : environ) (envName defaultValue : string) : string :=
  match env !! envName with
  | Some val => val
  | None => defaultValue
  end.

(** The product of two [int64], wrapped. *)
Definition mul64 (a b : Z) : Z :=
  ((a * b + 2 ^ 63) mod 2 ^ 64 - 2 ^ 63)%Z.

(** [time.Millisecond], in nanoseconds. *)
Definition Millisecond : Z := 1000000.

(** [net/url]'s [URL] with the fields NewConfig sets. *)
Record url_URL := mkURL {
  Scheme : string;
  UserPassword : string * string;
  URL_Host : string;
  Path : string;
  RawQuery : string;
}.

Section Library.

(** Of the standard library: the [String] method of [url.URL],
    [net.JoinHostPort], [strconv.Atoi] and the [strconv.NumError] of a
    function and its input. *)
Variable URL_String : url_URL -> string.
Variable JoinHostPort : string -> string -> string.
Variable Atoi : string -> result Z.
Variable NumError : string -> string -> error.

(** [strconv.ParseBool] accepts 1, t, T, TRUE, true, True, 0, f, F, FALSE,
    false, False; any other value is an error. *)
Definition ParseBool (str : string) : result bool :=
  if bool_decide (str ∈ ["1"; "t"; "T"; "TRUE"; "true"; "True"]) then Ok true
  else if bool_decide (str ∈ ["0"; "f"; "F"; "FALSE"; "false"; "False"]) then Ok false
  else Err (NumError "ParseBool" str).

(** The block of NewConfig under [if cfg.Outbox.Enabled]. *)
Definition outboxSettings (env : environ) : result Outbox :=
  match Atoi (Getenv env "OUTBOX_WORKERS") with
  | Err err => Err (Errorf "error while parsing OUTBOX_WORKERS: " err)
  | Ok workers =>
      match Atoi (Getenv env "OUTBOX_BATCH_SIZE") with
      | Err err => Err (Errorf "error while parsing OUTBOX_BATCH_SIZE: " err)
      | Ok batchSize =>
          match Atoi (Getenv env "OUTBOX_WAIT_TIME_MS") with
          | Err err => Err (Errorf "error while parsing OUTBOX_WAIT_TIME_MS: " err)
          | Ok waitTime =>
              match Atoi (Getenv env "OUTBOX_IN_PROGRESS_TTL_MS") with
              | Err err => Err (Errorf "error while parsing OUTBOX_IN_PROGRESS_TTL_MS: " err)
              | Ok inProgressTTL =>
                  Ok (mkOutbox true workers batchSize
                        (mul64 waitTime Millisecond) (mul64 inProgressTTL Millisecond)
                        (Getenv env "OUTBOX_AUTHOR_SEND_URL")
                        (Getenv env "OUTBOX_BOOK_SEND_URL"))
              end
          end
      end
  end.

Definition NewConfig (env : environ) : result Config :=
  let grpc := mkGRPC (getOrDefault env "GRPC_PORT" "9090")
                     (getOrDefault env "GRPC_GATEWAY_PORT" "8080") in
  let host := getOrDefault env "POSTGRES_HOST" "127.0.0.1" in
  let port := getOrDefault env "POSTGRES_PORT" "5432" in
  let db := getOrDefault env "POSTGRES_DB" "library" in
  let user := getOrDefault env "POSTGRES_USER" "dima" in
  let password := getOrDefault env "POSTGRES_PASSWORD" "1234" in
  let maxConn := getOrDefault env "POSTGRES_MAX_CONN" "10" in
  let pgURL := mkURL "postgres" (user, password) (JoinHostPort host port) db
                     ("sslmode=disable&pool_max_conns=" ++ maxConn) in
  let pg := mkPG (URL_String pgURL) host port db user password maxConn in
  match ParseBool (getOrDefault env "OUTBOX_ENABLED" "false") with
  | Err err => Err (Errorf "error while parsing OUTBOX_ENABLED: " err)
  | Ok false => Ok (mkConfig grpc pg Outbox_zero)
  | Ok true =>
      match outboxSettings env with
      | Err err => Err err
      | Ok outbox => Ok (mkConfig grpc pg outbox)
      end
  end.

End Library.

End config.

(** ** Worlds and codecs for the examples *)

Module sample.

Definition no_rows : tables := mkTables ∅ ∅ [] ∅.

(** An empty database with no fault scripted. *)
Definition quiet : world :=
  mkWorld no_rows ∅ [] [] 0 [] [] [] [] [] [].

(** A codec that keeps the id only. *)
Definition id_bytes (s : string) : bytes := String.list_byte_of_string s.

#[local] Instance codec : Json := {|
  json_Marshal_Book := fun b => Ok (id_bytes (entity.ID b));
  json_Marshal_Author := fun a => Ok (id_bytes (entity.Author_ID a));
  json_Unmarshal_Book := fun d =>
    match d with
    | [] => Err (ErrNew "unexpected end of JSON input")
    | _ => Ok (entity.mkBook (String.string_of_list_byte d) "" [] 0 0)
    end;
  json_Unmarshal_Author := fun d =>
    match d with
    | [] => Err (ErrNew "unexpected end of JSON input")
    | _ => Ok (entity.mkAuthor (String.string_of_list_byte d) "")
    end;
|}.


(** A leased batch, after the one of TestOutbox: a book event, an author
    event, and the key -1 leased twice, once with the undefined kind and
    once as a book event with an empty payload. *)
Definition batch : list repository.OutboxData :=
  [repository.mkOutboxData "0" repository.OutboxKindBook (id_bytes "b0");
   repository.mkOutboxData "1" repository.OutboxKindAuthor (id_bytes "a1");
   repository.mkOutboxData "-1" repository.OutboxKindUndefined (id_bytes "x");
   repository.mkOutboxData "-1" repository.OutboxKindBook []].

(** The repository of the GetAuthorBooks test: three books of author 123. *)
Definition three_books : list entity.Book :=
  [entity.mkBook "123" "test" ["123"] 1 1;
   entity.mkBook "456" "test" ["123"] 2 2;
   entity.mkBook "789" "test" ["123"] 3 3].

Definition mock_authors (books : list entity.Book) : repository.AuthorRepository :=
  {| repository.RegisterAuthor := fun _ a => ret (a, None);
     repository.GetAuthorBooks := fun _ _ => ret (books, None) |}.

Definition no_lease : repository.OutboxRepository :=
  repository.NewOutbox (fun _ _ _ => ret (Ok [])) (fun _ _ => ret None).

Definition mock_library : library.libraryImpl :=
  library.New repository.transactorImpl no_lease (mock_authors three_books)
              repository.postgresImpl_Books.

(** An empty database that will generate the id b1, and the same database
    when the fifth driver call that reaches it fails. *)
Definition one_id : world := set_ids ["b1"] quiet.

Definition commit_fails : world :=
  set_faults [None; None; None; None; Some (ErrNew "commit failed")] one_id.

Definition dune : pb.AddBookRequest :=
  {| pb.AddBook_Name := "Dune"; pb.AddBook_AuthorIds := [] |}.

Definition ghost_written : pb.AddBookRequest :=
  {| pb.AddBook_Name := "Dune"; pb.AddBook_AuthorIds := ["ghost"] |}.

(** A database with one author and two books, the first without authors. *)
Definition shelf : world :=
  set_durable
    (mkTables {[ "a1" := "Herbert" ]}
              {[ "b1" := ("Anonymous", 0%Z, 0%Z); "b2" := ("Dune", 0%Z, 0%Z) ]}
              [("a1", "b2")] ∅) quiet.

(** A stream whose second Send fails. *)
Definition flaky_stream : world :=
  set_stream_plan [None; Some (ErrNew "append error")] quiet.

(** A body that does nothing and succeeds, one that fails, and a body that
    calls WithTx again on the context it was given. *)
Definition succeed : Context -> unit -> M (unit * option error) :=
  fun _ v => ret (v, None).
Definition fail_with (e : error) : Context -> unit -> M (unit * option error) :=
  fun _ v => ret (v, Some e).
Definition nested (f : Context -> unit -> M (unit * option error))
  : Context -> unit -> M (unit * option error) :=
  fun ctx v => repository.transactorImpl_WithTx ctx f v.

End sample.

(** ** Vocabulary of the statements below *)

(** The log entries the GetAuthorBooks loop writes for a run of Send
    outcomes: one per failed Send. *)
Definition send_failures (outcomes : list (option error)) : list entry :=
  omap (fun o : option error =>
          match o with
          | Some e => Some (ErrorLevel, "error while sending response", Some e)
          | None => None
          end) outcomes.

(** The world after one round of the loop on the recording stream. *)
Definition after_send (b : entity.Book) (w : world) : world :=
  let w1 := set_stream_plan (tl (stream_plan w))
              (set_stream_sent (stream_sent w ++ [library.toProto b]) w) in
  match hd None (stream_plan w) with
  | Some e => set_logs (logs w1 ++ [(ErrorLevel, "error while sending response", Some e)]) w1
  | None => w1
  end.

(** The author ids linked to a book in [author_book], in table order. *)
Definition linked_authors (t : tables) (id : string) : list string :=
  map fst (filter (fun r => r.2 = id) (author_book t)).

(** The tables after the two statements of AddBook and after the one of
    RegisterAuthor. *)
Definition with_book (t : tables) (b : entity.Book) : tables :=
  mkTables (author t)
    (<[entity.ID b := (entity.Name b, entity.CreatedAt b, entity.UpdatedAt b)]> (book t))
    (author_book t ++ repository.getRows (entity.ID b) (entity.AuthorIDs b)) (outbox t).

Definition with_author (t : tables) (a : entity.Author) : tables :=
  mkTables (<[entity.Author_ID a := entity.Author_Name a]> (author t)) (book t)
    (author_book t) (outbox t).

Definition with_event (t : tables) (key : string) (row : outbox_row) : tables :=
  mkTables (author t) (book t) (author_book t) (<[key := row]> (outbox t)).

(** [undisturbed n fs]: the next [n] driver calls are not failed by the
    script [fs]. *)
Fixpoint undisturbed (n : nat) (fs : list (option error)) : Prop :=
  match n with
  | O => True
  | S n => hd None fs = None /\ undisturbed n (tl fs)
  end.

(** A write use case that failed inside its transaction: the caller gets the
    converted, wrapped error [e], the last driver call is the Rollback of the
    transaction, and the committed tables are those of [w]. *)
Definition failed_and_rolled_back {R : Type} (r : result R * world) (e : error)
    (tx : Tx) (w : world) : Prop :=
  r.1 = Err (library.convertErr (Errorf "function execution error: " e)) /\
  last (calls r.2) = Some (EvRollback tx) /\
  durable r.2 = durable w.

(** [within_tx tx w w']: between [w] and [w'] the driver was sent nothing
    but statements on the transaction [tx]: no Begin, Commit or Rollback,
    the committed tables and the other open transactions are as they were,
    and [tx] is still open if it was. *)
Definition within_tx (tx : Tx) (w w' : world) : Prop :=
  durable w' = durable w /\
  (forall tx', tx' <> tx -> open_tx w' !! tx' = open_tx w !! tx') /\
  (is_Some (open_tx w !! tx) -> is_Some (open_tx w' !! tx)) /\
  exists evs, calls w' = (calls w ++ evs)%list /\
    Forall (fun e => exists s, e = EvExec (Some tx) s) evs.

(** A database with two authors and one book, which will generate the id
    b3, and a request for a book by both authors. *)
Module sample_books.

Definition two_authors : world :=
  set_ids ["b3"]
    (set_durable
       (mkTables {[ "a1" := "Herbert"; "a2" := "Anderson" ]}
                 {[ "b2" := ("Dune", 0%Z, 0%Z) ]}
                 [("a1", "b2")] ∅) sample.quiet).

Definition sequel : pb.AddBookRequest :=
  {| pb.AddBook_Name := "Hunters of Dune"; pb.AddBook_AuthorIds := ["a2"; "a1"] |}.

End sample_books.

(** The book that getBookFromRows makes of a scanned row. *)
Definition book_of_row (r : pgx.book_row) : entity.Book :=
  entity.mkBook (pgx.col_id r) (pgx.col_name r) (omap id (pgx.col_authors r))
    (pgx.col_created_at r) (pgx.col_updated_at r).

(** The codes a call of the service can fail with. *)
Definition three_codes (e : error) : Prop :=
  exists c msg, e = StatusError c msg /\
    (c = InvalidArgument \/ c = NotFound \/ c = Internal).

(** The variables NewConfig reads only when the outbox is enabled, and
    those of them it parses as numbers. *)
Definition outbox_variables : list string :=
  ["OUTBOX_WORKERS"; "OUTBOX_BATCH_SIZE"; "OUTBOX_WAIT_TIME_MS";
   "OUTBOX_IN_PROGRESS_TTL_MS"; "OUTBOX_AUTHOR_SEND_URL"; "OUTBOX_BOOK_SEND_URL"].

Definition outbox_numbers : list string :=
  ["OUTBOX_WORKERS"; "OUTBOX_BATCH_SIZE"; "OUTBOX_WAIT_TIME_MS";
   "OUTBOX_IN_PROGRESS_TTL_MS"].

(** Environments for the examples, with a decimal parser in the place of
    strconv.Atoi and plain concatenation in the place of the URL printer. *)
Module sample_config.

Definition digit (a : Ascii.ascii) : option Z :=
  let n := (Z.of_nat (Ascii.nat_of_ascii a) - 48)%Z in
  if ((0 <=? n) && (n <=? 9))%Z then Some n else None.

Fixpoint digits (s : string) (acc : Z) : option Z :=
  match s with
  | EmptyString => Some acc
  | String a rest =>
      match digit a with
      | Some d => digits rest (10 * acc + d)%Z
      | None => None
      end
  end.

Definition NumError (fn str : string) : error :=
  ErrNew ("strconv." ++ fn ++ ": parsing " ++ str ++ ": invalid syntax").

Definition Atoi (s : string) : result Z :=
  match s with
  | EmptyString => Err (NumError "Atoi" s)
  | _ => match digits s 0 with Some n => Ok n | None => Err (NumError "Atoi" s) end
  end.

Definition JoinHostPort (host port : string) : string := host ++ ":" ++ port.

Definition URL_String (u : config.url_URL) : string :=
  config.Scheme u ++ "://" ++ (config.UserPassword u).1 ++ ":" ++ (config.UserPassword u).2
    ++ "@" ++ config.URL_Host u ++ "/" ++ config.Path u ++ "?" ++ config.RawQuery u.

Definition NewConfig : config.environ -> result config.Config :=
  config.NewConfig URL_String JoinHostPort Atoi NumError.

(** The outbox switched off, and the same with a worker count that is no
    number. *)
Definition switched_off : config.environ := {[ "OUTBOX_ENABLED" := "false" ]}.

Definition many_workers : config.environ := <[ "OUTBOX_WORKERS" := "many" ]> switched_off.

(** The outbox switched on with every setting, and with one missing. *)
Definition switched_on : config.environ :=
  {[ "OUTBOX_ENABLED" := "true"; "OUTBOX_WORKERS" := "4"; "OUTBOX_BATCH_SIZE" := "100";
     "OUTBOX_WAIT_TIME_MS" := "250"; "OUTBOX_IN_PROGRESS_TTL_MS" := "30000";
     "OUTBOX_BOOK_SEND_URL" := "http://sink/book" ]}.

Definition no_batch_size : config.environ :=
  {[ "OUTBOX_ENABLED" := "1"; "OUTBOX_WORKERS" := "4" ]}.

End sample_config.

(** * Properties *)

Open Scope list_scope.

(** ** Transactor *)

Section Transactor.

Import repository.

Lemma injectTx_tx (ctx ctxWithTx : Context) (tx : Tx) (w w1 : world) :
  injectTx ctx w = (Ok (ctxWithTx, tx), w1) ->
  Value_txInjector ctxWithTx = Some tx.
Proof.
  unfold injectTx, extractTx. destruct ctx as [[t|]]; simpl.
  - intros [= <- <- <-]. reflexivity.
  - unfold bind. destruct (pgx.Begin w) as [[t|e] w'].
    + intros [= <- <- <-]. reflexivity.
    + discriminate.
Qed.

(** WithTx when the body fails: the wrapped body error comes back and the
    deferred function rolls back. *)
Lemma WithTx_body_error {V} ctx (f : Context -> V -> M (V * option error)) v w
      ctxWithTx tx w1 v' e w2 :
  injectTx ctx w = (Ok (ctxWithTx, tx), w1) ->
  f ctxWithTx v w1 = ((v', Some e), w2) ->
  let r := transactorImpl_WithTx ctx f v w in
  r.1 = (v', Some (Errorf "function execution error: " e)) /\
  calls r.2 = calls w2 ++ [EvRollback tx] /\
  durable r.2 = durable w2 /\
  open_tx r.2 = delete tx (open_tx w2).
Proof.
  intros Hi Hf. unfold transactorImpl_WithTx, bind. rewrite Hi, Hf.
  unfold WithTx_deferred, pgx.Rollback, zap.log, pgx.record, pgx.pop_fault,
    modify, gets, bind, ret. simpl.
  destruct (open_tx w2 !! tx) eqn:Hv; simpl.
  - auto.
  - repeat split. symmetry. apply delete_id. exact Hv.
Qed.

Lemma Commit_calls tx w : calls (pgx.Commit tx w).2 = calls w ++ [EvCommit tx].
Proof.
  unfold pgx.Commit, pgx.record, pgx.pop_fault, modify, gets, bind, ret. simpl.
  destruct (open_tx w !! tx); simpl; [destruct (hd None (faults w))|]; reflexivity.
Qed.

Lemma Commit_published tx w t :
  open_tx w !! tx = Some t -> (pgx.Commit tx w).1 = None ->
  durable (pgx.Commit tx w).2 = t.
Proof.
  unfold pgx.Commit, pgx.record, pgx.pop_fault, modify, gets, bind, ret. simpl.
  intros ->. simpl. destruct (hd None (faults w)); simpl; [discriminate | reflexivity].
Qed.

Lemma Commit_failed tx w :
  (pgx.Commit tx w).1 <> None -> durable (pgx.Commit tx w).2 = durable w.
Proof.
  unfold pgx.Commit, pgx.record, pgx.pop_fault, modify, gets, bind, ret. simpl.
  destruct (open_tx w !! tx); simpl; [destruct (hd None (faults w))|]; simpl;
    intros H; [reflexivity | contradiction | reflexivity].
Qed.

(** WithTx when the body succeeds: the deferred function commits and the
    result of Commit is the result of WithTx. *)
Lemma WithTx_body_ok {V} ctx (f : Context -> V -> M (V * option error)) v w
      ctxWithTx tx w1 v' w2 :
  injectTx ctx w = (Ok (ctxWithTx, tx), w1) ->
  f ctxWithTx v w1 = ((v', None), w2) ->
  transactorImpl_WithTx ctx f v w =
    ((v', (pgx.Commit tx w2).1), (pgx.Commit tx w2).2).
Proof.
  intros Hi Hf. unfold transactorImpl_WithTx, bind. rewrite Hi, Hf.
  unfold WithTx_deferred, bind, ret.
  destruct (pgx.Commit tx w2) as [c w3]. reflexivity.
Qed.

Lemma errors_Is_refl e : errors_Is e e = true.
Proof.
  destruct e; cbn [errors_Is]; rewrite bool_decide_eq_true_2 by reflexivity;
    reflexivity.
Qed.

Lemma errors_Is_wrapped prefix e : errors_Is (Errorf prefix e) e = true.
Proof. cbn [errors_Is]. rewrite errors_Is_refl. apply orb_true_r. Qed.

(** C3. For every call WithTx(ctx, f) that reaches the body: if the body
    returns an error, the only driver call WithTx adds is a Rollback of the
    transaction (no Commit), nothing is published, and WithTx returns the
    body's error wrapped, whatever Rollback answered; if the body returns
    nil, the only driver call WithTx adds is a Commit of the transaction,
    WithTx returns what Commit returned, the transaction's view is
    published when that is nil and nothing is published when it is not. *)
Theorem WithTx_commits_or_rolls_back {V} ctx (f : Context -> V -> M (V * option error))
      v w ctxWithTx tx w1 v' err w2 :
  injectTx ctx w = (Ok (ctxWithTx, tx), w1) ->
  f ctxWithTx v w1 = ((v', err), w2) ->
  let r := transactorImpl_WithTx ctx f v w in
  match err with
  | Some e =>
      r.1.2 = Some (Errorf "function execution error: " e) /\
      errors_Is (Errorf "function execution error: " e) e = true /\
      calls r.2 = calls w2 ++ [EvRollback tx] /\
      durable r.2 = durable w2 /\
      open_tx r.2 !! tx = None
  | None =>
      r.1.2 = (pgx.Commit tx w2).1 /\
      calls r.2 = calls w2 ++ [EvCommit tx] /\
      (forall t, open_tx w2 !! tx = Some t -> r.1.2 = None -> durable r.2 = t) /\
      (r.1.2 <> None -> durable r.2 = durable w2)
  end.
Proof.
  intros Hi Hf. destruct err as [e|].
  - destruct (WithTx_body_error ctx f v w _ _ _ _ _ _ Hi Hf) as (H1 & H2 & H3 & H4).
    cbv zeta. rewrite H1, H2, H3, H4. repeat split; auto using errors_Is_wrapped.
    apply lookup_delete_eq.
  - cbv zeta. rewrite (WithTx_body_ok ctx f v w _ _ _ _ _ Hi Hf). simpl.
    repeat split; auto using Commit_calls, Commit_published, Commit_failed.
Qed.

Lemma WithTx_commits_or_rolls_back_witness :
  let r := transactorImpl_WithTx context_Background
             (sample.fail_with (ErrNew "boom")) tt sample.quiet in
  r.1.2 = Some (Errorf "function execution error: " (ErrNew "boom")) /\
  errors_Is (Errorf "function execution error: " (ErrNew "boom")) (ErrNew "boom") = true /\
  calls r.2 = calls (injectTx context_Background sample.quiet).2 ++ [EvRollback 0] /\
  durable r.2 = durable (injectTx context_Background sample.quiet).2 /\
  open_tx r.2 !! 0 = None.
Proof.
  apply (WithTx_commits_or_rolls_back context_Background
           (sample.fail_with (ErrNew "boom")) tt sample.quiet
           (context_WithValue context_Background 0) 0
           (injectTx context_Background sample.quiet).2 tt (Some (ErrNew "boom"))
           (injectTx context_Background sample.quiet).2); reflexivity.
Defined.

(** C8, as amended. For every call WithTx(ctx, f) whose body returns a
    non-nil error, WithTx returns that error wrapped once by
    [fmt.Errorf("function execution error: %w", err)]: the body's error is
    what Unwrap gives and what [errors.Is] finds, and the message is the
    body's message behind the prefix. *)
Theorem WithTx_wraps_body_error {V} ctx (f : Context -> V -> M (V * option error))
      v w ctxWithTx tx w1 v' e w2 :
  injectTx ctx w = (Ok (ctxWithTx, tx), w1) ->
  f ctxWithTx v w1 = ((v', Some e), w2) ->
  exists txErr,
    (transactorImpl_WithTx ctx f v w).1.2 = Some txErr /\
    txErr = Errorf "function execution error: " e /\
    errors_Unwrap txErr = Some e /\
    errors_Is txErr e = true /\
    Error txErr = "function execution error: " +:+ Error e.
Proof.
  intros Hi Hf.
  destruct (WithTx_body_error ctx f v w _ _ _ _ _ _ Hi Hf) as (H1 & _).
  eexists. rewrite H1. simpl. split; [reflexivity|].
  split; [reflexivity|]. split; [reflexivity|]. split; [|reflexivity].
  apply errors_Is_wrapped.
Qed.

Lemma WithTx_wraps_body_error_witness :
  exists txErr,
    (transactorImpl_WithTx context_Background
       (sample.fail_with ErrAuthorNotFound) tt sample.quiet).1.2 = Some txErr /\
    txErr = Errorf "function execution error: " ErrAuthorNotFound /\
    errors_Unwrap txErr = Some ErrAuthorNotFound /\
    errors_Is txErr ErrAuthorNotFound = true /\
    Error txErr = "function execution error: " +:+ Error ErrAuthorNotFound.
Proof.
  apply (WithTx_wraps_body_error context_Background
           (sample.fail_with ErrAuthorNotFound) tt sample.quiet
           (context_WithValue context_Background 0) 0
           (injectTx context_Background sample.quiet).2 tt ErrAuthorNotFound
           (injectTx context_Background sample.quiet).2); reflexivity.
Defined.

(** C8, as stated, fails: a body that returns [errors.New("boom")] makes
    WithTx return a different error, the wrapping one. *)
Lemma WithTx_unwrapped_counterexample :
  let body := sample.fail_with (ErrNew "boom") in
  (body (context_WithValue context_Background 0) tt
        (injectTx context_Background sample.quiet).2).1.2 = Some (ErrNew "boom") /\
  (transactorImpl_WithTx context_Background body tt sample.quiet).1.2
    = Some (Errorf "function execution error: " (ErrNew "boom")) /\
  (transactorImpl_WithTx context_Background body tt sample.quiet).1.2
    <> Some (ErrNew "boom").
Proof. cbv zeta. split; [reflexivity|]. split; [reflexivity|]. discriminate. Qed.

(** A WithTx that finds a transaction on its context reuses it, and its
    deferred function still ends it: the call adds a Commit or a Rollback
    of the caller's transaction. *)
Lemma inner_WithTx_ends_the_transaction {V} ctx tx
      (f : Context -> V -> M (V * option error)) v w v' err w2 :
  Value_txInjector ctx = Some tx ->
  f ctx v w = ((v', err), w2) ->
  calls (transactorImpl_WithTx ctx f v w).2
    = calls w2 ++ [match err with Some _ => EvRollback tx | None => EvCommit tx end].
Proof.
  intros Hc Hf.
  assert (Hi : injectTx ctx w = (Ok (ctx, tx), w)).
  { unfold injectTx, extractTx. rewrite Hc. reflexivity. }
  destruct err as [e|].
  - apply (WithTx_body_error ctx f v w _ _ _ _ _ _ Hi Hf).
  - rewrite (WithTx_body_ok ctx f v w _ _ _ _ _ Hi Hf). apply Commit_calls.
Qed.

(** C1 does not hold of the code. A top-level WithTx whose body calls
    WithTx again, both bodies succeeding: the inner call commits the
    transaction at its own boundary, the outer call commits it a second
    time, finds it closed and fails. *)
Theorem nested_WithTx_commits_twice :
  let r := transactorImpl_WithTx context_Background
             (sample.nested sample.succeed) tt sample.quiet in
  calls r.2 = [EvBegin 0; EvCommit 0; EvCommit 0] /\
  r.1.2 = Some ErrTxClosed.
Proof. split; reflexivity. Qed.

(** The same with a failing inner body: a Rollback at the inner boundary
    and a second one at the outer boundary. *)
Lemma nested_WithTx_rolls_back_twice :
  let r := transactorImpl_WithTx context_Background
             (sample.nested (sample.fail_with (ErrNew "boom"))) tt sample.quiet in
  calls r.2 = [EvBegin 0; EvRollback 0; EvRollback 0].
Proof. reflexivity. Qed.

End Transactor.

(** ** GetAuthorBooks: the use case and the stream *)

Section GetAuthorBooks.

Lemma sendBooks_cons b books w :
  library.sendBooks recording_stream (b :: books) w
    = library.sendBooks recording_stream books (after_send b w).
Proof.
  cbn [library.sendBooks]. unfold bind at 1. cbn [Send recording_stream].
  unfold after_send. destruct (hd None (stream_plan w)); reflexivity.
Qed.

Lemma sendBooks_recording books : forall w,
  let w' := (library.sendBooks recording_stream books w).2 in
  stream_sent w' = stream_sent w ++ map library.toProto books /\
  logs w' = logs w ++ send_failures (take (length books) (stream_plan w)) /\
  stream_plan w' = drop (length books) (stream_plan w).
Proof.
  induction books as [|b books IH]; intros w; cbn zeta.
  - simpl. rewrite !app_nil_r, drop_0. auto.
  - rewrite sendBooks_cons. specialize (IH (after_send b w)). cbn zeta in IH.
    destruct IH as (I1 & I2 & I3). rewrite I1, I2, I3. unfold after_send.
    destruct (stream_plan w) as [|[e|] plan]; simpl;
      rewrite <- ?app_assoc, ?take_nil, ?drop_nil; cbn [send_failures omap list_omap];
      rewrite ?app_nil_r; auto.
Qed.

(** C9. Whenever the repository lookup of GetAuthorBooks succeeds, the use
    case returns nil whatever the stream's Send answers; on the recording
    stream every book of the lookup is sent, in order, also after a failed
    Send, and the only trace of the failed Sends is one log entry each. *)
Theorem GetAuthorBooks_ignores_send_errors
      (l : library.libraryImpl) ctx request w books w1 :
  repository.GetAuthorBooks (library.authorRepository l) ctx
    (pb.GetAuthorBooks_AuthorId request)
    (zap.Info "Get author books request is being made to the database." w).2
    = ((books, None), w1) ->
  (forall resp, (library.GetAuthorBooks l ctx request resp w).1 = None) /\
  let w' := (library.GetAuthorBooks l ctx request recording_stream w).2 in
  stream_sent w' = stream_sent w1 ++ map library.toProto books /\
  logs w' = logs w1 ++ send_failures (take (length books) (stream_plan w1)).
Proof.
  intros H. split.
  - intros resp. unfold library.GetAuthorBooks, bind.
    destruct (zap.Info _ w) as [u w0]. simpl in H. rewrite H.
    destruct (library.sendBooks resp books w1). reflexivity.
  - cbn zeta. unfold library.GetAuthorBooks, bind.
    destruct (zap.Info _ w) as [u w0]. simpl in H. rewrite H.
    pose proof (sendBooks_recording books w1) as S. cbn zeta in S.
    destruct (library.sendBooks recording_stream books w1) as [u' w2].
    simpl in *. tauto.
Qed.

End GetAuthorBooks.

Lemma GetAuthorBooks_ignores_send_errors_witness :
  let request := {| pb.GetAuthorBooks_AuthorId := "123" |} in
  (forall resp,
     (library.GetAuthorBooks sample.mock_library context_Background request resp
        sample.flaky_stream).1 = None) /\
  let w' := (library.GetAuthorBooks sample.mock_library context_Background request
               recording_stream sample.flaky_stream).2 in
  stream_sent w' = map library.toProto sample.three_books /\
  logs w' = [(InfoLevel, "Get author books request is being made to the database.", None);
             (ErrorLevel, "error while sending response", Some (ErrNew "append error"))].
Proof.
  exact (GetAuthorBooks_ignores_send_errors sample.mock_library context_Background
           {| pb.GetAuthorBooks_AuthorId := "123" |} sample.flaky_stream
           sample.three_books _ eq_refl).
Defined.

(** ** Scanning book rows *)

Section BookRows.

Import repository.

Lemma appendAuthors_omap (bookAuthors : list (option string)) : forall authorIDs,
  appendAuthors bookAuthors authorIDs = authorIDs ++ omap id bookAuthors.
Proof.
  unfold appendAuthors.
  induction bookAuthors as [|[a|] rest IH]; intros acc; simpl.
  - symmetry. apply app_nil_r.
  - rewrite IH, <- app_assoc. reflexivity.
  - apply IH.
Qed.

Lemma getBookFromRows_Ok (r : pgx.book_row) (w : world) :
  getBookFromRows (Ok r) w =
    ((entity.mkBook (pgx.col_id r) (pgx.col_name r) (omap id (pgx.col_authors r))
        (pgx.col_created_at r) (pgx.col_updated_at r), None), w).
Proof. unfold getBookFromRows, ret. rewrite appendAuthors_omap. reflexivity. Qed.

(** The aggregate without its NULLs is the list of linked authors. *)
Lemma array_agg_linked (t : tables) (bid : string) :
  omap id (pgx.array_agg t bid) = linked_authors t bid.
Proof.
  unfold pgx.array_agg, linked_authors.
  destruct (filter (fun r => r.2 = bid) (author_book t)) as [|r rs]; [reflexivity|].
  generalize (r :: rs). intros l. induction l as [|x l IH]; simpl; [reflexivity|].
  f_equal. exact IH.
Qed.

Lemma book_rows_authors (t : tables) (keep : string -> bool) (r : pgx.book_row) :
  r ∈ pgx.book_rows t keep ->
  keep (pgx.col_id r) = true /\ pgx.col_authors r = pgx.array_agg t (pgx.col_id r).
Proof.
  unfold pgx.book_rows. intros H. apply list_elem_of_fmap in H.
  destruct H as ([i [[n c] u]] & -> & H). apply list_elem_of_filter in H.
  simpl in *. tauto.
Qed.

Lemma scanBooks_authors (t : tables) (rows : list pgx.book_row) :
  forall acc w books w',
  Forall (fun r => pgx.col_authors r = pgx.array_agg t (pgx.col_id r)) rows ->
  Forall (fun b => entity.AuthorIDs b = linked_authors t (entity.ID b)) acc ->
  scanBooks rows acc w = ((books, None), w') ->
  Forall (fun b => entity.AuthorIDs b = linked_authors t (entity.ID b)) books.
Proof.
  induction rows as [|r rows IH]; intros acc w books w' Hr Ha; cbn [scanBooks].
  - unfold ret. intros [= <- <-]. exact Ha.
  - unfold bind. rewrite getBookFromRows_Ok. cbn [fst snd]. inversion Hr; subst.
    apply IH; [assumption|]. apply Forall_app. split; [exact Ha|].
    constructor; [|constructor]. simpl.
    match goal with H : pgx.col_authors r = _ |- _ => rewrite H end.
    apply array_agg_linked.
Qed.

(** C10. getBookFromRows keeps exactly the non-NULL elements of the scanned
    aggregate, in order; so a book returned by GetBookInfo or by
    GetAuthorBooks carries exactly the author ids linked to it, and a book
    without authors, whose aggregate is the single NULL, comes back from
    GetBookInfo with an empty AuthorIDs. *)
Theorem book_rows_have_no_null_author :
  (forall r w,
     entity.AuthorIDs (getBookFromRows (Ok r) w).1.1 = omap id (pgx.col_authors r) /\
     map Some (entity.AuthorIDs (getBookFromRows (Ok r) w).1.1)
       = filter (fun a => is_Some a) (pgx.col_authors r)) /\
  (forall t bid, linked_authors t bid = [] ->
     pgx.array_agg t bid = [None] /\ omap id (pgx.array_agg t bid) = []) /\
  (forall ctx bid w b w',
     postgresImpl_GetBookInfo ctx bid w = ((b, None), w') ->
     entity.AuthorIDs b = linked_authors (durable w) bid) /\
  (forall ctx aid w books w',
     postgresImpl_GetAuthorBooks ctx aid w = ((books, None), w') ->
     Forall (fun b => entity.AuthorIDs b = linked_authors (durable w) (entity.ID b)) books).
Proof.
  split; [|split; [|split]].
  - intros r w. rewrite getBookFromRows_Ok. simpl. split; [reflexivity|].
    induction (pgx.col_authors r) as [|[a|] l IH]; simpl; [reflexivity| |].
    + rewrite filter_cons_True by (simpl; eauto). simpl. f_equal. exact IH.
    + rewrite filter_cons_False by (simpl; intros [? ?]; discriminate). exact IH.
  - intros t bid H. rewrite array_agg_linked, H. split; [|reflexivity].
    unfold linked_authors in H. unfold pgx.array_agg.
    destruct (filter (fun r => r.2 = bid) (author_book t)); [reflexivity|discriminate].
  - intros ctx bid w b w'. unfold postgresImpl_GetBookInfo, pgx.select_book, bind.
    unfold pgx.pop_fault, gets, ret.
    destruct (hd None (faults w)) as [e|]; simpl.
    + destruct (errors_Is e ErrNoRows); simpl; discriminate.
    + destruct (pgx.book_rows (durable w) (fun b0 => bool_decide (b0 = bid)))
        as [|r rows] eqn:Hrows; simpl; [discriminate|].
      rewrite appendAuthors_omap. simpl. intros [= <- <-]. simpl.
      assert (Hin : r ∈ pgx.book_rows (durable w) (fun b0 => bool_decide (b0 = bid)))
        by (rewrite Hrows; constructor).
      apply book_rows_authors in Hin. destruct Hin as [Hk Ha].
      apply bool_decide_eq_true in Hk. rewrite Ha, Hk. apply array_agg_linked.
  - intros ctx aid w books w'. unfold postgresImpl_GetAuthorBooks, pgx.select_author_books, bind.
    unfold pgx.pop_fault, gets, ret.
    destruct (hd None (faults w)) as [e|]; simpl.
    + discriminate.
    + intros H. eapply scanBooks_authors in H; [exact H| |constructor].
      apply Forall_forall. intros r Hin. apply book_rows_authors in Hin. tauto.
Qed.

End BookRows.

Lemma book_rows_have_no_null_author_witness :
  entity.AuthorIDs
    (repository.postgresImpl_GetBookInfo context_Background "b1" sample.shelf).1.1 = [] /\
  pgx.array_agg (durable sample.shelf) "b1" = [None] /\
  entity.AuthorIDs
    (repository.postgresImpl_GetBookInfo context_Background "b2" sample.shelf).1.1 = ["a1"].
Proof.
  destruct book_rows_have_no_null_author as (_ & Hnull & Hinfo & _).
  split; [|split].
  - rewrite (Hinfo context_Background "b1" sample.shelf
               (repository.postgresImpl_GetBookInfo context_Background "b1" sample.shelf).1.1
               (repository.postgresImpl_GetBookInfo context_Background "b1" sample.shelf).2)
      by (vm_compute; reflexivity).
    vm_compute. reflexivity.
  - apply (Hnull (durable sample.shelf) "b1"). vm_compute. reflexivity.
  - rewrite (Hinfo context_Background "b2" sample.shelf
               (repository.postgresImpl_GetBookInfo context_Background "b2" sample.shelf).1.1
               (repository.postgresImpl_GetBookInfo context_Background "b2" sample.shelf).2)
      by (vm_compute; reflexivity).
    vm_compute. reflexivity.
Defined.

(** ** The handlers of the outbox kinds *)

Section Handlers.

Context {J : Json}.

(** SendID makes one POST of the id as text/plain and fails exactly on a
    transport error or a status of 400 and above. *)
Lemma SendID_posts (url id : string) (w : world) :
  let r := app.SendID url id w in
  http_calls r.2 = http_calls w ++ [mkRequest url "text/plain" id] /\
  match (http.Post url "text/plain" id w).1 with
  | Ok resp =>
      r.1 = if bool_decide (StatusCode resp >= 400)%Z
            then Some (ErrNew ("http error: " +:+ Status resp)) else None
  | Err e => r.1 = Some (Errorf "error while processing post request: " e)
  end.
Proof.
  unfold app.SendID, http.Post, app.SendID_deferred, app.httpMinErrorStatus,
    zap.log, bind, modify, ret. simpl.
  destruct (hd (Err (ErrNew "connection refused")) (http_plan w)) as [resp|e]; simpl.
  - destruct (bool_decide (StatusCode resp >= 400)%Z);
      destruct (Body_Close resp); simpl; auto.
  - auto.
Qed.

Lemma SendID_succeeds_iff (url id : string) (w : world) :
  (app.SendID url id w).1 = None <->
  exists resp, (http.Post url "text/plain" id w).1 = Ok resp /\ (StatusCode resp < 400)%Z.
Proof.
  destruct (SendID_posts url id w) as [_ H]. cbv zeta in H.
  destruct ((http.Post url "text/plain" id w).1) as [resp|e].
  - rewrite H. destruct (bool_decide_reflect (StatusCode resp >= 400)%Z) as [Hge|Hlt].
    + split; [discriminate|]. intros (resp' & [= <-] & Hlt). lia.
    + split; [|reflexivity]. intros _. exists resp. split; [reflexivity|lia].
  - rewrite H. split; [discriminate|]. intros (resp & Hr & _). discriminate.
Qed.

(** C6. The book handler deserializes the payload as a Book; when that fails
    it fails without any request; otherwise it makes exactly one POST, to the
    book URL, with content type text/plain and the book's id as body, and it
    returns nil exactly when the request came back with a status below 400
    (a transport error and a status of 400 or more are failures).  The author
    handler does the same with an Author, its id and the author URL. *)
Theorem outbox_handlers_post_the_id (url : string) (ctx : Context) (data : bytes) (w : world) :
  (let r := app.bookOutboxHandler url ctx data w in
   match json_Unmarshal_Book data with
   | Err e =>
       r.1 = Some (Errorf "can not deserialize data in book outbox handler: " e) /\
       http_calls r.2 = http_calls w
   | Ok book =>
       http_calls r.2 = http_calls w ++ [mkRequest url "text/plain" (entity.ID book)] /\
       (r.1 = None <->
        exists resp, (http.Post url "text/plain" (entity.ID book) w).1 = Ok resp /\
                     (StatusCode resp < 400)%Z)
   end) /\
  (let r := app.authorOutboxHandler url ctx data w in
   match json_Unmarshal_Author data with
   | Err e =>
       r.1 = Some (Errorf "can not deserialize data in author outbox handler: " e) /\
       http_calls r.2 = http_calls w
   | Ok author =>
       http_calls r.2 = http_calls w ++ [mkRequest url "text/plain" (entity.Author_ID author)] /\
       (r.1 = None <->
        exists resp, (http.Post url "text/plain" (entity.Author_ID author) w).1 = Ok resp /\
                     (StatusCode resp < 400)%Z)
   end).
Proof.
  split; cbv zeta.
  - unfold app.bookOutboxHandler. destruct (json_Unmarshal_Book data) as [book|e].
    + split; [apply SendID_posts | apply SendID_succeeds_iff].
    + split; reflexivity.
  - unfold app.authorOutboxHandler. destruct (json_Unmarshal_Author data) as [author|e].
    + split; [apply SendID_posts | apply SendID_succeeds_iff].
    + split; reflexivity.
Qed.

End Handlers.

(** ** The dispatcher's pass over a batch *)

Section Dispatcher.

Import repository.

Variable globalHandler : outbox.GlobalHandler.
Variable ctx : Context.






End Dispatcher.

Section KindRegistry.

Import repository.

Context {J : Json}.
Variables bookURL authorURL : string.


End KindRegistry.


(** ** Statements inside a transaction *)

Section Statements.

Import repository.

(** A statement sent on a transaction touches that transaction's view only;
    when it succeeds the view is the one [pgx.apply] computes. *)
Lemma exec_tx (tx : Tx) (s : statement) (w : world) :
  let r := pgx.exec (Some tx) s w in
  calls r.2 = calls w ++ [EvExec (Some tx) s] /\
  durable r.2 = durable w /\
  clock r.2 = clock w /\
  match r.1 with
  | Ok (id, now) =>
      exists t t', open_tx w !! tx = Some t /\
        pgx.apply s (if pgx.generates_id s then hd "" (ids w) else "") (clock w) t
          = Ok (t', id) /\
        now = clock w /\
        open_tx r.2 = <[tx := t']> (open_tx w)
  | Err _ => open_tx r.2 = open_tx w
  end.
Proof.
  unfold pgx.exec, pgx.record, pgx.view, pgx.pop_fault, pgx.next_id, pgx.store,
    modify, gets, bind, ret. simpl.
  destruct (open_tx w !! tx) as [t|] eqn:Hv; simpl; [|auto].
  destruct (hd None (faults w)) as [e|]; simpl; [auto|].
  destruct (pgx.generates_id s); simpl.
  - destruct (pgx.apply s (hd "" (ids w)) (clock w) t) as [[t' id]|e] eqn:Ha; simpl;
      [|auto]. repeat split. exists t, t'. auto.
  - destruct (pgx.apply s "" (clock w) t) as [[t' id]|e] eqn:Ha; simpl;
      [|auto]. repeat split. exists t, t'. auto.
Qed.

Lemma AddBook_statements_spec (tx : Tx) (b : entity.Book) (w : world) :
  let r := AddBook_statements tx b w in
  durable r.2 = durable w /\
  clock r.2 = clock w /\
  match r.1.2 with
  | Some _ => True
  | None =>
      exists t id, open_tx w !! tx = Some t /\
        r.1.1 = entity.mkBook id (entity.Name b) (entity.AuthorIDs b) (clock w) (clock w) /\
        open_tx r.2 = <[tx := with_book t r.1.1]> (open_tx w) /\
        calls r.2 = calls w ++
          [EvExec (Some tx) (InsertBook (entity.Name b));
           EvExec (Some tx) (CopyAuthorBook (getRows id (entity.AuthorIDs b)))]
  end.
Proof.
  unfold AddBook_statements, bind.
  pose proof (exec_tx tx (InsertBook (entity.Name b)) w) as H1. cbv zeta in H1.
  destruct (pgx.exec (Some tx) (InsertBook (entity.Name b)) w) as [[[id now]|e] w1];
    simpl in H1; destruct H1 as (C1 & D1 & K1 & H1).
  - destruct H1 as (t & t1 & Hv & Ha & -> & Ho1).
    unfold addBookAuthors, bind. cbn [entity.ID entity.AuthorIDs].
    pose proof (exec_tx tx (CopyAuthorBook (getRows id (entity.AuthorIDs b))) w1) as H2.
    cbv zeta in H2.
    destruct (pgx.exec (Some tx) (CopyAuthorBook (getRows id (entity.AuthorIDs b))) w1)
      as [[[id2 now2]|e] w2]; simpl in H2; destruct H2 as (C2 & D2 & K2 & H2).
    + destruct H2 as (t1' & t2 & Hv2 & Ha2 & -> & Ho2). simpl.
      split; [congruence|]. split; [congruence|].
      exists t, id. split; [exact Hv|]. split; [reflexivity|].
      rewrite Ho1, lookup_insert_eq in Hv2. injection Hv2 as <-.
      simpl in Ha. destruct (book t !! hd "" (ids w)); [discriminate|].
      injection Ha as <- <-. simpl in Ha2.
      destruct (forallb _ _); [|discriminate]. injection Ha2 as <- _.
      split.
      * rewrite Ho2, Ho1, insert_insert_eq. reflexivity.
      * rewrite C2, C1, <- app_assoc. reflexivity.
    + unfold mapErr, zap.log, modify, bind, ret.
      destruct (bool_decide (errors_As_PgError e = Some ErrForeignKeyViolation)); simpl;
        (split; [congruence|]); (split; [congruence|]); exact I.
  - unfold zap.log, modify, bind, ret. simpl. auto.
Qed.

Lemma RegisterAuthor_statements_spec (tx : Tx) (a : entity.Author) (w : world) :
  let r := RegisterAuthor_statements tx a w in
  durable r.2 = durable w /\
  clock r.2 = clock w /\
  match r.1.2 with
  | Some _ => True
  | None =>
      exists t id, open_tx w !! tx = Some t /\
        r.1.1 = entity.mkAuthor id (entity.Author_Name a) /\
        open_tx r.2 = <[tx := with_author t r.1.1]> (open_tx w) /\
        calls r.2 = calls w ++ [EvExec (Some tx) (InsertAuthor (entity.Author_Name a))]
  end.
Proof.
  unfold RegisterAuthor_statements, bind.
  pose proof (exec_tx tx (InsertAuthor (entity.Author_Name a)) w) as H1. cbv zeta in H1.
  destruct (pgx.exec (Some tx) (InsertAuthor (entity.Author_Name a)) w)
    as [[[id now]|e] w1]; simpl in H1; destruct H1 as (C1 & D1 & K1 & H1).
  - destruct H1 as (t & t1 & Hv & Ha & -> & Ho1). simpl.
    split; [exact D1|]. split; [exact K1|].
    exists t, id. split; [exact Hv|]. split; [reflexivity|].
    simpl in Ha. destruct (author t !! hd "" (ids w)); [discriminate|].
    injection Ha as <- <-. split; [exact Ho1 | exact C1].
  - unfold zap.log, modify, bind, ret. simpl. auto.
Qed.

(** Enqueueing on a context that carries a transaction. *)
Lemma outbox_SendMessage_spec (ctx : Context) (tx : Tx) key kind message (w : world) :
  Value_txInjector ctx = Some tx ->
  let r := outbox_SendMessage ctx key kind message w in
  durable r.2 = durable w /\
  clock r.2 = clock w /\
  match r.1 with
  | Some _ => True
  | None =>
      exists t, open_tx w !! tx = Some t /\
        open_tx r.2 =
          <[tx := with_event t key (mkOutboxRow kind message (clock w) None None)]>
            (open_tx w) /\
        calls r.2 = calls w ++ [EvExec (Some tx) (InsertOutbox key kind message)]
  end.
Proof.
  intros Hc. unfold outbox_SendMessage. rewrite Hc.
  destruct (bool_decide (kind = OutboxKindBook \/ kind = OutboxKindAuthor));
    [|simpl; auto].
  unfold bind.
  pose proof (exec_tx tx (InsertOutbox key kind message) w) as H1. cbv zeta in H1.
  destruct (pgx.exec (Some tx) (InsertOutbox key kind message) w) as [[[id now]|e] w1];
    simpl in H1; destruct H1 as (C1 & D1 & K1 & H1); simpl; [|auto].
  destruct H1 as (t & t1 & Hv & Ha & -> & Ho1).
  split; [exact D1|]. split; [exact K1|].
  exists t. split; [exact Hv|].
  simpl in Ha. destruct (outbox t !! key); [discriminate|].
  injection Ha as <- _. split; [exact Ho1 | exact C1].
Qed.

End Statements.

(** ** The write use cases *)

Section WriteUseCases.

Import repository.

Context {J : Json}.
Variable getMessages : Context -> Z -> Z -> M (result (list OutboxData)).
Variable markAsProcessed : Context -> list string -> M (option error).

Local Abbreviation l := (app.useCases (NewOutbox getMessages markAsProcessed)).

Lemma Begin_undisturbed (w : world) :
  hd None (faults w) = None ->
  let tx := fresh (dom (open_tx w)) in
  let r := pgx.Begin w in
  r.1 = Ok tx /\
  open_tx r.2 = <[tx := durable w]> (open_tx w) /\
  faults r.2 = tl (faults w) /\
  ids r.2 = ids w /\ clock r.2 = clock w /\ durable r.2 = durable w.
Proof.
  intros H. unfold pgx.Begin, pgx.pop_fault, pgx.record, bind, gets, modify, ret.
  simpl. rewrite H. simpl. auto 10.
Qed.

Lemma exec_tx_undisturbed (tx : Tx) (s : statement) (w : world) (t : tables) :
  open_tx w !! tx = Some t ->
  hd None (faults w) = None ->
  let r := pgx.exec (Some tx) s w in
  faults r.2 = tl (faults w) /\
  ids r.2 = (if pgx.generates_id s then tl (ids w) else ids w) /\
  r.1 = match pgx.apply s (if pgx.generates_id s then hd "" (ids w) else "") (clock w) t with
        | Ok (_, id) => Ok (id, clock w)
        | Err e => Err e
        end.
Proof.
  intros Hv Hf.
  unfold pgx.exec, pgx.record, pgx.view, pgx.pop_fault, pgx.next_id, pgx.store,
    modify, gets, bind, ret. simpl. rewrite Hv. simpl. rewrite Hf. simpl.
  destruct (pgx.generates_id s); simpl.
  - destruct (pgx.apply s (hd "" (ids w)) (clock w) t) as [[t' id]|e]; simpl; auto.
  - destruct (pgx.apply s "" (clock w) t) as [[t' id]|e]; simpl; auto.
Qed.

Lemma missing_author_fails_the_check (t : tables) (bookID a : string) (authorIDs : list string) :
  a ∈ authorIDs -> author t !! a = None ->
  forallb (fun r => bool_decide (is_Some (author t !! r.1))) (getRows bookID authorIDs) = false.
Proof.
  intros Hin Hn. apply not_true_is_false. intros H.
  rewrite forallb_forall in H. specialize (H (a, bookID)).
  rewrite bool_decide_eq_true in H. simpl in H. rewrite Hn in H.
  destruct H as [x Hx]; [|discriminate].
  unfold getRows. apply (in_map (fun x => (x, bookID))). apply list_elem_of_In. exact Hin.
Qed.

(** The statements of AddBook on a transaction whose view lacks one of the
    book's authors: the CopyFrom is rejected and mapErr answers
    ErrAuthorNotFound. *)
Lemma AddBook_statements_missing_author (tx : Tx) (b : entity.Book) (w : world) t a :
  open_tx w !! tx = Some t ->
  undisturbed 2 (faults w) ->
  book t !! hd "" (ids w) = None ->
  a ∈ entity.AuthorIDs b -> author t !! a = None ->
  (AddBook_statements tx b w).1 = (entity.Book_zero, Some ErrAuthorNotFound).
Proof.
  intros Hv (F1 & F2 & _) Hb Ha Hn. unfold AddBook_statements, bind.
  pose proof (exec_tx tx (InsertBook (entity.Name b)) w) as H1.
  pose proof (exec_tx_undisturbed tx (InsertBook (entity.Name b)) w t Hv F1) as G1.
  cbv zeta in H1, G1.
  destruct (pgx.exec (Some tx) (InsertBook (entity.Name b)) w) as [r1 w1].
  cbn [fst snd] in H1, G1. destruct G1 as (Gf & _ & ->).
  destruct H1 as (_ & _ & K1 & H1). cbn [pgx.generates_id pgx.apply] in *.
  rewrite Hb in *. destruct H1 as (t0 & t1 & Hv0 & Ha1 & _ & Ho1).
  rewrite Hv in Hv0. injection Hv0 as <-. rewrite Hb in Ha1. injection Ha1 as <-.
  unfold addBookAuthors, bind. cbn [entity.ID entity.AuthorIDs].
  set (rows := getRows (hd "" (ids w)) (entity.AuthorIDs b)).
  set (t1 := mkTables _ _ _ _) in *.
  assert (Hv1 : open_tx w1 !! tx = Some t1) by (rewrite Ho1; apply lookup_insert_eq).
  assert (F2' : hd None (faults w1) = None) by (rewrite Gf; exact F2).
  pose proof (exec_tx_undisturbed tx (CopyAuthorBook rows) w1 t1 Hv1 F2') as G2.
  cbv zeta in G2.
  destruct (pgx.exec (Some tx) (CopyAuthorBook rows) w1) as [r2 w2].
  cbn [fst snd] in G2. destruct G2 as (_ & _ & ->).
  cbn [pgx.generates_id pgx.apply]. subst t1 rows. cbn [author].
  rewrite (missing_author_fails_the_check t _ a) by assumption.
  reflexivity.
Qed.

Lemma injectTx_frame (ctx : Context) (w : world) :
  let r := injectTx ctx w in
  durable r.2 = durable w /\
  clock r.2 = clock w /\
  match r.1 with
  | Ok (c, tx) =>
      Value_txInjector c = Some tx /\
      calls r.2 = calls w ++
        match Value_txInjector ctx with Some _ => [] | None => [EvBegin tx] end
  | Err _ => calls r.2 = calls w
  end.
Proof.
  unfold injectTx, extractTx. destruct (Value_txInjector ctx) as [tx|] eqn:Hc; simpl.
  - rewrite app_nil_r. auto.
  - unfold pgx.Begin, pgx.pop_fault, pgx.record, bind, gets, modify, ret. simpl.
    destruct (hd None (faults w)); simpl; auto.
Qed.

(** The three ways a call of WithTx can go. *)
Lemma WithTx_cases {V} ctx (f : Context -> V -> M (V * option error)) v w :
  let r := transactorImpl_WithTx ctx f v w in
  match injectTx ctx w with
  | (Err e, w1) =>
      r.1 = (v, Some (Errorf "can not inject transaction, error: " e)) /\
      durable r.2 = durable w /\ calls r.2 = calls w
  | (Ok (c, tx), w1) =>
      match f c v w1 with
      | ((v', Some e), w2) =>
          r.1 = (v', Some (Errorf "function execution error: " e)) /\
          calls r.2 = calls w2 ++ [EvRollback tx] /\
          durable r.2 = durable w2
      | ((v', None), w2) =>
          r = ((v', (pgx.Commit tx w2).1), (pgx.Commit tx w2).2)
      end
  end.
Proof.
  cbv zeta. pose proof (injectTx_frame ctx w) as Hfr. cbv zeta in Hfr.
  destruct (injectTx ctx w) as [[[c tx]|e] w1] eqn:Hi.
  - destruct (f c v w1) as [[v' [e|]] w2] eqn:Hf.
    + destruct (WithTx_body_error ctx f v w _ _ _ _ _ _ Hi Hf) as (H1 & H2 & H3 & _).
      auto.
    + apply (WithTx_body_ok ctx f v w _ _ _ _ _ Hi Hf).
  - unfold transactorImpl_WithTx, bind. rewrite Hi.
    unfold zap.log, modify, bind, ret. simpl in *.
    destruct Hfr as (D & _ & C). auto.
Qed.

Lemma AddBook_func_spec (request : pb.AddBookRequest) ctx tx v w :
  Value_txInjector ctx = Some tx ->
  let r := library.AddBook_func l request ctx v w in
  durable r.2 = durable w /\
  clock r.2 = clock w /\
  match r.1.2 with
  | Some _ => True
  | None =>
      exists t payload, open_tx w !! tx = Some t /\
        entity.Name r.1.1 = pb.AddBook_Name request /\
        entity.AuthorIDs r.1.1 = pb.AddBook_AuthorIds request /\
        entity.CreatedAt r.1.1 = clock w /\
        entity.UpdatedAt r.1.1 = clock w /\
        json_Marshal_Book r.1.1 = Ok payload /\
        open_tx r.2 =
          <[tx := with_event (with_book t r.1.1) ("book_" +:+ entity.ID r.1.1)
                    (mkOutboxRow OutboxKindBook payload (clock w) None None)]>
            (open_tx w) /\
        calls r.2 = calls w ++
          [EvExec (Some tx) (InsertBook (pb.AddBook_Name request));
           EvExec (Some tx)
             (CopyAuthorBook (getRows (entity.ID r.1.1) (pb.AddBook_AuthorIds request)));
           EvExec (Some tx)
             (InsertOutbox ("book_" +:+ entity.ID r.1.1) OutboxKindBook payload)]
  end.
Proof.
  intros Hc. unfold library.AddBook_func, bind.
  unfold zap.Info, zap.log, modify. cbn [fst snd].
  set (w0 := set_logs _ w).
  assert (E0 : durable w0 = durable w /\ clock w0 = clock w /\
               open_tx w0 = open_tx w /\ calls w0 = calls w) by (subst w0; simpl; auto).
  destruct E0 as (D0 & K0 & O0 & C0).
  cbn [app.useCases library.booksRepository library.outboxRepository
                AddBook SendMessage postgresImpl_Books NewOutbox].
  unfold postgresImpl_AddBook, extractTx. rewrite Hc.
  set (b0 := entity.mkBook "" _ _ 0 0).
  pose proof (AddBook_statements_spec tx b0 w0) as H1. cbv zeta in H1.
  destruct (AddBook_statements tx b0 w0) as [[b [e|]] w1]; cbn [fst snd] in H1 |- *;
    destruct H1 as (D1 & K1 & H1).
  { cbn [fst snd ret]. split; [congruence|]. split; [congruence|]. exact I. }
  destruct H1 as (t & id & Hv & -> & Ho1 & C1).
  subst b0. cbn [entity.Name entity.AuthorIDs] in *.
  set (b := entity.mkBook id _ _ _ _) in *.
  destruct (json_Marshal_Book b) as [payload|e] eqn:Hm.
  2: { cbn [fst snd ret]. split; [congruence|]. split; [congruence|]. exact I. }
  set (key := (OutboxKind_String OutboxKindBook ++ "_" ++ entity.ID b)%string).
  pose proof (outbox_SendMessage_spec ctx tx key OutboxKindBook payload w1 Hc) as H2.
  cbv zeta in H2.
  destruct (outbox_SendMessage ctx key OutboxKindBook payload w1) as [[e|] w2];
    cbn [fst snd] in H2 |- *; destruct H2 as (D2 & K2 & H2).
  { cbn [fst snd ret]. split; [congruence|]. split; [congruence|]. exact I. }
  cbn [fst snd ret]. split; [congruence|]. split; [congruence|].
  destruct H2 as (t1 & Hv1 & Ho2 & C2).
  rewrite Ho1, lookup_insert_eq in Hv1. injection Hv1 as <-.
  exists t, payload. rewrite O0 in Hv. split; [exact Hv|].
  split; [reflexivity|]. split; [reflexivity|].
  split; [subst b; cbn [entity.CreatedAt]; congruence|].
  split; [subst b; cbn [entity.UpdatedAt]; congruence|].
  split; [exact Hm|]. split.
  - rewrite Ho2, Ho1, insert_insert_eq, O0, K1, K0. reflexivity.
  - rewrite C2, C1, C0, <- app_assoc. reflexivity.
Qed.

Lemma RegisterAuthor_func_spec (request : pb.RegisterAuthorRequest) ctx tx v w :
  Value_txInjector ctx = Some tx ->
  let r := library.RegisterAuthor_func l request ctx v w in
  durable r.2 = durable w /\
  clock r.2 = clock w /\
  match r.1.2 with
  | Some _ => True
  | None =>
      exists t payload, open_tx w !! tx = Some t /\
        entity.Author_Name r.1.1 = pb.RegisterAuthor_Name request /\
        json_Marshal_Author r.1.1 = Ok payload /\
        open_tx r.2 =
          <[tx := with_event (with_author t r.1.1) ("author_" +:+ entity.Author_ID r.1.1)
                    (mkOutboxRow OutboxKindAuthor payload (clock w) None None)]>
            (open_tx w) /\
        calls r.2 = calls w ++
          [EvExec (Some tx) (InsertAuthor (pb.RegisterAuthor_Name request));
           EvExec (Some tx)
             (InsertOutbox ("author_" +:+ entity.Author_ID r.1.1) OutboxKindAuthor payload)]
  end.
Proof.
  intros Hc. unfold library.RegisterAuthor_func, bind.
  unfold zap.Info, zap.log, modify. cbn [fst snd].
  set (w0 := set_logs _ w).
  assert (E0 : durable w0 = durable w /\ clock w0 = clock w /\
               open_tx w0 = open_tx w /\ calls w0 = calls w) by (subst w0; simpl; auto).
  destruct E0 as (D0 & K0 & O0 & C0).
  cbn [app.useCases library.authorRepository library.outboxRepository
                RegisterAuthor SendMessage postgresImpl_Authors NewOutbox].
  unfold postgresImpl_RegisterAuthor, extractTx. rewrite Hc.
  set (a0 := entity.mkAuthor "" _).
  pose proof (RegisterAuthor_statements_spec tx a0 w0) as H1. cbv zeta in H1.
  destruct (RegisterAuthor_statements tx a0 w0) as [[a [e|]] w1]; cbn [fst snd] in H1 |- *;
    destruct H1 as (D1 & K1 & H1).
  { cbn [fst snd ret]. split; [congruence|]. split; [congruence|]. exact I. }
  destruct H1 as (t & id & Hv & -> & Ho1 & C1).
  subst a0. cbn [entity.Author_Name] in *.
  set (a := entity.mkAuthor id _) in *.
  destruct (json_Marshal_Author a) as [payload|e] eqn:Hm.
  2: { cbn [fst snd ret]. split; [congruence|]. split; [congruence|]. exact I. }
  set (key := (OutboxKind_String OutboxKindAuthor ++ "_" ++ entity.Author_ID a)%string).
  pose proof (outbox_SendMessage_spec ctx tx key OutboxKindAuthor payload w1 Hc) as H2.
  cbv zeta in H2.
  destruct (outbox_SendMessage ctx key OutboxKindAuthor payload w1) as [[e|] w2];
    cbn [fst snd] in H2 |- *; destruct H2 as (D2 & K2 & H2).
  { cbn [fst snd ret]. split; [congruence|]. split; [congruence|]. exact I. }
  cbn [fst snd ret]. split; [congruence|]. split; [congruence|].
  destruct H2 as (t1 & Hv1 & Ho2 & C2).
  rewrite Ho1, lookup_insert_eq in Hv1. injection Hv1 as <-.
  exists t, payload. rewrite O0 in Hv. split; [exact Hv|].
  split; [reflexivity|]. split; [exact Hm|]. split.
  - rewrite Ho2, Ho1, insert_insert_eq, O0, K1, K0. reflexivity.
  - rewrite C2, C1, C0, <- app_assoc. reflexivity.
Qed.

(** How a call of the AddBook use case goes, after WithTx_cases. *)
Lemma AddBook_run ctx (request : pb.AddBookRequest) w :
  let r := library.AddBook l ctx request w in
  match injectTx ctx w with
  | (Err e, w1) =>
      r.1 = Err (library.convertErr (Errorf "can not inject transaction, error: " e)) /\
      durable r.2 = durable w /\ calls r.2 = calls w
  | (Ok (c, tx), w1) =>
      match library.AddBook_func l request c entity.Book_zero w1 with
      | ((b, Some e), w2) =>
          r.1 = Err (library.convertErr (Errorf "function execution error: " e)) /\
          calls r.2 = calls w2 ++ [EvRollback tx] /\
          durable r.2 = durable w2
      | ((b, None), w2) =>
          r.2 = (pgx.Commit tx w2).2 /\
          r.1 = match (pgx.Commit tx w2).1 with
                | Some e => Err (library.convertErr e)
                | None => Ok {| pb.AddBook_Book := library.toProto b |}
                end
      end
  end.
Proof.
  cbv zeta. unfold library.AddBook, bind.
  change (WithTx (library.transactor l) entity.Book) with (@transactorImpl_WithTx entity.Book).
  pose proof (WithTx_cases ctx (library.AddBook_func l request) entity.Book_zero w) as H.
  cbv zeta in H.
  destruct (injectTx ctx w) as [[[c tx]|e] w1].
  - destruct (library.AddBook_func l request c entity.Book_zero w1) as [[b [e|]] w2].
    + destruct H as (H1 & H2 & H3).
      destruct (transactorImpl_WithTx _ _ _ w) as [[b' err] w3]. simpl in *.
      injection H1 as -> ->. auto.
    + rewrite H. destruct (pgx.Commit tx w2) as [[e|] w3]; auto.
  - destruct H as (H1 & H2 & H3).
    destruct (transactorImpl_WithTx _ _ _ w) as [[b' err] w3]. simpl in *.
    injection H1 as -> ->. auto.
Qed.

Lemma RegisterAuthor_run ctx (request : pb.RegisterAuthorRequest) w :
  let r := library.RegisterAuthor l ctx request w in
  match injectTx ctx w with
  | (Err e, w1) =>
      r.1 = Err (library.convertErr (Errorf "can not inject transaction, error: " e)) /\
      durable r.2 = durable w /\ calls r.2 = calls w
  | (Ok (c, tx), w1) =>
      match library.RegisterAuthor_func l request c entity.Author_zero w1 with
      | ((a, Some e), w2) =>
          r.1 = Err (library.convertErr (Errorf "function execution error: " e)) /\
          calls r.2 = calls w2 ++ [EvRollback tx] /\
          durable r.2 = durable w2
      | ((a, None), w2) =>
          r.2 = (pgx.Commit tx w2).2 /\
          r.1 = match (pgx.Commit tx w2).1 with
                | Some e => Err (library.convertErr e)
                | None => Ok {| pb.RegisterAuthor_Id := entity.Author_ID a |}
                end
      end
  end.
Proof.
  cbv zeta. unfold library.RegisterAuthor, bind.
  change (WithTx (library.transactor l) entity.Author)
    with (@transactorImpl_WithTx entity.Author).
  pose proof (WithTx_cases ctx (library.RegisterAuthor_func l request) entity.Author_zero w)
    as H.
  cbv zeta in H.
  destruct (injectTx ctx w) as [[[c tx]|e] w1].
  - destruct (library.RegisterAuthor_func l request c entity.Author_zero w1)
      as [[b [e|]] w2].
    + destruct H as (H1 & H2 & H3).
      destruct (transactorImpl_WithTx _ _ _ w) as [[b' err] w3]. simpl in *.
      injection H1 as -> ->. auto.
    + rewrite H. destruct (pgx.Commit tx w2) as [[e|] w3]; auto.
  - destruct H as (H1 & H2 & H3).
    destruct (transactorImpl_WithTx _ _ _ w) as [[b' err] w3]. simpl in *.
    injection H1 as -> ->. auto.
Qed.

(** C5. Whatever the repositories are, once the repository write and the
    serialization have succeeded the use case calls SendMessage with the
    context it gave the repository, the key made of the kind's String(), an
    underscore and the id of the written entity, the kind, and the JSON of
    the written entity.  With the postgres repository and the outbox store,
    a successful AddBook sent its statements on one transaction: the
    insert of the book, the copy of its author links and the insert of the
    outbox row, followed by the Commit of that transaction; the outbox row has
    the key "book_" followed by the id of the returned book, the kind book and
    as payload the JSON of the book the repository returned; after the call
    the book row and the outbox row are committed.  The same holds of
    RegisterAuthor with the key "author_" followed by the author's id and the
    kind author.  In both the key is the kind's String(), an underscore and
    the id. *)
Theorem outbox_message_follows_the_entity :
  (forall (l0 : library.libraryImpl) request ctx v w book w1 payload,
     AddBook (library.booksRepository l0) ctx
       (entity.mkBook "" (pb.AddBook_Name request) (pb.AddBook_AuthorIds request) 0 0)
       (zap.Info "Add book request is being made to the database." w).2
       = ((book, None), w1) ->
     json_Marshal_Book book = Ok payload ->
     library.AddBook_func l0 request ctx v w =
       let sent := SendMessage (library.outboxRepository l0) ctx
                     (OutboxKind_String OutboxKindBook +:+ "_" +:+ entity.ID book)
                     OutboxKindBook payload w1 in
       ((book, sent.1), sent.2)) /\
  (forall (l0 : library.libraryImpl) request ctx v w author w1 payload,
     RegisterAuthor (library.authorRepository l0) ctx
       (entity.mkAuthor "" (pb.RegisterAuthor_Name request))
       (zap.Info "Register author info request is being made to the database." w).2
       = ((author, None), w1) ->
     json_Marshal_Author author = Ok payload ->
     library.RegisterAuthor_func l0 request ctx v w =
       let sent := SendMessage (library.outboxRepository l0) ctx
                     (OutboxKind_String OutboxKindAuthor +:+ "_" +:+ entity.Author_ID author)
                     OutboxKindAuthor payload w1 in
       ((author, sent.1), sent.2)) /\
  (forall ctx request w resp w',
     library.AddBook l ctx request w = (Ok resp, w') ->
     let b := pb.AddBook_Book resp in
     let key := OutboxKind_String OutboxKindBook +:+ "_" +:+ pb.Id b in
     exists tx payload,
       key = "book_" +:+ pb.Id b /\
       json_Marshal_Book
         (entity.mkBook (pb.Id b) (pb.Name b) (pb.AuthorIds b) (pb.CreatedAt b)
            (pb.UpdatedAt b)) = Ok payload /\
       calls w' = calls w ++
         match Value_txInjector ctx with Some _ => [] | None => [EvBegin tx] end ++
         [EvExec (Some tx) (InsertBook (pb.AddBook_Name request));
          EvExec (Some tx) (CopyAuthorBook (getRows (pb.Id b) (pb.AddBook_AuthorIds request)));
          EvExec (Some tx) (InsertOutbox key OutboxKindBook payload);
          EvCommit tx] /\
       book (durable w') !! pb.Id b = Some (pb.Name b, pb.CreatedAt b, pb.UpdatedAt b) /\
       outbox (durable w') !! key
         = Some (mkOutboxRow OutboxKindBook payload (clock w) None None)) /\
  (forall ctx request w resp w',
     library.RegisterAuthor l ctx request w = (Ok resp, w') ->
     let id := pb.RegisterAuthor_Id resp in
     let key := OutboxKind_String OutboxKindAuthor +:+ "_" +:+ id in
     exists tx payload,
       key = "author_" +:+ id /\
       json_Marshal_Author (entity.mkAuthor id (pb.RegisterAuthor_Name request))
         = Ok payload /\
       calls w' = calls w ++
         match Value_txInjector ctx with Some _ => [] | None => [EvBegin tx] end ++
         [EvExec (Some tx) (InsertAuthor (pb.RegisterAuthor_Name request));
          EvExec (Some tx) (InsertOutbox key OutboxKindAuthor payload);
          EvCommit tx] /\
       author (durable w') !! id = Some (pb.RegisterAuthor_Name request) /\
       outbox (durable w') !! key
         = Some (mkOutboxRow OutboxKindAuthor payload (clock w) None None)).
Proof.
  split; [|split; [|split]].
  - intros l0 request ctx v w book w1 payload Hw Hm.
    unfold library.AddBook_func, bind. destruct (zap.Info _ w) as [u w0].
    cbn [snd] in Hw. rewrite Hw, Hm.
    destruct (SendMessage _ ctx _ OutboxKindBook payload w1) as [[e|] w2]; reflexivity.
  - intros l0 request ctx v w author w1 payload Hw Hm.
    unfold library.RegisterAuthor_func, bind. destruct (zap.Info _ w) as [u w0].
    cbn [snd] in Hw. rewrite Hw, Hm.
    destruct (SendMessage _ ctx _ OutboxKindAuthor payload w1) as [[e|] w2]; reflexivity.
  - intros ctx request w resp w' H.
    pose proof (AddBook_run ctx request w) as R. cbv zeta in R. rewrite H in R.
    cbn [fst snd] in R.
    pose proof (injectTx_frame ctx w) as F. cbv zeta in F.
    destruct (injectTx ctx w) as [[[c tx]|e] w1]; cbn [fst snd] in F;
      [|destruct R as (R1 & _); discriminate].
    destruct F as (D1 & K1 & Hc & C1).
    pose proof (AddBook_func_spec request c tx entity.Book_zero w1 Hc) as S.
    cbv zeta in S.
    destruct (library.AddBook_func l request c entity.Book_zero w1) as [[b [e|]] w2];
      cbn [fst snd] in S, R; [destruct R as (R1 & _); discriminate|].
    destruct R as (-> & R1).
    destruct S as (D2 & K2 & t & payload & Hv & Hn & Ha & Hcr & Hup & Hm & Ho & Cs).
    destruct ((pgx.Commit tx w2).1) as [e|] eqn:Hcm; [discriminate|].
    injection R1 as ->. cbv zeta. cbn [pb.AddBook_Book].
    assert (Hd : durable (pgx.Commit tx w2).2 = with_event (with_book t b)
                   ("book_" +:+ entity.ID b)
                   (mkOutboxRow OutboxKindBook payload (clock w1) None None)).
    { apply Commit_published; [|exact Hcm]. rewrite Ho. apply lookup_insert_eq. }
    exists tx, payload. rewrite Hd, Commit_calls, Cs, C1.
    destruct b as [bid bname bauthors bcreated bupdated].
    cbn [library.toProto pb.Id pb.Name pb.AuthorIds pb.CreatedAt pb.UpdatedAt
         entity.ID entity.Name entity.AuthorIDs entity.CreatedAt entity.UpdatedAt] in *.
    split; [reflexivity|].
    split; [exact Hm|]. split; [rewrite <- !app_assoc; reflexivity|].
    split; [apply lookup_insert_eq|]. rewrite K1. apply lookup_insert_eq.
  - intros ctx request w resp w' H.
    pose proof (RegisterAuthor_run ctx request w) as R. cbv zeta in R. rewrite H in R.
    cbn [fst snd] in R.
    pose proof (injectTx_frame ctx w) as F. cbv zeta in F.
    destruct (injectTx ctx w) as [[[c tx]|e] w1]; cbn [fst snd] in F;
      [|destruct R as (R1 & _); discriminate].
    destruct F as (D1 & K1 & Hc & C1).
    pose proof (RegisterAuthor_func_spec request c tx entity.Author_zero w1 Hc) as S.
    cbv zeta in S.
    destruct (library.RegisterAuthor_func l request c entity.Author_zero w1)
      as [[a [e|]] w2]; cbn [fst snd] in S, R; [destruct R as (R1 & _); discriminate|].
    destruct R as (-> & R1).
    destruct S as (D2 & K2 & t & payload & Hv & Hn & Hm & Ho & Cs).
    destruct ((pgx.Commit tx w2).1) as [e|] eqn:Hcm; [discriminate|].
    injection R1 as ->. cbv zeta. cbn [pb.RegisterAuthor_Id].
    assert (Hd : durable (pgx.Commit tx w2).2 = with_event (with_author t a)
                   ("author_" +:+ entity.Author_ID a)
                   (mkOutboxRow OutboxKindAuthor payload (clock w1) None None)).
    { apply Commit_published; [|exact Hcm]. rewrite Ho. apply lookup_insert_eq. }
    exists tx, payload. rewrite Hd, Commit_calls, Cs, C1.
    destruct a as [aid aname]. cbn [entity.Author_ID entity.Author_Name] in *.
    subst aname. split; [reflexivity|].
    split; [exact Hm|]. split; [rewrite <- !app_assoc; reflexivity|].
    split; [apply lookup_insert_eq|]. rewrite K1. apply lookup_insert_eq.
Qed.

(** C7. mapErr turns an error that carries a PgError with code 23503 into
    ErrAuthorNotFound, the foreign-key rejection of the author links is such
    an error, and convertErr gives any error that wraps ErrAuthorNotFound the
    code NotFound; so a top-level AddBook whose request names an author that
    is not in the author table, and whose three first driver calls are not
    failed by something else, returns the status NotFound. *)
Theorem missing_author_is_NotFound :
  (forall e w, errors_As_PgError e = Some "23503" ->
     (mapErr (Some e) w).1 = Some ErrAuthorNotFound) /\
  errors_As_PgError pgx.foreign_key_violation = Some "23503" /\
  (forall e, errors_Is e ErrAuthorNotFound = true ->
     library.convertErr e = StatusError NotFound (Error e)) /\
  (forall request w a,
     undisturbed 3 (faults w) ->
     book (durable w) !! hd "" (ids w) = None ->
     a ∈ pb.AddBook_AuthorIds request ->
     author (durable w) !! a = None ->
     (library.AddBook l context_Background request w).1
       = Err (StatusError NotFound "function execution error: author not found")).
Proof.
  split; [|split; [reflexivity|split]].
  - intros e w He. unfold mapErr. rewrite bool_decide_eq_true_2 by exact He. reflexivity.
  - intros e He. unfold library.convertErr. rewrite He. reflexivity.
  - intros request w a (F1 & F2) Hb Ha Hn.
    pose proof (AddBook_run context_Background request w) as R. cbv zeta in R.
    pose proof (Begin_undisturbed w F1) as B. cbv zeta in B.
    unfold injectTx, extractTx in R. cbn [Value_txInjector context_Background] in R.
    unfold bind in R. destruct (pgx.Begin w) as [rb w1]. cbn [fst snd] in B.
    destruct B as (-> & Ho & Hf & Hi & Hk & Hd). cbn [ret] in R.
    set (tx := fresh (dom (open_tx w))) in *.
    assert (Hs : (library.AddBook_func l request (context_WithValue context_Background tx)
                    entity.Book_zero w1).1 = (entity.Book_zero, Some ErrAuthorNotFound)).
    { unfold library.AddBook_func, bind. unfold zap.Info, zap.log, modify. cbn [fst snd].
      cbn [app.useCases library.booksRepository AddBook postgresImpl_Books].
      unfold postgresImpl_AddBook, extractTx. cbn [Value_txInjector context_WithValue].
      set (w0 := set_logs _ w1). set (b0 := entity.mkBook "" _ _ 0 0).
      assert (Hm : (AddBook_statements tx b0 w0).1
                     = (entity.Book_zero, Some ErrAuthorNotFound)).
      { apply (AddBook_statements_missing_author tx b0 w0 (durable w) a);
          [| | | exact Ha | exact Hn].
        - subst w0. simpl. rewrite Ho. apply lookup_insert_eq.
        - subst w0. simpl. rewrite Hf. exact F2.
        - subst w0. simpl. rewrite Hi. exact Hb. }
      destruct (AddBook_statements tx b0 w0) as [[b err] w2]. cbn [fst] in Hm.
      injection Hm as -> ->. reflexivity. }
    destruct (library.AddBook_func l request (context_WithValue context_Background tx)
                entity.Book_zero w1) as [[b err] w2].
    cbn [fst] in Hs. injection Hs as -> ->. destruct R as (R1 & _). rewrite R1.
    reflexivity.
Qed.

Lemma last_snoc_event (es : list event) (e : event) : last (es ++ [e]) = Some e.
Proof. apply last_snoc. Qed.

(** C2, as amended. A write use case that got its transaction: when the
    repository write, the JSON serialization or SendMessage fails, the use
    case returns an error, the transaction is rolled back and the committed
    tables are unchanged; when the three succeed the transaction's Commit is
    called, and if it succeeds the use case succeeds and the domain row and
    the outbox row with the key of the entity are committed, while if the
    Commit itself fails the use case returns that error and the committed
    tables are unchanged. *)
Theorem write_use_cases_are_atomic ctx w ctxWithTx tx w1 :
  injectTx ctx w = (Ok (ctxWithTx, tx), w1) ->
  (forall request,
     let r := library.AddBook l ctx request w in
     let write :=
       postgresImpl_AddBook ctxWithTx
         (entity.mkBook "" (pb.AddBook_Name request) (pb.AddBook_AuthorIds request) 0 0)
         (zap.Info "Add book request is being made to the database." w1).2 in
     match write.1.2 with
     | Some e => failed_and_rolled_back r e tx w
     | None =>
         match json_Marshal_Book write.1.1 with
         | Err e => failed_and_rolled_back r e tx w
         | Ok payload =>
             let key := "book_" +:+ entity.ID write.1.1 in
             let send := outbox_SendMessage ctxWithTx key OutboxKindBook payload write.2 in
             match send.1 with
             | Some e => failed_and_rolled_back r e tx w
             | None =>
                 last (calls r.2) = Some (EvCommit tx) /\
                 match (pgx.Commit tx send.2).1 with
                 | None =>
                     r.1 = Ok {| pb.AddBook_Book := library.toProto write.1.1 |} /\
                     book (durable r.2) !! entity.ID write.1.1
                       = Some (entity.Name write.1.1, entity.CreatedAt write.1.1,
                               entity.UpdatedAt write.1.1) /\
                     outbox (durable r.2) !! key
                       = Some (mkOutboxRow OutboxKindBook payload (clock w) None None)
                 | Some e =>
                     r.1 = Err (library.convertErr e) /\ durable r.2 = durable w
                 end
             end
         end
     end) /\
  (forall request,
     let r := library.RegisterAuthor l ctx request w in
     let write :=
       postgresImpl_RegisterAuthor ctxWithTx
         (entity.mkAuthor "" (pb.RegisterAuthor_Name request))
         (zap.Info "Register author info request is being made to the database." w1).2 in
     match write.1.2 with
     | Some e => failed_and_rolled_back r e tx w
     | None =>
         match json_Marshal_Author write.1.1 with
         | Err e => failed_and_rolled_back r e tx w
         | Ok payload =>
             let key := "author_" +:+ entity.Author_ID write.1.1 in
             let send := outbox_SendMessage ctxWithTx key OutboxKindAuthor payload write.2 in
             match send.1 with
             | Some e => failed_and_rolled_back r e tx w
             | None =>
                 last (calls r.2) = Some (EvCommit tx) /\
                 match (pgx.Commit tx send.2).1 with
                 | None =>
                     r.1 = Ok {| pb.RegisterAuthor_Id := entity.Author_ID write.1.1 |} /\
                     author (durable r.2) !! entity.Author_ID write.1.1
                       = Some (entity.Author_Name write.1.1) /\
                     outbox (durable r.2) !! key
                       = Some (mkOutboxRow OutboxKindAuthor payload (clock w) None None)
                 | Some e =>
                     r.1 = Err (library.convertErr e) /\ durable r.2 = durable w
                 end
             end
         end
     end).
Proof.
  intros Hi.
  pose proof (injectTx_frame ctx w) as F. cbv zeta in F. rewrite Hi in F.
  cbn [fst snd] in F. destruct F as (D1 & K1 & Hc & C1).
  split; intros request; cbv zeta.
  - pose proof (AddBook_run ctx request w) as R. cbv zeta in R. rewrite Hi in R.
    pose proof (AddBook_func_spec request ctxWithTx tx entity.Book_zero w1 Hc) as S.
    cbv zeta in S.
    unfold library.AddBook_func, bind in R, S.
    unfold zap.Info, zap.log, modify in *. cbn [fst snd] in *.
    cbn [app.useCases library.booksRepository library.outboxRepository
                  AddBook SendMessage postgresImpl_Books NewOutbox] in *.
    set (w0 := set_logs _ w1) in *. set (b0 := entity.mkBook "" _ _ 0 0) in *.
    destruct (postgresImpl_AddBook ctxWithTx b0 w0) as [[b [e|]] w2]; cbn [fst snd ret] in *.
    { destruct R as (R1 & R2 & R3). destruct S as (S1 & _).
      unfold failed_and_rolled_back. rewrite R1, R2, R3, last_snoc_event.
      split; [reflexivity|]. split; [reflexivity|]. congruence. }
    destruct (json_Marshal_Book b) as [payload|e] eqn:Hm; cbn [fst snd ret] in *.
    2: { destruct R as (R1 & R2 & R3). destruct S as (S1 & _).
      unfold failed_and_rolled_back. rewrite R1, R2, R3, last_snoc_event.
      split; [reflexivity|]. split; [reflexivity|]. congruence. }
    change (OutboxKind_String OutboxKindBook ++ "_" ++ entity.ID b)%string
      with ("book_" +:+ entity.ID b) in *.
    destruct (outbox_SendMessage ctxWithTx ("book_" +:+ entity.ID b) OutboxKindBook payload w2)
      as [[e|] w3]; cbn [fst snd ret] in *.
    { destruct R as (R1 & R2 & R3). destruct S as (S1 & _).
      unfold failed_and_rolled_back. rewrite R1, R2, R3, last_snoc_event.
      split; [reflexivity|]. split; [reflexivity|]. congruence. }
    destruct R as (R2 & R1).
    destruct S as (S1 & S2 & t & payload' & Hv & _ & _ & _ & _ & Hm' & Ho & _).
    rewrite Hm in Hm'. injection Hm' as <-.
    rewrite R2, R1, Commit_calls, last_snoc_event. split; [reflexivity|].
    destruct ((pgx.Commit tx w3).1) as [e|] eqn:Hcm.
    + split; [reflexivity|]. rewrite Commit_failed by congruence. congruence.
    + rewrite (Commit_published tx w3 _ (eq_trans (f_equal (fun o => o !! tx) Ho)
                 (lookup_insert_eq _ _ _)) Hcm).
      split; [reflexivity|]. split; [apply lookup_insert_eq|].
      rewrite K1. apply lookup_insert_eq.
  - pose proof (RegisterAuthor_run ctx request w) as R. cbv zeta in R. rewrite Hi in R.
    pose proof (RegisterAuthor_func_spec request ctxWithTx tx entity.Author_zero w1 Hc) as S.
    cbv zeta in S.
    unfold library.RegisterAuthor_func, bind in R, S.
    unfold zap.Info, zap.log, modify in *. cbn [fst snd] in *.
    cbn [app.useCases library.authorRepository library.outboxRepository
                  RegisterAuthor SendMessage postgresImpl_Authors NewOutbox] in *.
    set (w0 := set_logs _ w1) in *. set (a0 := entity.mkAuthor "" _) in *.
    destruct (postgresImpl_RegisterAuthor ctxWithTx a0 w0) as [[a [e|]] w2];
      cbn [fst snd ret] in *.
    { destruct R as (R1 & R2 & R3). destruct S as (S1 & _).
      unfold failed_and_rolled_back. rewrite R1, R2, R3, last_snoc_event.
      split; [reflexivity|]. split; [reflexivity|]. congruence. }
    destruct (json_Marshal_Author a) as [payload|e] eqn:Hm; cbn [fst snd ret] in *.
    2: { destruct R as (R1 & R2 & R3). destruct S as (S1 & _).
      unfold failed_and_rolled_back. rewrite R1, R2, R3, last_snoc_event.
      split; [reflexivity|]. split; [reflexivity|]. congruence. }
    change (OutboxKind_String OutboxKindAuthor ++ "_" ++ entity.Author_ID a)%string
      with ("author_" +:+ entity.Author_ID a) in *.
    destruct (outbox_SendMessage ctxWithTx ("author_" +:+ entity.Author_ID a)
                OutboxKindAuthor payload w2) as [[e|] w3]; cbn [fst snd ret] in *.
    { destruct R as (R1 & R2 & R3). destruct S as (S1 & _).
      unfold failed_and_rolled_back. rewrite R1, R2, R3, last_snoc_event.
      split; [reflexivity|]. split; [reflexivity|]. congruence. }
    destruct R as (R2 & R1).
    destruct S as (S1 & S2 & t & payload' & Hv & _ & Hm' & Ho & _).
    rewrite Hm in Hm'. injection Hm' as <-.
    rewrite R2, R1, Commit_calls, last_snoc_event. split; [reflexivity|].
    destruct ((pgx.Commit tx w3).1) as [e|] eqn:Hcm.
    + split; [reflexivity|]. rewrite Commit_failed by congruence. congruence.
    + rewrite (Commit_published tx w3 _ (eq_trans (f_equal (fun o => o !! tx) Ho)
                 (lookup_insert_eq _ _ _)) Hcm).
      split; [reflexivity|]. split; [apply lookup_insert_eq|].
      rewrite K1. apply lookup_insert_eq.
Qed.

End WriteUseCases.

Section WriteUseCaseExamples.

Import repository.

Local Abbreviation l := (app.useCases sample.no_lease).

Lemma write_use_cases_are_atomic_witness :
  let r := @library.AddBook sample.codec l context_Background sample.dune sample.one_id in
  last (calls r.2) = Some (EvCommit 0) /\
  r.1 = Ok {| pb.AddBook_Book := pb.mkBook "b1" "Dune" [] 0 0 |} /\
  book (durable r.2) !! "b1" = Some ("Dune", 0%Z, 0%Z) /\
  outbox (durable r.2) !! "book_b1"
    = Some (mkOutboxRow OutboxKindBook (sample.id_bytes "b1") 0 None None).
Proof.
  cbv zeta.
  pose proof (proj1 (@write_use_cases_are_atomic sample.codec
                  (fun _ _ _ => ret (Ok [])) (fun _ _ => ret None)
                  context_Background sample.one_id
                  (context_WithValue context_Background 0) 0
                  (injectTx context_Background sample.one_id).2 eq_refl) sample.dune) as H.
  cbv zeta in H. vm_compute in H. vm_compute. exact H.
Defined.

(** C2, as stated, fails: the repository write, the serialization and
    SendMessage all succeed, the Commit fails, and neither row exists. *)
Lemma steps_succeed_commit_fails_counterexample :
  let w := sample.commit_fails in
  let ctxWithTx := context_WithValue context_Background 0 in
  let write :=
    postgresImpl_AddBook ctxWithTx (entity.mkBook "" "Dune" [] 0 0)
      (zap.Info "Add book request is being made to the database."
         (injectTx context_Background w).2).2 in
  let send :=
    outbox_SendMessage ctxWithTx "book_b1" OutboxKindBook (sample.id_bytes "b1") write.2 in
  let r := @library.AddBook sample.codec l context_Background sample.dune w in
  write.1.2 = None /\
  entity.ID write.1.1 = "b1" /\
  @json_Marshal_Book sample.codec write.1.1 = Ok (sample.id_bytes "b1") /\
  send.1 = None /\
  r.1 = Err (StatusError Internal "commit failed") /\
  book (durable r.2) !! "b1" = None /\
  outbox (durable r.2) !! "book_b1" = None.
Proof. vm_compute. repeat split. Qed.

Lemma outbox_message_follows_the_entity_witness :
  let r := @library.AddBook sample.codec l context_Background sample.dune sample.one_id in
  exists tx payload,
    OutboxKind_String OutboxKindBook +:+ "_" +:+ "b1" = "book_b1" /\
    @json_Marshal_Book sample.codec (entity.mkBook "b1" "Dune" [] 0 0) = Ok payload /\
    calls r.2 = calls sample.one_id ++ [EvBegin tx] ++
      [EvExec (Some tx) (InsertBook "Dune");
       EvExec (Some tx) (CopyAuthorBook (getRows "b1" []));
       EvExec (Some tx) (InsertOutbox "book_b1" OutboxKindBook payload);
       EvCommit tx] /\
    book (durable r.2) !! "b1" = Some ("Dune", 0%Z, 0%Z) /\
    outbox (durable r.2) !! "book_b1"
      = Some (mkOutboxRow OutboxKindBook payload (clock sample.one_id) None None).
Proof.
  cbv zeta.
  pose proof (proj1 (proj2 (proj2 (@outbox_message_follows_the_entity sample.codec
                  (fun _ _ _ => ret (Ok [])) (fun _ _ => ret None))))
           context_Background sample.dune sample.one_id
           {| pb.AddBook_Book := pb.mkBook "b1" "Dune" [] 0 0 |}
           (@library.AddBook sample.codec l context_Background sample.dune sample.one_id).2
           ltac:(vm_compute; reflexivity)) as H.
  cbv zeta in H. vm_compute in H. vm_compute. exact H.
Defined.

Lemma missing_author_is_NotFound_witness :
  (@library.AddBook sample.codec l context_Background sample.ghost_written sample.one_id).1
    = Err (StatusError NotFound "function execution error: author not found").
Proof.
  apply (proj2 (proj2 (proj2 (@missing_author_is_NotFound sample.codec
                  (fun _ _ _ => ret (Ok [])) (fun _ _ => ret None))))
           sample.ghost_written sample.one_id "ghost").
  - vm_compute. auto.
  - vm_compute. reflexivity.
  - apply list_elem_of_here.
  - vm_compute. reflexivity.
Defined.

End WriteUseCaseExamples.

(** * Further properties *)

(** ** Transactor, errors and handlers *)

Section MoreTransactor.

Import repository.

(** injectTx and extractTx round trip: the context injectTx returns carries
    the transaction it returns, and injectTx on that context gives the same
    pair again without touching the world (no second Begin). *)
Theorem injectTx_is_idempotent ctx w ctxWithTx tx w1 :
  injectTx ctx w = (Ok (ctxWithTx, tx), w1) ->
  extractTx ctxWithTx = Ok tx /\
  forall w2, injectTx ctxWithTx w2 = (Ok (ctxWithTx, tx), w2).
Proof.
  intros H. apply injectTx_tx in H. unfold injectTx, extractTx. rewrite H.
  split; [reflexivity|]. intros w2. reflexivity.
Qed.

Lemma injectTx_is_idempotent_witness :
  extractTx (context_WithValue context_Background 0) = Ok 0 /\
  forall w2, injectTx (context_WithValue context_Background 0) w2
             = (Ok (context_WithValue context_Background 0, 0), w2).
Proof.
  exact (injectTx_is_idempotent context_Background sample.quiet
           (context_WithValue context_Background 0) 0
           (injectTx context_Background sample.quiet).2 eq_refl).
Defined.

(** When the context carries no transaction and Begin fails, WithTx never
    calls the body: whatever the body is, the result is the Begin error
    behind "can not inject transaction, error: ", and the world is the one
    Begin left plus one log entry; no Commit, no Rollback. *)
Theorem WithTx_fails_before_the_body {V} ctx (f : Context -> V -> M (V * option error))
      v w e :
  Value_txInjector ctx = None ->
  hd None (faults w) = Some e ->
  transactorImpl_WithTx ctx f v w =
    ((v, Some (Errorf "can not inject transaction, error: " e)),
     set_logs (logs w ++ [(ErrorLevel, "Error while injecting transaction.", Some e)])
       (set_faults (tl (faults w)) w)).
Proof.
  intros Hc Hf. unfold transactorImpl_WithTx, injectTx, extractTx, bind. rewrite Hc.
  unfold pgx.Begin, pgx.pop_fault, bind. simpl. rewrite Hf. reflexivity.
Qed.

Lemma WithTx_fails_before_the_body_witness :
  let w := set_faults [Some (ErrNew "pool exhausted")] sample.quiet in
  transactorImpl_WithTx context_Background (sample.nested sample.succeed) tt w =
    ((tt, Some (Errorf "can not inject transaction, error: " (ErrNew "pool exhausted"))),
     set_logs (logs w ++ [(ErrorLevel, "Error while injecting transaction.",
                           Some (ErrNew "pool exhausted"))])
       (set_faults (tl (faults w)) w)).
Proof.
  exact (WithTx_fails_before_the_body context_Background (sample.nested sample.succeed) tt
           (set_faults [Some (ErrNew "pool exhausted")] sample.quiet)
           (ErrNew "pool exhausted") eq_refl eq_refl).
Defined.

Lemma Commit_closes tx w : open_tx (pgx.Commit tx w).2 !! tx = None.
Proof.
  unfold pgx.Commit, pgx.record, pgx.pop_fault, modify, gets, bind, ret. simpl.
  destruct (open_tx w !! tx) eqn:Hv; simpl; [|exact Hv].
  destruct (hd None (faults w)); simpl; apply lookup_delete_eq.
Qed.

(** Once WithTx has run the body, the transaction is closed when WithTx
    returns, whether the body failed or not and whether Commit or Rollback
    failed or not; and after the body's own driver calls WithTx makes exactly
    one more, a Rollback after a failed body and a Commit otherwise. *)
Theorem WithTx_closes_the_transaction {V} ctx (f : Context -> V -> M (V * option error))
      v w ctxWithTx tx w1 v' err w2 :
  injectTx ctx w = (Ok (ctxWithTx, tx), w1) ->
  f ctxWithTx v w1 = ((v', err), w2) ->
  let r := transactorImpl_WithTx ctx f v w in
  open_tx r.2 !! tx = None /\
  calls r.2 = calls w2 ++
    [match err with Some _ => EvRollback tx | None => EvCommit tx end] /\
  (forall tx', tx' <> tx -> open_tx r.2 !! tx' = open_tx w2 !! tx').
Proof.
  intros Hi Hf. cbv zeta. destruct err as [e|].
  - destruct (WithTx_body_error ctx f v w _ _ _ _ _ _ Hi Hf) as (_ & H2 & _ & H4).
    rewrite H2, H4. split; [apply lookup_delete_eq|]. split; [reflexivity|].
    intros tx' Hne. apply lookup_delete_ne. congruence.
  - rewrite (WithTx_body_ok ctx f v w _ _ _ _ _ Hi Hf). cbn [snd].
    split; [apply Commit_closes|]. split; [apply Commit_calls|].
    intros tx' Hne.
    unfold pgx.Commit, pgx.record, pgx.pop_fault, modify, gets, bind, ret. simpl.
    destruct (open_tx w2 !! tx) eqn:Hv; simpl; [|reflexivity].
    destruct (hd None (faults w2)); simpl; apply lookup_delete_ne; congruence.
Qed.

Lemma WithTx_closes_the_transaction_witness :
  let r := transactorImpl_WithTx context_Background sample.succeed tt sample.quiet in
  open_tx r.2 !! 0 = None /\
  calls r.2 = calls (injectTx context_Background sample.quiet).2 ++ [EvCommit 0] /\
  (forall tx', tx' <> 0 ->
     open_tx r.2 !! tx' = open_tx (injectTx context_Background sample.quiet).2 !! tx').
Proof.
  exact (WithTx_closes_the_transaction context_Background sample.succeed tt sample.quiet
           (context_WithValue context_Background 0) 0
           (injectTx context_Background sample.quiet).2 tt None
           (injectTx context_Background sample.quiet).2 eq_refl eq_refl).
Defined.

Lemma errors_Is_through_Errorf prefix e target :
  target = ErrAuthorNotFound \/ target = ErrBookNotFound ->
  errors_Is (Errorf prefix e) target = errors_Is e target.
Proof. intros [-> | ->]; reflexivity. Qed.

(** convertErr always answers a status whose message is the error's own
    text and whose code is NotFound when the chain of wrapped errors holds
    ErrAuthorNotFound or ErrBookNotFound and Internal otherwise; wrapping an
    error with %w does not change the code. *)
Theorem convertErr_classifies (e : error) :
  exists c,
    library.convertErr e = StatusError c (Error e) /\
    (c = NotFound \/ c = Internal) /\
    (c = NotFound <->
     errors_Is e ErrAuthorNotFound = true \/ errors_Is e ErrBookNotFound = true) /\
    forall prefix,
      library.convertErr (Errorf prefix e) = StatusError c (Error (Errorf prefix e)).
Proof.
  assert (W : forall prefix,
    library.convertErr (Errorf prefix e) =
      if errors_Is e ErrAuthorNotFound then StatusError NotFound (Error (Errorf prefix e))
      else if errors_Is e ErrBookNotFound then StatusError NotFound (Error (Errorf prefix e))
      else StatusError Internal (Error (Errorf prefix e))).
  { intros prefix. unfold library.convertErr.
    rewrite !errors_Is_through_Errorf by auto. reflexivity. }
  assert (D : library.convertErr e =
      if errors_Is e ErrAuthorNotFound then StatusError NotFound (Error e)
      else if errors_Is e ErrBookNotFound then StatusError NotFound (Error e)
      else StatusError Internal (Error e)) by reflexivity.
  destruct (errors_Is e ErrAuthorNotFound) eqn:Ha.
  - exists NotFound. split; [exact D|]. split; [auto|]. split; [tauto|].
    intros prefix. rewrite W. reflexivity.
  - destruct (errors_Is e ErrBookNotFound) eqn:Hb.
    + exists NotFound. split; [exact D|]. split; [auto|]. split; [tauto|].
      intros prefix. rewrite W. reflexivity.
    + exists Internal. split; [exact D|]. split; [auto|].
      split; [|intros prefix; rewrite W; reflexivity].
      split; [discriminate|]. intros [H|H]; discriminate.
Qed.

End MoreTransactor.

Section MoreHandlers.

Import repository.

Context {J : Json}.

(** The global handler and OutboxKind.String agree on which kinds exist: a
    handler is resolved exactly for the kinds whose String() is not
    "undefined", and String() tells the resolved kinds apart. *)
Theorem registry_agrees_with_String (bookURL authorURL : string) (kind : OutboxKind) :
  ((exists h, app.globalOutboxHandler bookURL authorURL kind = Ok h) <->
   OutboxKind_String kind <> "undefined") /\
  (forall kind', OutboxKind_String kind <> "undefined" ->
     OutboxKind_String kind = OutboxKind_String kind' -> kind = kind').
Proof.
  unfold app.globalOutboxHandler, OutboxKind_String. split.
  - destruct (bool_decide_reflect (kind = OutboxKindBook)) as [Hb|Hb].
    + split; [discriminate | eauto].
    + destruct (bool_decide_reflect (kind = OutboxKindAuthor)) as [Ha|Ha].
      * split; [discriminate | eauto].
      * split; [intros [h Hh]; discriminate | congruence].
  - intros kind'.
    destruct (bool_decide_reflect (kind = OutboxKindBook)) as [Hb|Hb];
      [|destruct (bool_decide_reflect (kind = OutboxKindAuthor)) as [Ha|Ha]];
      destruct (bool_decide_reflect (kind' = OutboxKindBook)) as [Hb'|Hb'];
      try destruct (bool_decide_reflect (kind' = OutboxKindAuthor)) as [Ha'|Ha'];
      intros H1 H2; try congruence; try discriminate.
Qed.

(** A failure of resp.Body.Close() never changes what SendID returns: with an
    answer from the sink the result depends on the status code alone, the
    answer is consumed, and the only trace of a failed Close is one log
    entry. *)
Theorem SendID_only_logs_a_failed_close (url id : string) (w : world) resp rest :
  http_plan w = Ok resp :: rest ->
  let r := app.SendID url id w in
  r.1 = (if bool_decide (StatusCode resp >= 400)%Z
         then Some (ErrNew ("http error: " +:+ Status resp)) else None) /\
  http_plan r.2 = rest /\
  logs r.2 = logs w ++
    match Body_Close resp with
    | Some e => [(ErrorLevel, "Error while closing response body.", Some e)]
    | None => []
    end.
Proof.
  intros Hp.
  unfold app.SendID, http.Post, app.SendID_deferred, app.httpMinErrorStatus,
    zap.log, bind, modify, ret. simpl. rewrite Hp. simpl.
  destruct (bool_decide (StatusCode resp >= 400)%Z); destruct (Body_Close resp); simpl;
    rewrite ?app_nil_r; auto.
Qed.

End MoreHandlers.

Lemma SendID_only_logs_a_failed_close_witness :
  let w := set_http_plan [Ok (mkResponse 204 "204 No Content" (Some (ErrNew "reset")))]
             sample.quiet in
  let r := app.SendID "http://sink/book" "b1" w in
  r.1 = None /\
  http_plan r.2 = [] /\
  logs r.2 = [(ErrorLevel, "Error while closing response body.", Some (ErrNew "reset"))].
Proof.
  exact (SendID_only_logs_a_failed_close "http://sink/book" "b1"
           (set_http_plan [Ok (mkResponse 204 "204 No Content" (Some (ErrNew "reset")))]
              sample.quiet)
           (mkResponse 204 "204 No Content" (Some (ErrNew "reset"))) [] eq_refl).
Defined.

(** ** The postgres repository on its own *)

Section RepositoryWrites.

Import repository.

Lemma within_tx_frame tx w w' :
  durable w' = durable w -> open_tx w' = open_tx w -> calls w' = calls w ->
  within_tx tx w w'.
Proof.
  intros D O C. split; [exact D|]. split; [intros; rewrite O; reflexivity|].
  split; [rewrite O; auto|]. exists []. rewrite app_nil_r. split; [exact C | constructor].
Qed.

Lemma within_tx_trans tx w1 w2 w3 :
  within_tx tx w1 w2 -> within_tx tx w2 w3 -> within_tx tx w1 w3.
Proof.
  intros (D1 & O1 & S1 & evs1 & C1 & F1) (D2 & O2 & S2 & evs2 & C2 & F2).
  split; [congruence|].
  split; [intros tx' H; rewrite O2, O1 by exact H; reflexivity|].
  split; [auto|]. exists (evs1 ++ evs2).
  split; [rewrite C2, C1, app_assoc; reflexivity|]. apply Forall_app; auto.
Qed.

Lemma exec_within_tx tx s w : within_tx tx w (pgx.exec (Some tx) s w).2.
Proof.
  pose proof (exec_tx tx s w) as H. cbv zeta in H.
  destruct (pgx.exec (Some tx) s w) as [[[id now]|e] w1]; simpl in *;
    destruct H as (C & D & _ & H).
  - destruct H as (t & t' & Hv & _ & _ & Ho).
    split; [exact D|].
    split; [intros tx' Hne; rewrite Ho; apply lookup_insert_ne; congruence|].
    split; [intros _; rewrite Ho, lookup_insert_eq; eauto|].
    exists [EvExec (Some tx) s]. split; [exact C|]. repeat constructor. eauto.
  - split; [exact D|]. split; [intros; rewrite H; reflexivity|].
    split; [rewrite H; auto|].
    exists [EvExec (Some tx) s]. split; [exact C|]. repeat constructor. eauto.
Qed.

Lemma mapErr_within_tx tx err w : within_tx tx w (mapErr err w).2.
Proof.
  unfold mapErr, zap.log, modify, bind, ret.
  destruct err as [e|]; [destruct (bool_decide _)|]; simpl;
    apply within_tx_frame; reflexivity.
Qed.

Lemma AddBook_statements_within tx b w : within_tx tx w (AddBook_statements tx b w).2.
Proof.
  unfold AddBook_statements, bind.
  pose proof (exec_within_tx tx (InsertBook (entity.Name b)) w) as H1.
  destruct (pgx.exec (Some tx) (InsertBook (entity.Name b)) w) as [[[id now]|e] w1];
    cbn [fst snd] in *.
  - unfold addBookAuthors, bind. cbn [entity.ID entity.AuthorIDs].
    pose proof (exec_within_tx tx (CopyAuthorBook (getRows id (entity.AuthorIDs b))) w1)
      as H2.
    destruct (pgx.exec (Some tx) (CopyAuthorBook (getRows id (entity.AuthorIDs b))) w1)
      as [[r|e] w2]; cbn [fst snd] in *.
    + simpl. eapply within_tx_trans; eassumption.
    + pose proof (mapErr_within_tx tx (Some e) w2) as H3.
      destruct (mapErr (Some e) w2) as [[e'|] w3]; simpl in *;
        eapply within_tx_trans; [eassumption| |eassumption|];
        eapply within_tx_trans; eassumption || apply within_tx_frame; reflexivity.
  - unfold zap.log, modify, bind, ret. simpl.
    eapply within_tx_trans; [exact H1|]. apply within_tx_frame; reflexivity.
Qed.

Lemma RegisterAuthor_statements_within tx a w :
  within_tx tx w (RegisterAuthor_statements tx a w).2.
Proof.
  unfold RegisterAuthor_statements, bind.
  pose proof (exec_within_tx tx (InsertAuthor (entity.Author_Name a)) w) as H1.
  destruct (pgx.exec (Some tx) (InsertAuthor (entity.Author_Name a)) w)
    as [[[id now]|e] w1]; cbn [fst snd] in *.
  - exact H1.
  - unfold zap.log, modify, bind, ret. simpl.
    eapply within_tx_trans; [exact H1|]. apply within_tx_frame; reflexivity.
Qed.

(** AddBook and RegisterAuthor enlist in the transaction of their context:
    when the context carries one they send their statements on it and
    nothing else; they neither begin, commit nor roll back, whether they
    fail or not, and the committed tables stay as they were. *)
Theorem repository_writes_enlist ctx tx (b : entity.Book) (a : entity.Author) w :
  Value_txInjector ctx = Some tx ->
  within_tx tx w (postgresImpl_AddBook ctx b w).2 /\
  within_tx tx w (postgresImpl_RegisterAuthor ctx a w).2.
Proof.
  intros Hc. unfold postgresImpl_AddBook, postgresImpl_RegisterAuthor, extractTx.
  rewrite Hc. split; [apply AddBook_statements_within | apply RegisterAuthor_statements_within].
Qed.

Lemma Begin_cases (w : world) :
  let r := pgx.Begin w in
  durable r.2 = durable w /\
  clock r.2 = clock w /\
  match r.1 with
  | Ok tx =>
      open_tx w !! tx = None /\
      open_tx r.2 = <[tx := durable w]> (open_tx w) /\
      calls r.2 = calls w ++ [EvBegin tx]
  | Err e => open_tx r.2 = open_tx w /\ calls r.2 = calls w
  end.
Proof.
  unfold pgx.Begin, pgx.pop_fault, pgx.record, bind, gets, modify, ret. simpl.
  destruct (hd None (faults w)); simpl; [auto|].
  split; [reflexivity|]. split; [reflexivity|]. split; [|auto].
  apply not_elem_of_dom. apply is_fresh.
Qed.

Lemma own_tx_deferred_spec tx txErr w :
  let r := own_tx_deferred tx txErr w in
  open_tx r.2 = delete tx (open_tx w) /\
  match txErr with
  | Some _ => r.1 = txErr /\ durable r.2 = durable w
  | None =>
      calls r.2 = calls w ++ [EvCommit tx] /\
      match r.1 with
      | None => exists t, open_tx w !! tx = Some t /\ durable r.2 = t
      | Some _ => durable r.2 = durable w
      end
  end.
Proof.
  unfold own_tx_deferred. destruct txErr as [e|].
  - unfold pgx.Rollback, pgx.record, pgx.pop_fault, zap.log, modify, gets, bind, ret.
    simpl. destruct (open_tx w !! tx) eqn:Hv; simpl; [auto|].
    rewrite delete_id by exact Hv. auto.
  - unfold pgx.Commit, pgx.record, pgx.pop_fault, modify, gets, bind, ret. simpl.
    destruct (open_tx w !! tx) as [t|] eqn:Hv; simpl.
    + destruct (hd None (faults w)); simpl; eauto.
    + rewrite delete_id by exact Hv. auto.
Qed.

Lemma own_tx_closed (m m1 m2 : gmap Tx tables) tx t :
  m !! tx = None -> m1 = <[tx := t]> m ->
  (forall tx', tx' <> tx -> m2 !! tx' = m1 !! tx') ->
  delete tx m2 = m.
Proof.
  intros Hf -> Ho. apply map_eq. intros i. destruct (decide (i = tx)) as [->|Hne].
  - rewrite lookup_delete_eq, Hf. reflexivity.
  - rewrite lookup_delete_ne by congruence. rewrite Ho by exact Hne.
    apply lookup_insert_ne. congruence.
Qed.

(** AddBook and RegisterAuthor called outside a transaction are atomic on
    their own: they leave no transaction open; when they return an error,
    Begin, a statement, or Commit having failed, the committed tables are
    untouched; when they return none, the committed tables are the old ones
    plus the entity they return (the book's row and one link per author id;
    the author's row), and the last driver call is a Commit. *)
Theorem repository_writes_are_atomic_alone ctx (b : entity.Book) (a : entity.Author) w :
  Value_txInjector ctx = None ->
  (let r := postgresImpl_AddBook ctx b w in
   open_tx r.2 = open_tx w /\
   match r.1.2 with
   | Some _ => durable r.2 = durable w
   | None =>
       durable r.2 = with_book (durable w) r.1.1 /\
       entity.Name r.1.1 = entity.Name b /\
       entity.AuthorIDs r.1.1 = entity.AuthorIDs b /\
       exists tx, last (calls r.2) = Some (EvCommit tx)
   end) /\
  (let r := postgresImpl_RegisterAuthor ctx a w in
   open_tx r.2 = open_tx w /\
   match r.1.2 with
   | Some _ => durable r.2 = durable w
   | None =>
       durable r.2 = with_author (durable w) r.1.1 /\
       entity.Author_Name r.1.1 = entity.Author_Name a /\
       exists tx, last (calls r.2) = Some (EvCommit tx)
   end).
Proof.
  intros Hc. cbv zeta. unfold postgresImpl_AddBook, postgresImpl_RegisterAuthor, extractTx.
  rewrite Hc. unfold bind.
  pose proof (Begin_cases w) as HB. cbv zeta in HB.
  destruct (pgx.Begin w) as [[tx|e] w1]; cbn [fst snd] in HB;
    destruct HB as (D0 & _ & HB); [|simpl; tauto].
  destruct HB as (Hfresh & O0 & C0). split.
  - pose proof (AddBook_statements_spec tx b w1) as H1. cbv zeta in H1.
    pose proof (AddBook_statements_within tx b w1) as (_ & W1 & _).
    destruct (AddBook_statements tx b w1) as [[b' err] w2]. cbn [fst snd] in *.
    destruct H1 as (D1 & _ & H1).
    pose proof (own_tx_deferred_spec tx err w2) as H2. cbv zeta in H2.
    destruct (own_tx_deferred tx err w2) as [txErr w3]. cbn [fst snd ret] in *.
    destruct H2 as (O2 & H2).
    split; [rewrite O2; eapply own_tx_closed; eassumption|].
    destruct err as [e|].
    + destruct H2 as (-> & D2). congruence.
    + destruct H2 as (C2 & H2). destruct txErr as [e|]; [congruence|].
      destruct H2 as (t2 & Hv2 & D2). destruct H1 as (t & id & Hv & -> & O1 & _).
      rewrite O0, lookup_insert_eq in Hv. injection Hv as <-.
      rewrite O1, lookup_insert_eq in Hv2. injection Hv2 as <-.
      split; [exact D2|]. split; [reflexivity|]. split; [reflexivity|].
      exists tx. rewrite C2. apply last_snoc.
  - pose proof (RegisterAuthor_statements_spec tx a w1) as H1. cbv zeta in H1.
    pose proof (RegisterAuthor_statements_within tx a w1) as (_ & W1 & _).
    destruct (RegisterAuthor_statements tx a w1) as [[a' err] w2]. cbn [fst snd] in *.
    destruct H1 as (D1 & _ & H1).
    pose proof (own_tx_deferred_spec tx err w2) as H2. cbv zeta in H2.
    destruct (own_tx_deferred tx err w2) as [txErr w3]. cbn [fst snd ret] in *.
    destruct H2 as (O2 & H2).
    split; [rewrite O2; eapply own_tx_closed; eassumption|].
    destruct err as [e|].
    + destruct H2 as (-> & D2). congruence.
    + destruct H2 as (C2 & H2). destruct txErr as [e|]; [congruence|].
      destruct H2 as (t2 & Hv2 & D2). destruct H1 as (t & id & Hv & -> & O1 & _).
      rewrite O0, lookup_insert_eq in Hv. injection Hv as <-.
      rewrite O1, lookup_insert_eq in Hv2. injection Hv2 as <-.
      split; [exact D2|]. split; [reflexivity|].
      exists tx. rewrite C2. apply last_snoc.
Qed.

End RepositoryWrites.

(** ** The reads of the postgres repository *)

Section RepositoryReads.

Import repository.

Lemma filter_key_absent {V} (keep : string -> bool) (l : list (string * V)) :
  (forall r, r ∈ l -> keep r.1 = false) ->
  filter (fun r => keep r.1 = true) l = [].
Proof.
  induction l as [|x l IH]; intros H; [reflexivity|].
  rewrite filter_cons_False.
  - apply IH. intros r Hr. apply H. right. exact Hr.
  - rewrite (H x) by left. discriminate.
Qed.

Lemma filter_key_present {V} (keep : string -> bool) (l : list (string * V)) k v :
  (forall k', keep k' = true <-> k' = k) ->
  NoDup l.*1 -> (k, v) ∈ l ->
  filter (fun r => keep r.1 = true) l = [(k, v)].
Proof.
  intros Hk. induction l as [|[k0 v0] l IH]; intros Hnd Hin.
  - inversion Hin.
  - apply NoDup_cons in Hnd. destruct Hnd as [Hn Hnd]. simpl in Hn.
    destruct (decide (k0 = k)) as [->|Hne].
    + rewrite filter_cons_True by (apply Hk; reflexivity).
      assert (v0 = v) as ->.
      { apply elem_of_cons in Hin. destruct Hin as [[= <-]|Hin]; [reflexivity|].
        exfalso. apply Hn. apply list_elem_of_fmap. exists (k, v). auto. }
      f_equal. apply filter_key_absent. intros [k1 v1] Hr. simpl.
      apply not_true_is_false. intros Ht. apply Hk in Ht. subst k1.
      apply Hn. apply list_elem_of_fmap. exists (k, v1). auto.
    + rewrite filter_cons_False by (simpl; intros Ht; apply Hk in Ht; contradiction).
      apply IH; [exact Hnd|]. apply elem_of_cons in Hin.
      destruct Hin as [[= -> ->]|Hin]; [contradiction | exact Hin].
Qed.

Lemma book_rows_one (t : tables) (bid : string) :
  pgx.book_rows t (fun b => bool_decide (b = bid)) =
    match book t !! bid with
    | Some (name, created, updated) =>
        [pgx.mkBookRow bid name created updated (pgx.array_agg t bid)]
    | None => []
    end.
Proof.
  unfold pgx.book_rows.
  destruct (book t !! bid) as [[[n c] u]|] eqn:Hb.
  - pose proof (filter_key_present (fun b => bool_decide (b = bid))
                  (map_to_list (book t)) bid (n, c, u)) as H.
    cbv beta in H. rewrite H; [reflexivity| | |].
    + intros k'. apply bool_decide_eq_true.
    + apply NoDup_fst_map_to_list.
    + apply elem_of_map_to_list. exact Hb.
  - pose proof (filter_key_absent (fun b => bool_decide (b = bid))
                  (map_to_list (book t))) as H.
    cbv beta in H. rewrite H; [reflexivity|].
    intros [k v] Hr. simpl. apply bool_decide_eq_false. intros ->.
    apply elem_of_map_to_list in Hr. congruence.
Qed.

Lemma GetBookInfo_undisturbed ctx bid (w : world) :
  hd None (faults w) = None ->
  let r := postgresImpl_GetBookInfo ctx bid w in
  r.1 = match book (durable w) !! bid with
        | Some (name, created, updated) =>
            (entity.mkBook bid name (linked_authors (durable w) bid) created updated, None)
        | None => (entity.Book_zero, Some ErrBookNotFound)
        end /\
  durable r.2 = durable w /\ open_tx r.2 = open_tx w /\ calls r.2 = calls w.
Proof.
  intros Hf. cbv zeta.
  unfold postgresImpl_GetBookInfo, pgx.select_book, pgx.pop_fault, bind, gets, ret.
  simpl. rewrite Hf. simpl. rewrite book_rows_one.
  destruct (book (durable w) !! bid) as [[[n c] u]|]; simpl.
  - rewrite appendAuthors_omap. simpl. rewrite array_agg_linked. auto.
  - auto.
Qed.

(** GetBookInfo, when the driver does not fail: a book that is in the
    committed tables comes back with its row's columns and the author ids
    linked to it, in table order; an id without a row gives the zero book and
    ErrBookNotFound, which the use case turns into NotFound "book not found".
    The read is sent on the pool whatever the context carries and changes
    nothing. *)
Theorem GetBookInfo_reads_the_committed_book ctx bid (w : world)
    (outboxRepository : OutboxRepository) :
  hd None (faults w) = None ->
  let r := postgresImpl_GetBookInfo ctx bid w in
  r.1 = match book (durable w) !! bid with
        | Some (name, created, updated) =>
            (entity.mkBook bid name (linked_authors (durable w) bid) created updated, None)
        | None => (entity.Book_zero, Some ErrBookNotFound)
        end /\
  durable r.2 = durable w /\ open_tx r.2 = open_tx w /\ calls r.2 = calls w /\
  (book (durable w) !! bid = None ->
   (usecases.GetBookInfo (app.useCases outboxRepository) ctx
      {| rpc.GetBookInfo_Id := bid |} w).1
     = Err (StatusError NotFound "book not found")).
Proof.
  intros Hf. cbv zeta.
  destruct (GetBookInfo_undisturbed ctx bid w Hf) as (R1 & R2 & R3 & R4).
  split; [exact R1|]. split; [exact R2|]. split; [exact R3|]. split; [exact R4|].
  intros Hb. unfold usecases.GetBookInfo, bind, zap.Info, zap.log, modify.
  cbn [fst snd app.useCases library.booksRepository GetBookInfo postgresImpl_Books
       rpc.GetBookInfo_Id].
  set (w0 := set_logs _ w).
  destruct (GetBookInfo_undisturbed ctx bid w0 Hf) as (R1' & _).
  change (durable w0) with (durable w) in R1'. rewrite Hb in R1'.
  destruct (postgresImpl_GetBookInfo ctx bid w0) as [[b e] w1].
  simpl in R1'. injection R1' as -> ->. reflexivity.
Qed.

Lemma scanBooks_map (rows : list pgx.book_row) : forall acc w,
  scanBooks rows acc w = ((acc ++ map book_of_row rows, None), w).
Proof.
  induction rows as [|r rows IH]; intros acc w; cbn [scanBooks].
  - rewrite app_nil_r. reflexivity.
  - unfold bind. rewrite getBookFromRows_Ok. cbn [fst snd]. rewrite IH.
    rewrite <- app_assoc. reflexivity.
Qed.

(** GetAuthorBooks, when the driver does not fail, returns no error and
    exactly the books that have a row and a link to the author, each once and
    each with all the author ids linked to it; for an author without books,
    known or not, that is the empty list and not ErrAuthorNotFound. *)
Theorem GetAuthorBooks_returns_the_linked_books ctx aid (w : world) :
  hd None (faults w) = None ->
  let r := postgresImpl_GetAuthorBooks ctx aid w in
  r.1.2 = None /\
  NoDup (map entity.ID r.1.1) /\
  (forall b, b ∈ r.1.1 <->
     exists name created updated,
       book (durable w) !! entity.ID b = Some (name, created, updated) /\
       (aid, entity.ID b) ∈ author_book (durable w) /\
       b = entity.mkBook (entity.ID b) name
             (linked_authors (durable w) (entity.ID b)) created updated) /\
  ((forall bid, (aid, bid) ∉ author_book (durable w)) -> r.1.1 = []).
Proof.
  intros Hf. cbv zeta.
  unfold postgresImpl_GetAuthorBooks, pgx.select_author_books, pgx.pop_fault,
    bind, gets, ret. simpl. rewrite Hf. simpl. rewrite scanBooks_map. simpl.
  set (t := durable w).
  set (keep := fun b : string => bool_decide ((aid, b) ∈ author_book t)).
  assert (Hmem : forall b, b ∈ map book_of_row (pgx.book_rows t keep) <->
     exists name created updated,
       book t !! entity.ID b = Some (name, created, updated) /\
       (aid, entity.ID b) ∈ author_book t /\
       b = entity.mkBook (entity.ID b) name (linked_authors t (entity.ID b))
             created updated).
  { intros b. unfold pgx.book_rows. rewrite <- list_fmap_compose. split.
    - intros H. apply list_elem_of_fmap in H. destruct H as ([k [[n c] u]] & -> & H).
      apply list_elem_of_filter in H. destruct H as [Hk H]. simpl in Hk.
      apply elem_of_map_to_list in H. unfold keep in Hk.
      apply bool_decide_eq_true in Hk.
      exists n, c, u. simpl. unfold book_of_row. simpl. rewrite array_agg_linked. auto.
    - intros (n & c & u & Hb & Ha & ->). apply list_elem_of_fmap.
      exists (entity.ID b, (n, c, u)). split.
      + simpl. unfold book_of_row. simpl. rewrite array_agg_linked. reflexivity.
      + apply list_elem_of_filter. split.
        * simpl. unfold keep. apply bool_decide_eq_true. exact Ha.
        * apply elem_of_map_to_list. exact Hb. }
  split; [reflexivity|]. split; [|split; [exact Hmem|]].
  - unfold pgx.book_rows. rewrite <- !list_fmap_compose.
    assert (E : forall l : list (string * (string * Z * Z)),
      map (entity.ID ∘ (book_of_row ∘
        (fun '(id, (name, created, updated)) =>
           pgx.mkBookRow id name created updated (pgx.array_agg t id)))) l = l.*1).
    { intros l. apply list_fmap_ext. intros i [k [[n c] u]] _. reflexivity. }
    rewrite E. apply NoDup_fmap_fst.
    + intros k v1 v2 H1 H2. apply list_elem_of_filter in H1, H2.
      destruct H1 as [_ H1], H2 as [_ H2].
      apply elem_of_map_to_list in H1, H2. congruence.
    + apply NoDup_filter. apply NoDup_map_to_list.
  - intros Hnone.
    destruct (map book_of_row (pgx.book_rows t keep)) as [|b bs]; [reflexivity|].
    exfalso. destruct (proj1 (Hmem b)) as (n & c & u & _ & Ha & _); [left|].
    exact (Hnone _ Ha).
Qed.

End RepositoryReads.

(** ** Authors: ChangeAuthorInfo and GetAuthorInfo *)

Section Authors.

Import repository.

Lemma run_tx {A} tx (sem : Z -> tables -> result (tables * A)) w :
  let r := sql.run (Some tx) sem w in
  durable r.2 = durable w /\ clock r.2 = clock w /\
  calls r.2 = calls w /\ logs r.2 = logs w /\
  (forall tx', tx' <> tx -> open_tx r.2 !! tx' = open_tx w !! tx') /\
  match r.1 with
  | Ok a =>
      exists t t', open_tx w !! tx = Some t /\ hd None (faults w) = None /\
        sem (clock w) t = Ok (t', a) /\
        open_tx r.2 = <[tx := t']> (open_tx w)
  | Err _ => open_tx r.2 = open_tx w
  end.
Proof.
  unfold sql.run, pgx.view, pgx.pop_fault, pgx.store, modify, gets, bind, ret. simpl.
  destruct (open_tx w !! tx) as [t|] eqn:Hv; simpl; [|auto 10].
  destruct (hd None (faults w)) as [e|] eqn:Hf; simpl; [auto 10|].
  destruct (sem (clock w) t) as [[t' a]|e] eqn:Hs; simpl; [|auto 10].
  repeat split; try reflexivity.
  - intros tx' Hne. apply lookup_insert_ne. congruence.
  - exists t, t'. auto.
Qed.

Lemma run_tx_undisturbed {A} tx (sem : Z -> tables -> result (tables * A)) w t :
  open_tx w !! tx = Some t -> hd None (faults w) = None ->
  let r := sql.run (Some tx) sem w in
  faults r.2 = tl (faults w) /\
  r.1 = match sem (clock w) t with Ok (_, a) => Ok a | Err e => Err e end.
Proof.
  intros Hv Hf.
  unfold sql.run, pgx.view, pgx.pop_fault, pgx.store, modify, gets, bind, ret. simpl.
  rewrite Hv. simpl. rewrite Hf. simpl.
  destruct (sem (clock w) t) as [[t' a]|e]; simpl; auto.
Qed.

Lemma run_pool {A} (sem : Z -> tables -> result (tables * A)) w :
  let r := sql.run None sem w in
  open_tx r.2 = open_tx w /\ calls r.2 = calls w /\ logs r.2 = logs w /\
  faults r.2 = tl (faults w) /\
  match r.1 with
  | Ok a =>
      exists t', hd None (faults w) = None /\
        sem (clock w) (durable w) = Ok (t', a) /\ durable r.2 = t'
  | Err e =>
      durable r.2 = durable w /\
      (hd None (faults w) = None -> exists e', sem (clock w) (durable w) = Err e' /\ e = e')
  end.
Proof.
  unfold sql.run, pgx.view, pgx.pop_fault, pgx.store, modify, gets, bind, ret. simpl.
  destruct (hd None (faults w)) as [e|] eqn:Hf; simpl.
  - repeat split; try reflexivity. discriminate.
  - destruct (sem (clock w) (durable w)) as [[t' a]|e] eqn:Hs; simpl.
    + repeat split; try reflexivity. exists t'. auto.
    + repeat split; try reflexivity. intros _. eauto.
Qed.

(** ChangeAuthorInfo renames an author that exists and creates none: without
    an error the author had a row and the committed tables differ by that
    row's name only; with an error they are untouched and the zero author is
    returned.  An id without a row is answered ErrAuthorNotFound.  The update
    is sent on the pool whatever the context carries: no transaction is
    opened or touched, and the rename is committed when the call returns. *)
Theorem ChangeAuthorInfo_renames_an_existing_author ctx aid name (w : world) :
  let r := postgres.ChangeAuthorInfo ctx aid name w in
  open_tx r.2 = open_tx w /\ calls r.2 = calls w /\
  match r.1.2 with
  | None =>
      r.1.1 = entity.mkAuthor aid name /\
      is_Some (author (durable w) !! aid) /\
      durable r.2 = with_author (durable w) (entity.mkAuthor aid name)
  | Some _ => r.1.1 = entity.Author_zero /\ durable r.2 = durable w
  end /\
  (hd None (faults w) = None ->
   r.1.2 = match author (durable w) !! aid with
           | Some _ => None
           | None => Some ErrAuthorNotFound
           end).
Proof.
  cbv zeta. unfold postgres.ChangeAuthorInfo, bind.
  pose proof (run_pool (sql.update_author aid name) w) as H. cbv zeta in H.
  destruct (sql.run None (sql.update_author aid name) w) as [[n|e] w1];
    cbn [fst snd] in H; destruct H as (O & C & L & F & H).
  - destruct H as (t' & Hf & Hs & D). unfold sql.update_author in Hs.
    destruct (author (durable w) !! aid) as [old|] eqn:Ha; injection Hs as <- <-.
    + simpl. split; [exact O|]. split; [exact C|]. split; [|reflexivity].
      split; [reflexivity|]. split; [eauto|]. exact D.
    + simpl. split; [exact O|]. split; [exact C|]. split; [|reflexivity].
      split; [reflexivity|]. exact D.
  - destruct H as (D & He). unfold zap.log, modify, bind, ret. simpl.
    split; [exact O|]. split; [exact C|]. split; [auto|].
    intros Hf. destruct (He Hf) as (e' & Hs & _). unfold sql.update_author in Hs.
    destruct (author (durable w) !! aid); discriminate.
Qed.

Lemma ChangeAuthorInfo_ok ctx aid name w0 a w :
  postgres.ChangeAuthorInfo ctx aid name w0 = ((a, None), w) ->
  author (durable w) !! aid = Some name.
Proof.
  unfold postgres.ChangeAuthorInfo, bind.
  pose proof (run_pool (sql.update_author aid name) w0) as H. cbv zeta in H.
  destruct (sql.run None (sql.update_author aid name) w0) as [[n|e] w1];
    cbn [fst snd] in H; destruct H as (_ & _ & _ & _ & H).
  - destruct H as (t' & _ & Hs & D). unfold sql.update_author in Hs.
    destruct (author (durable w0) !! aid) as [old|]; injection Hs as <- <-; simpl.
    + intros [= _ <-]. rewrite D. simpl. apply lookup_insert_eq.
    + discriminate.
  - unfold zap.log, modify, bind, ret. simpl. discriminate.
Qed.

Lemma GetAuthorInfo_undisturbed ctx aid (w : world) :
  hd None (faults w) = None ->
  let r := postgres.GetAuthorInfo ctx aid w in
  r.1 = match author (durable w) !! aid with
        | Some name => (entity.mkAuthor aid name, None)
        | None => (entity.Author_zero, Some ErrAuthorNotFound)
        end /\
  durable r.2 = durable w /\ open_tx r.2 = open_tx w /\ logs r.2 = logs w.
Proof.
  intros Hf. cbv zeta. unfold postgres.GetAuthorInfo, bind.
  pose proof (run_pool (sql.select_author aid) w) as H. cbv zeta in H.
  destruct (sql.run None (sql.select_author aid) w) as [[[i n]|e] w1];
    cbn [fst snd] in H; destruct H as (O & C & L & F & H).
  - destruct H as (t' & _ & Hs & D). unfold sql.select_author in Hs.
    destruct (author (durable w) !! aid) as [name|]; [|discriminate].
    injection Hs as <- <- <-. simpl. auto.
  - destruct H as (D & He). destruct (He Hf) as (e' & Hs & ->).
    unfold sql.select_author in Hs.
    destruct (author (durable w) !! aid) as [name|]; [discriminate|].
    injection Hs as <-. simpl. auto.
Qed.

(** GetAuthorInfo, when the driver does not fail, returns the committed row
    of the author, or the zero author and ErrAuthorNotFound when there is
    none, and changes nothing; an author that ChangeAuthorInfo has just
    renamed without error is read back under the new name. *)
Theorem GetAuthorInfo_reads_the_committed_author ctx aid (w : world) :
  hd None (faults w) = None ->
  let r := postgres.GetAuthorInfo ctx aid w in
  r.1 = match author (durable w) !! aid with
        | Some name => (entity.mkAuthor aid name, None)
        | None => (entity.Author_zero, Some ErrAuthorNotFound)
        end /\
  durable r.2 = durable w /\ open_tx r.2 = open_tx w /\ logs r.2 = logs w /\
  (forall ctx' name w0 a,
     postgres.ChangeAuthorInfo ctx' aid name w0 = ((a, None), w) ->
     r.1 = (entity.mkAuthor aid name, None)).
Proof.
  intros Hf. cbv zeta.
  destruct (GetAuthorInfo_undisturbed ctx aid w Hf) as (R1 & R2 & R3 & R4).
  split; [exact R1|]. split; [exact R2|]. split; [exact R3|]. split; [exact R4|].
  intros ctx' name w0 a Hc. rewrite R1.
  rewrite (ChangeAuthorInfo_ok _ _ _ _ _ _ Hc). reflexivity.
Qed.

End Authors.

(** ** UpdateBook *)

Section UpdateBook.

Import repository.

Variable updated_at_rule : Z -> Z -> Z.

Lemma insert_author_book_spec a bid now t t1 n :
  sql.insert_author_book a bid now t = Ok (t1, n) ->
  author t1 = author t /\ book t1 = book t /\ outbox t1 = outbox t /\
  forall x, x ∈ author_book t1 <-> x ∈ author_book t \/ x = (a, bid).
Proof.
  unfold sql.insert_author_book.
  destruct (bool_decide_reflect ((a, bid) ∈ author_book t)) as [Hin|Hin].
  - intros [= <- _]. repeat split; try reflexivity; [auto|].
    intros [H| ->]; assumption.
  - destruct (bool_decide (is_Some (author t !! a))); [|discriminate].
    intros [= <- _]. simpl. repeat split; try reflexivity.
    + intros H. apply elem_of_app in H. destruct H as [H|H]; [auto|].
      apply list_elem_of_singleton in H. auto.
    + intros H. apply elem_of_app. destruct H as [H| ->]; [auto|].
      right. apply list_elem_of_singleton. reflexivity.
Qed.

Lemma insertAuthors_spec tx bid ids : forall w t,
  open_tx w !! tx = Some t ->
  let r := postgres.insertAuthors tx bid ids w in
  durable r.2 = durable w /\ calls r.2 = calls w /\ clock r.2 = clock w /\
  (forall tx', tx' <> tx -> open_tx r.2 !! tx' = open_tx w !! tx') /\
  match r.1 with
  | None =>
      logs r.2 = logs w /\
      exists t', open_tx r.2 !! tx = Some t' /\
        author t' = author t /\ book t' = book t /\ outbox t' = outbox t /\
        forall x, x ∈ author_book t' <-> x ∈ author_book t \/ (x.2 = bid /\ x.1 ∈ ids)
  | Some err => err <> None
  end.
Proof.
  induction ids as [|a ids IH]; intros w t Hv; cbn [postgres.insertAuthors].
  - unfold ret. simpl. repeat split; try reflexivity. exists t. repeat split; auto.
    intros [H|[_ H]]; [exact H | inversion H].
  - cbv zeta. unfold bind.
    pose proof (run_tx tx (sql.insert_author_book a bid) w) as H. cbv zeta in H.
    destruct (sql.run (Some tx) (sql.insert_author_book a bid) w) as [[n|e] w1];
      cbn [fst snd] in H; destruct H as (D & K & C & L & O & H).
    + destruct H as (t0 & t1 & Hv0 & _ & Hs & Ho).
      rewrite Hv in Hv0. injection Hv0 as <-.
      apply insert_author_book_spec in Hs. destruct Hs as (A1 & B1 & X1 & M1).
      assert (Hv1 : open_tx w1 !! tx = Some t1) by (rewrite Ho; apply lookup_insert_eq).
      specialize (IH w1 t1 Hv1). cbv zeta in IH.
      destruct (postgres.insertAuthors tx bid ids w1) as [[e|] w2]; cbn [fst snd] in *;
        destruct IH as (D2 & C2 & K2 & O2 & IH).
      * repeat split; try congruence. intros tx' Hne. rewrite O2, O by exact Hne.
        reflexivity.
      * destruct IH as (L2 & t' & Hv2 & A2 & B2 & X2 & M2).
        repeat split; try congruence.
        { intros tx' Hne. rewrite O2, O by exact Hne. reflexivity. }
        exists t'. repeat split; try congruence.
        { intros Hx. apply M2 in Hx. destruct Hx as [Hx|[Hb Hx]].
          - apply M1 in Hx. destruct Hx as [Hx| ->]; [auto|].
            right. split; [reflexivity | left].
          - right. split; [exact Hb | right; exact Hx]. }
        { intros Hx. apply M2. destruct Hx as [Hx|[Hb Hx]].
          - left. apply M1. auto.
          - apply elem_of_cons in Hx. destruct Hx as [Hx|Hx]; [|auto].
            left. apply M1. right. destruct x as [x1 x2]. simpl in *. congruence. }
    + unfold mapErr, zap.log, modify, bind, ret.
      destruct (bool_decide (errors_As_PgError e = Some ErrForeignKeyViolation)); simpl;
        repeat split; try congruence; intros tx' Hne; rewrite <- O by exact Hne;
        reflexivity.
Qed.

Lemma deleted_false bid ids (x : string * string) :
  sql.deleted bid ids x = false <-> x.2 <> bid \/ forall a, a ∈ ids -> x.1 = a.
Proof.
  unfold sql.deleted. rewrite andb_false_iff, bool_decide_eq_false. split.
  - intros [H|H]; [auto|]. right. intros a Ha.
    destruct (decide (x.1 = a)) as [E|E]; [exact E|]. exfalso.
    assert (T : existsb (fun a0 => negb (bool_decide (x.1 = a0))) ids = true).
    { apply existsb_exists. exists a. split; [apply list_elem_of_In; exact Ha|].
      apply negb_true_iff, bool_decide_eq_false. exact E. }
    congruence.
  - intros [H|H]; [auto|]. right. apply not_true_is_false. intros T.
    apply existsb_exists in T. destruct T as (a & Ha & T).
    apply negb_true_iff, bool_decide_eq_false in T. apply T, H.
    apply list_elem_of_In. exact Ha.
Qed.

Lemma txRollback_spec tx w :
  let r := postgres.txRollback tx w in
  durable r.2 = durable w /\
  open_tx r.2 = delete tx (open_tx w) /\
  (open_tx w !! tx = None ->
   logs r.2 = logs w ++ [(DebugLevel, "Error while doing rollback.", Some ErrTxClosed)]).
Proof.
  unfold postgres.txRollback, pgx.Rollback, pgx.record, pgx.pop_fault, zap.log,
    modify, gets, bind, ret. simpl.
  destruct (open_tx w !! tx) as [t|] eqn:Hv; simpl.
  - destruct (hd None (faults w)); simpl; repeat split; discriminate.
  - rewrite delete_id by exact Hv. auto.
Qed.

(** The links of book [bid] after UpdateBook's DELETE and INSERTs, from
    those before. *)
Lemma UpdateBook_statements_spec tx bid name ids w t :
  open_tx w !! tx = Some t ->
  let r := postgres.UpdateBook_statements updated_at_rule tx bid name ids w in
  (forall tx', tx' <> tx -> open_tx r.2 !! tx' = open_tx w !! tx') /\
  match r.1.2 with
  | Some _ => durable r.2 = durable w /\ r.1.1 = entity.Book_zero
  | None =>
      open_tx r.2 !! tx = None /\ logs r.2 = logs w /\
      exists old created updated,
        book t !! bid = Some (old, created, updated) /\
        r.1.1 = entity.mkBook bid name ids created (updated_at_rule updated (clock w)) /\
        author (durable r.2) = author t /\ outbox (durable r.2) = outbox t /\
        book (durable r.2)
          = <[bid := (name, created, updated_at_rule updated (clock w))]> (book t) /\
        forall x, x ∈ author_book (durable r.2) <->
          (x ∈ author_book t /\ sql.deleted bid ids x = false) \/
          (x.2 = bid /\ x.1 ∈ ids)
  end.
Proof.
  intros Hv. cbv zeta. unfold postgres.UpdateBook_statements, bind.
  pose proof (run_tx tx (sql.update_book updated_at_rule bid name) w) as H1.
  cbv zeta in H1.
  destruct (sql.run (Some tx) (sql.update_book updated_at_rule bid name) w)
    as [[[created updated']|e] w1]; cbn [fst snd] in H1;
    destruct H1 as (D1 & K1 & C1 & L1 & O1 & H1).
  2: { destruct (errors_Is e ErrNoRows); unfold zap.log, modify, bind, ret; simpl;
         (split; [exact O1 | auto]). }
  destruct H1 as (t0 & t1 & Hv0 & _ & Hs1 & Ho1).
  rewrite Hv in Hv0. injection Hv0 as <-.
  unfold sql.update_book in Hs1.
  destruct (book t !! bid) as [[[old created0] updated]|] eqn:Hb; [|discriminate].
  injection Hs1 as <- <- <-.
  pose proof (run_tx tx (sql.delete_book_authors bid ids) w1) as H2. cbv zeta in H2.
  destruct (sql.run (Some tx) (sql.delete_book_authors bid ids) w1) as [[n|e] w2];
    cbn [fst snd] in H2; destruct H2 as (D2 & K2 & C2 & L2 & O2 & H2).
  2: { unfold zap.log, modify, bind, ret; simpl. split; [|split; congruence].
       intros tx' Hne. rewrite O2, O1 by exact Hne. reflexivity. }
  destruct H2 as (t1 & t2 & Hv1 & _ & Hs2 & Ho2).
  rewrite Ho1, lookup_insert_eq in Hv1. injection Hv1 as <-.
  unfold sql.delete_book_authors in Hs2. cbn [author book author_book outbox] in Hs2.
  injection Hs2 as <- _.
  assert (Hv2 : exists t2, open_tx w2 !! tx = Some t2 /\
            author t2 = author t /\ outbox t2 = outbox t /\
            book t2 = <[bid := (name, created0, updated_at_rule updated (clock w))]> (book t) /\
            author_book t2
              = filter (fun r => sql.deleted bid ids r = false) (author_book t)).
  { rewrite Ho2, lookup_insert_eq. eexists. split; [reflexivity|]. simpl. auto. }
  clear Ho2 Ho1. destruct Hv2 as (t2 & Hv2 & A2 & X2 & B2 & AB2).
  pose proof (insertAuthors_spec tx bid ids w2 t2 Hv2) as H3. cbv zeta in H3.
  destruct (postgres.insertAuthors tx bid ids w2) as [[e|] w3]; cbn [fst snd] in H3;
    destruct H3 as (D3 & C3 & K3 & O3 & H3).
  { destruct e as [e|]; [|contradiction]. simpl. split; [|split; congruence].
    intros tx' Hne. rewrite O3, O2, O1 by exact Hne. reflexivity. }
  destruct H3 as (L3 & t3 & Hv3 & A3 & B3 & X3 & M3).
  pose proof (Commit_closes tx w3) as Hcl.
  pose proof (Commit_published tx w3 t3 Hv3) as Hpub.
  pose proof (Commit_failed tx w3) as Hfail.
  assert (Hoth : forall tx', tx' <> tx ->
            open_tx (pgx.Commit tx w3).2 !! tx' = open_tx w3 !! tx').
  { intros tx' Hne.
    unfold pgx.Commit, pgx.record, pgx.pop_fault, modify, gets, bind, ret. simpl.
    rewrite Hv3. simpl. destruct (hd None (faults w3)); simpl;
      apply lookup_delete_ne; congruence. }
  assert (Hlog : logs (pgx.Commit tx w3).2 = logs w3).
  { unfold pgx.Commit, pgx.record, pgx.pop_fault, modify, gets, bind, ret. simpl.
    rewrite Hv3. simpl. destruct (hd None (faults w3)); reflexivity. }
  destruct (pgx.Commit tx w3) as [[e|] w4]; cbn [fst snd ret] in *.
  { split; [|split; [rewrite Hfail by discriminate; congruence | reflexivity]].
    intros tx' Hne. rewrite Hoth, O3, O2, O1 by exact Hne. reflexivity. }
  split; [intros tx' Hne; rewrite Hoth, O3, O2, O1 by exact Hne; reflexivity|].
  split; [exact Hcl|]. split; [congruence|].
  exists old, created0, updated. rewrite (Hpub eq_refl).
  split; [reflexivity|]. split; [reflexivity|].
  split; [congruence|]. split; [congruence|].
  split; [congruence|].
  intros x. rewrite M3, AB2, list_elem_of_filter. tauto.
Qed.

(** UpdateBook works in a transaction of its own, whatever the context
    carries, and is atomic: it leaves the open transactions as it found
    them, and when it returns an error the committed tables are untouched
    and the book returned is the zero value.  When it returns none, the book
    had a row, which now has the new name; the authors, the outbox and the
    links of every other book are as before; with a non-empty list of author
    ids the book's links are exactly the ids of the list, while with an empty
    list the links it had are all kept ([author_id != ANY] of an empty array
    deletes nothing); and the deferred rollback, which finds the
    transaction committed, logs "tx is closed" at debug level. *)
Theorem UpdateBook_replaces_the_links_atomically ctx bid name ids (w : world) :
  let r := postgres.UpdateBook updated_at_rule ctx bid name ids w in
  open_tx r.2 = open_tx w /\
  match r.1.2 with
  | Some _ => durable r.2 = durable w /\ r.1.1 = entity.Book_zero
  | None =>
      (exists old created updated,
         book (durable w) !! bid = Some (old, created, updated) /\
         r.1.1 = entity.mkBook bid name ids created (updated_at_rule updated (clock w)) /\
         book (durable r.2)
           = <[bid := (name, created, updated_at_rule updated (clock w))]>
               (book (durable w))) /\
      author (durable r.2) = author (durable w) /\
      outbox (durable r.2) = outbox (durable w) /\
      (forall a b, b <> bid ->
         ((a, b) ∈ author_book (durable r.2) <-> (a, b) ∈ author_book (durable w))) /\
      (ids <> [] -> forall a, (a, bid) ∈ author_book (durable r.2) <-> a ∈ ids) /\
      (ids = [] ->
         forall x, x ∈ author_book (durable r.2) <-> x ∈ author_book (durable w)) /\
      logs r.2 = logs w ++ [(DebugLevel, "Error while doing rollback.", Some ErrTxClosed)]
  end.
Proof.
  cbv zeta. unfold postgres.UpdateBook, bind.
  pose proof (Begin_cases w) as HB. cbv zeta in HB.
  assert (LB : logs (pgx.Begin w).2 = logs w).
  { unfold pgx.Begin, pgx.pop_fault, pgx.record, bind, gets, modify, ret. simpl.
    destruct (hd None (faults w)); reflexivity. }
  destruct (pgx.Begin w) as [[tx|e] w1]; cbn [fst snd] in HB, LB;
    destruct HB as (D0 & K0 & HB); [|simpl; tauto].
  destruct HB as (Hfresh & O0 & C0).
  assert (Hv : open_tx w1 !! tx = Some (durable w))
    by (rewrite O0; apply lookup_insert_eq).
  pose proof (UpdateBook_statements_spec tx bid name ids w1 (durable w) Hv) as H.
  cbv zeta in H.
  destruct (postgres.UpdateBook_statements updated_at_rule tx bid name ids w1)
    as [[b err] w2]. cbn [fst snd] in H. destruct H as (O1 & H).
  pose proof (txRollback_spec tx w2) as HR. cbv zeta in HR.
  destruct (postgres.txRollback tx w2) as [u w3]. cbn [fst snd ret] in *.
  destruct HR as (D3 & O3 & L3).
  split; [rewrite O3; eapply own_tx_closed; eassumption|].
  destruct err as [e|].
  - destruct H as (D2 & Hz). split; [congruence | exact Hz].
  - destruct H as (Hcl & L2 & old & created & updated & Hb & -> & A & X & B & M).
    rewrite D3. rewrite K0 in *. split; [exists old, created, updated; auto|].
    split; [exact A|]. split; [exact X|].
    split; [|split; [|split]].
    + intros a b Hne. rewrite M. split.
      * intros [[Hin _]|[Hb' _]]; [exact Hin | simpl in Hb'; contradiction].
      * intros Hin. left. split; [exact Hin|]. apply deleted_false. left. exact Hne.
    + intros Hne a. rewrite M. split.
      * intros [[Hin Hd]|[_ Hin]]; [|exact Hin].
        apply deleted_false in Hd. destruct Hd as [Hd|Hd]; [simpl in Hd; contradiction|].
        destruct ids as [|a0 ids']; [contradiction|].
        simpl in Hd. rewrite (Hd a0) by left. left.
      * intros Hin. right. auto.
    + intros -> x. rewrite M. split.
      * intros [[Hin _]|[_ Hin]]; [exact Hin | inversion Hin].
      * intros Hin. left. split; [exact Hin|]. apply deleted_false. right.
        intros a Ha. inversion Ha.
    + rewrite L3 by exact Hcl. congruence.
Qed.

Lemma run_tx_quiet {A} tx (sem : Z -> tables -> result (tables * A)) w t :
  faults w = [] -> open_tx w !! tx = Some t ->
  let r := sql.run (Some tx) sem w in
  faults r.2 = [] /\ clock r.2 = clock w /\
  match sem (clock w) t with
  | Ok (t', a) => r.1 = Ok a /\ open_tx r.2 !! tx = Some t'
  | Err e => r.1 = Err e
  end.
Proof.
  intros Hf Hv.
  unfold sql.run, pgx.view, pgx.pop_fault, pgx.store, modify, gets, bind, ret. simpl.
  rewrite Hv, Hf. simpl.
  destruct (sem (clock w) t) as [[t' a]|e]; simpl; [|auto].
  rewrite lookup_insert_eq. auto.
Qed.

Lemma insertAuthors_missing tx bid a ids : forall w t,
  faults w = [] -> open_tx w !! tx = Some t ->
  a ∈ ids -> author t !! a = None -> (a, bid) ∉ author_book t ->
  (postgres.insertAuthors tx bid ids w).1 = Some (Some ErrAuthorNotFound).
Proof.
  induction ids as [|a0 ids IH]; intros w t Hf Hv Hin Ha Hab; [inversion Hin|].
  cbn [postgres.insertAuthors]. unfold bind.
  pose proof (run_tx_quiet tx (sql.insert_author_book a0 bid) w t Hf Hv) as H.
  cbv zeta in H.
  destruct (sql.run (Some tx) (sql.insert_author_book a0 bid) w) as [r1 w1].
  cbn [fst snd] in H. destruct H as (Hf1 & _ & H).
  destruct (sql.insert_author_book a0 bid (clock w) t) as [[t1 n]|e] eqn:Hs.
  - destruct H as (-> & Hv1).
    pose proof (insert_author_book_spec _ _ _ _ _ _ Hs) as (A1 & _ & _ & M1).
    assert (Hne : a0 <> a).
    { intros ->. unfold sql.insert_author_book in Hs.
      rewrite bool_decide_eq_false_2 in Hs by exact Hab.
      rewrite bool_decide_eq_false_2 in Hs; [discriminate|].
      rewrite Ha. intros [? ?]; discriminate. }
    apply (IH w1 t1 Hf1 Hv1).
    + apply elem_of_cons in Hin. destruct Hin as [->|Hin]; [contradiction | exact Hin].
    + rewrite A1. exact Ha.
    + intros Hx. apply M1 in Hx. destruct Hx as [Hx|[= E]]; [contradiction | congruence].
  - rewrite H. unfold sql.insert_author_book in Hs.
    destruct (bool_decide ((a0, bid) ∈ author_book t)); [discriminate|].
    destruct (bool_decide (is_Some (author t !! a0))); [discriminate|].
    injection Hs as <-. reflexivity.
Qed.

Lemma UpdateBook_missing ctx bid name ids (w : world) :
  faults w = [] ->
  let r := postgres.UpdateBook updated_at_rule ctx bid name ids w in
  (book (durable w) !! bid = None -> r.1 = (entity.Book_zero, Some ErrBookNotFound)) /\
  (is_Some (book (durable w) !! bid) ->
   forall a, a ∈ ids -> author (durable w) !! a = None ->
     (a, bid) ∉ author_book (durable w) ->
     r.1 = (entity.Book_zero, Some ErrAuthorNotFound)).
Proof.
  intros Hf. cbv zeta. unfold postgres.UpdateBook, bind.
  assert (Hf0 : hd None (faults w) = None) by (rewrite Hf; reflexivity).
  pose proof (Begin_undisturbed w Hf0) as HB. cbv zeta in HB.
  destruct (pgx.Begin w) as [r0 w1]. cbn [fst snd] in HB.
  destruct HB as (-> & O0 & F0 & _ & K0 & D0).
  set (tx := fresh (dom (open_tx w))) in *.
  assert (Hf1 : faults w1 = []) by (rewrite F0, Hf; reflexivity).
  assert (Hv1 : open_tx w1 !! tx = Some (durable w))
    by (rewrite O0; apply lookup_insert_eq).
  unfold postgres.UpdateBook_statements, bind.
  pose proof (run_tx_quiet tx (sql.update_book updated_at_rule bid name) w1 _ Hf1 Hv1)
    as H1. cbv zeta in H1.
  destruct (sql.run (Some tx) (sql.update_book updated_at_rule bid name) w1) as [r1 w2].
  cbn [fst snd] in H1. destruct H1 as (Hf2 & K1 & H1). unfold sql.update_book in H1.
  split.
  - intros Hb. rewrite Hb in H1. rewrite H1. simpl.
    destruct (postgres.txRollback tx w2). reflexivity.
  - intros [[[old created] updated] Hb] a Hin Ha Hab. rewrite Hb in H1.
    destruct H1 as (-> & Hv2).
    match type of Hv2 with _ = Some ?t => set (t1 := t) in * end.
    pose proof (run_tx_quiet tx (sql.delete_book_authors bid ids) w2 _ Hf2 Hv2) as H2.
    cbv zeta in H2.
    destruct (sql.run (Some tx) (sql.delete_book_authors bid ids) w2) as [r2 w3].
    cbn [fst snd] in H2. destruct H2 as (Hf3 & K2 & H2).
    unfold sql.delete_book_authors in H2. destruct H2 as (-> & Hv3).
    match type of Hv3 with _ = Some ?t => set (t2 := t) in * end.
    assert (E : (postgres.insertAuthors tx bid ids w3).1 = Some (Some ErrAuthorNotFound)).
    { apply (insertAuthors_missing tx bid a ids w3 t2 Hf3 Hv3 Hin).
      - exact Ha.
      - subst t2 t1. cbn [author_book]. intros Hx.
        apply list_elem_of_filter in Hx. destruct Hx as [_ Hx]. contradiction. }
    destruct (postgres.insertAuthors tx bid ids w3) as [r3 w4]. cbn [fst snd] in E.
    subst r3. simpl. destruct (postgres.txRollback tx w4). reflexivity.
Qed.

(** UpdateBook says what is missing.  When the driver does not fail, the use
    case answers NotFound "book not found" for an id without a row, and
    NotFound "author not found" when the book exists and the list names an
    author that has no row and was not linked to the book. *)
Theorem UpdateBook_reports_what_is_missing ctx (request : rpc.UpdateBookRequest)
    (w : world) :
  faults w = [] ->
  let bid := rpc.UpdateBook_Id request in
  let r := usecases.UpdateBook (postgres.UpdateBook updated_at_rule) ctx request w in
  (book (durable w) !! bid = None ->
   r.1 = Err (StatusError NotFound "book not found")) /\
  (is_Some (book (durable w) !! bid) ->
   forall a, a ∈ rpc.UpdateBook_AuthorIds request ->
     author (durable w) !! a = None ->
     (a, bid) ∉ author_book (durable w) ->
     r.1 = Err (StatusError NotFound "author not found")).
Proof.
  intros Hf. cbv zeta. unfold usecases.UpdateBook, bind, zap.Info, zap.log, modify.
  cbn [fst snd]. set (w0 := set_logs _ w).
  pose proof (UpdateBook_missing ctx (rpc.UpdateBook_Id request)
                (rpc.UpdateBook_Name request) (rpc.UpdateBook_AuthorIds request) w0 Hf)
    as (H1 & H2).
  destruct (postgres.UpdateBook updated_at_rule ctx _ _ _ w0) as [[b e] w1].
  cbn [fst snd] in *. split.
  - intros Hb. specialize (H1 Hb). injection H1 as -> ->. reflexivity.
  - intros Hb a Hin Ha Hab. specialize (H2 Hb a Hin Ha Hab).
    injection H2 as -> ->. reflexivity.
Qed.

End UpdateBook.

(** ** Writing, then reading *)

Section RoundTrips.

Import repository.

Context {J : Json}.
Variable getMessages : Context -> Z -> Z -> M (result (list OutboxData)).
Variable markAsProcessed : Context -> list string -> M (option error).

Local Abbreviation l := (app.useCases (NewOutbox getMessages markAsProcessed)).

Lemma injectTx_begins ctx w c tx w1 :
  Value_txInjector ctx = None ->
  injectTx ctx w = (Ok (c, tx), w1) ->
  open_tx w1 !! tx = Some (durable w).
Proof.
  intros Hc. unfold injectTx, extractTx. rewrite Hc. unfold bind.
  pose proof (Begin_cases w) as HB. cbv zeta in HB.
  destruct (pgx.Begin w) as [[tx'|e] w1']; cbn [fst snd] in HB; [|discriminate].
  destruct HB as (_ & _ & _ & O & _). intros [= <- <- <-].
  rewrite O. apply lookup_insert_eq.
Qed.

Lemma linked_authors_with_book t (b : entity.Book) :
  (forall a, (a, entity.ID b) ∉ author_book t) ->
  linked_authors (with_book t b) (entity.ID b) = entity.AuthorIDs b.
Proof.
  intros Hnone. unfold linked_authors, with_book, getRows. cbn [author_book].
  rewrite filter_app, fmap_app.
  assert (E1 : filter (fun r : string * string => r.2 = entity.ID b) (author_book t) = []).
  { induction (author_book t) as [|[a k] rows IH]; [reflexivity|].
    rewrite filter_cons_False.
    - apply IH. intros a' H. apply (Hnone a'). right. exact H.
    - simpl. intros ->. apply (Hnone a). left. }
  rewrite E1. simpl.
  induction (entity.AuthorIDs b) as [|a ids IH]; [reflexivity|].
  simpl. rewrite filter_cons_True by reflexivity. simpl. f_equal. exact IH.
Qed.

(** A book that the AddBook use case has added outside a transaction is read
    back by the GetBookInfo use case with the id, the name and the two
    timestamps that AddBook answered and with the same author ids, which are
    those of the request; the ids are compared as a collection, since the
    query aggregates them without an ORDER BY.  The driver must not fail on
    the read, and no link row may have mentioned the new id before. *)
Theorem AddBook_then_GetBookInfo ctx ctx' (request : pb.AddBookRequest) w resp w' :
  Value_txInjector ctx = None ->
  library.AddBook l ctx request w = (Ok resp, w') ->
  (forall a, (a, pb.Id (pb.AddBook_Book resp)) ∉ author_book (durable w)) ->
  hd None (faults w') = None ->
  let added := pb.AddBook_Book resp in
  exists read,
    (usecases.GetBookInfo l ctx' {| rpc.GetBookInfo_Id := pb.Id added |} w').1
      = Ok {| rpc.GetBookInfo_Book := read |} /\
    pb.Id read = pb.Id added /\
    pb.Name read = pb.Name added /\
    pb.CreatedAt read = pb.CreatedAt added /\
    pb.UpdatedAt read = pb.UpdatedAt added /\
    pb.AuthorIds read ≡ₚ pb.AuthorIds added /\
    pb.Name added = pb.AddBook_Name request /\
    pb.AuthorIds added = pb.AddBook_AuthorIds request.
Proof.
  intros Hc Hadd Hnone Hf. cbv zeta.
  pose proof (AddBook_run getMessages markAsProcessed ctx request w) as HR.
  cbv zeta in HR. rewrite Hadd in HR. cbn [fst snd] in HR.
  destruct (injectTx ctx w) as [[[c tx]|e] w1] eqn:Hi; [|destruct HR; discriminate].
  pose proof (injectTx_tx _ _ _ _ _ Hi) as Hctx.
  pose proof (injectTx_begins _ _ _ _ _ Hc Hi) as Hview.
  pose proof (AddBook_func_spec getMessages markAsProcessed request c tx
                entity.Book_zero w1 Hctx) as HS. cbv zeta in HS.
  destruct (library.AddBook_func l request c entity.Book_zero w1) as [[b [e|]] w2];
    [destruct HR; discriminate|].
  cbn [fst snd] in HS. destruct HR as (-> & HR).
  destruct HS as (_ & _ & t & payload & Hv & Hname & Hids & _ & _ & _ & Ho & _).
  rewrite Hview in Hv. injection Hv as <-.
  assert (Hv2 : open_tx w2 !! tx = Some
            (with_event (with_book (durable w) b) ("book_" +:+ entity.ID b)
               (mkOutboxRow OutboxKindBook payload (clock w1) None None)))
    by (rewrite Ho; apply lookup_insert_eq).
  pose proof (Commit_published tx w2 _ Hv2) as HD.
  destruct (pgx.Commit tx w2) as [[e|] w3]; [discriminate|].
  injection HR as ->. cbn [fst snd] in *. specialize (HD eq_refl).
  cbn [pb.AddBook_Book library.toProto pb.Id pb.Name pb.AuthorIds pb.CreatedAt
       pb.UpdatedAt] in *.
  unfold usecases.GetBookInfo, bind, zap.Info, zap.log, modify.
  cbn [fst snd app.useCases library.booksRepository GetBookInfo postgresImpl_Books
       rpc.GetBookInfo_Id].
  set (w0 := set_logs _ w3).
  destruct (GetBookInfo_undisturbed ctx' (entity.ID b) w0 Hf) as (R1 & _).
  change (durable w0) with (durable w3) in R1. rewrite HD in R1.
  change (linked_authors (with_event (with_book (durable w) b) _ _) (entity.ID b))
    with (linked_authors (with_book (durable w) b) (entity.ID b)) in R1.
  rewrite (linked_authors_with_book (durable w) b Hnone) in R1.
  cbn [with_event with_book book] in R1. rewrite lookup_insert_eq in R1.
  destruct (postgresImpl_GetBookInfo ctx' (entity.ID b) w0) as [[b' e] w4].
  cbn [fst snd] in *. injection R1 as -> ->.
  eexists. split; [reflexivity|]. cbn. auto 10.
Qed.

(** An author that the RegisterAuthor use case has registered is read back
    by the GetAuthorInfo use case under the id RegisterAuthor answered and
    the name of the request, provided the driver does not fail. *)
Theorem RegisterAuthor_then_GetAuthorInfo ctx ctx' (request : pb.RegisterAuthorRequest)
    w resp w' :
  library.RegisterAuthor l ctx request w = (Ok resp, w') ->
  hd None (faults w') = None ->
  (usecases.GetAuthorInfo postgres.GetAuthorInfo ctx'
     {| rpc.GetAuthorInfo_Id := pb.RegisterAuthor_Id resp |} w').1
    = Ok {| rpc.GetAuthorInfo_RespId := pb.RegisterAuthor_Id resp;
            rpc.GetAuthorInfo_RespName := pb.RegisterAuthor_Name request |}.
Proof.
  intros Hreg Hf.
  pose proof (RegisterAuthor_run getMessages markAsProcessed ctx request w) as HR.
  cbv zeta in HR. rewrite Hreg in HR. cbn [fst snd] in HR.
  destruct (injectTx ctx w) as [[[c tx]|e] w1] eqn:Hi; [|destruct HR; discriminate].
  pose proof (injectTx_tx _ _ _ _ _ Hi) as Hctx.
  pose proof (RegisterAuthor_func_spec getMessages markAsProcessed request c tx
                entity.Author_zero w1 Hctx) as HS. cbv zeta in HS.
  destruct (library.RegisterAuthor_func l request c entity.Author_zero w1)
    as [[a [e|]] w2]; [destruct HR; discriminate|].
  cbn [fst snd] in HS. destruct HR as (-> & HR).
  destruct HS as (_ & _ & t & payload & Hv & Hname & _ & Ho & _).
  assert (Hv2 : open_tx w2 !! tx = Some
            (with_event (with_author t a) ("author_" +:+ entity.Author_ID a)
               (mkOutboxRow OutboxKindAuthor payload (clock w1) None None)))
    by (rewrite Ho; apply lookup_insert_eq).
  pose proof (Commit_published tx w2 _ Hv2) as HD.
  destruct (pgx.Commit tx w2) as [[e|] w3]; [discriminate|].
  injection HR as ->. cbn [fst snd] in *. specialize (HD eq_refl).
  cbn [pb.RegisterAuthor_Id] in *.
  unfold usecases.GetAuthorInfo, bind, zap.Info, zap.log, modify.
  cbn [fst snd rpc.GetAuthorInfo_Id].
  set (w0 := set_logs _ w3).
  destruct (GetAuthorInfo_undisturbed ctx' (entity.Author_ID a) w0 Hf) as (R1 & _).
  change (durable w0) with (durable w3) in R1. rewrite HD in R1.
  cbn [with_event with_author author] in R1. rewrite lookup_insert_eq in R1.
  destruct (postgres.GetAuthorInfo ctx' (entity.Author_ID a) w0) as [[a' e] w4].
  cbn [fst snd] in *. injection R1 as -> ->. simpl. rewrite Hname. reflexivity.
Qed.

End RoundTrips.

(** ** The controllers *)

Section Controllers.

Import repository.

Context {J : Json}.
Variable l : library.libraryImpl.

(** The two log entries of a controller that refuses a request. *)
Local Abbreviation refused w validating failed err :=
  (set_logs (logs w ++ [(InfoLevel, validating, None); (ErrorLevel, failed, Some err)]) w).

(** A request that fails validation never reaches the use case: whatever
    the use cases and repositories are, each of the seven controllers
    answers InvalidArgument with the validation error's text, and the world
    is the one it found plus the controller's own two log entries; no driver
    call, no transaction, nothing sent on the stream. *)
Theorem invalid_requests_stop_at_the_controller ctx (w : world) err :
  (forall validate request, validate request = Some err ->
     controller.AddBook l validate ctx request w =
       (Err (StatusError InvalidArgument (Error err)),
        refused w "Validating add book request"
          "Error during validating add book request." err)) /\
  (forall validate request, validate request = Some err ->
     controller.RegisterAuthor l validate ctx request w =
       (Err (StatusError InvalidArgument (Error err)),
        refused w "Validating register author request."
          "Error during validating register author request." err)) /\
  (forall validate request server, validate request = Some err ->
     controller.GetAuthorBooks l validate ctx request server w =
       (Some (StatusError InvalidArgument (Error err)),
        refused w "Validating get author books request."
          "Error during validating get author books request." err)) /\
  (forall useCase validate request, validate request = Some err ->
     controller.ChangeAuthorInfo useCase validate ctx request w =
       (Err (StatusError InvalidArgument (Error err)),
        refused w "Validating change author request."
          "Error during validating change author info request." err)) /\
  (forall useCase validate request, validate request = Some err ->
     controller.GetBookInfo useCase validate ctx request w =
       (Err (StatusError InvalidArgument (Error err)),
        refused w "Validating get book info request."
          "Error during validating get book info request." err)) /\
  (forall useCase validate request, validate request = Some err ->
     controller.UpdateBook useCase validate ctx request w =
       (Err (StatusError InvalidArgument (Error err)),
        refused w "Validating update book request."
          "Error during validating update book request." err)) /\
  (forall useCase validate request, validate request = Some err ->
     controller.GetAuthorInfo useCase validate ctx request w =
       (Err (StatusError InvalidArgument (Error err)),
        refused w "Validating get author info request."
          "Error during validating get author info request." err)).
Proof.
  repeat split; intros;
    unfold controller.AddBook, controller.RegisterAuthor, controller.GetAuthorBooks,
      controller.ChangeAuthorInfo, controller.GetBookInfo, controller.UpdateBook,
      controller.GetAuthorInfo, bind, zap.Info, zap.log, modify, ret; simpl;
    match goal with H : _ = Some err |- _ => rewrite H end; simpl;
    rewrite <- app_assoc; reflexivity.
Qed.

Lemma convertErr_code (e : error) :
  exists c, library.convertErr e = StatusError c (Error e) /\
    (c = NotFound \/ c = Internal).
Proof.
  unfold library.convertErr.
  destruct (errors_Is e ErrAuthorNotFound); [eauto|].
  destruct (errors_Is e ErrBookNotFound); eauto.
Qed.

Lemma three_codes_convertErr e : three_codes (library.convertErr e).
Proof.
  destruct (convertErr_code e) as (c & -> & Hc). exists c. eexists.
  split; [reflexivity | tauto].
Qed.

Lemma three_codes_InvalidArgument msg : three_codes (StatusError InvalidArgument msg).
Proof. exists InvalidArgument, msg. auto. Qed.

(** Every error that a controller returns is a status error with one of
    three codes, InvalidArgument, NotFound or Internal; for the seven
    controllers in front of the seven use cases, whatever the repositories,
    the transactor and the outbox store of the use cases are. *)
Theorem controllers_answer_three_codes ctx (w : world) :
  (forall validate request e,
     (controller.AddBook l validate ctx request w).1 = Err e -> three_codes e) /\
  (forall validate request e,
     (controller.RegisterAuthor l validate ctx request w).1 = Err e -> three_codes e) /\
  (forall validate request server e,
     (controller.GetAuthorBooks l validate ctx request server w).1 = Some e ->
     three_codes e) /\
  (forall repo validate request e,
     (controller.ChangeAuthorInfo (usecases.ChangeAuthorInfo repo) validate ctx request w).1
       = Err e -> three_codes e) /\
  (forall validate request e,
     (controller.GetBookInfo (usecases.GetBookInfo l) validate ctx request w).1 = Err e ->
     three_codes e) /\
  (forall repo validate request e,
     (controller.UpdateBook (usecases.UpdateBook repo) validate ctx request w).1 = Err e ->
     three_codes e) /\
  (forall repo validate request e,
     (controller.GetAuthorInfo (usecases.GetAuthorInfo repo) validate ctx request w).1
       = Err e -> three_codes e).
Proof.
  repeat split.
  - intros validate request e.
    unfold controller.AddBook, bind, zap.Info, zap.log, modify. cbn [fst snd].
    destruct (validate request) as [err|].
    + simpl. intros [= <-]. apply three_codes_InvalidArgument.
    + unfold library.AddBook, bind.
      destruct (WithTx (library.transactor l) _ _ _ _ _) as [[b [e0|]] w1]; simpl;
        [intros [= <-]; apply three_codes_convertErr | discriminate].
  - intros validate request e.
    unfold controller.RegisterAuthor, bind, zap.Info, zap.log, modify. cbn [fst snd].
    destruct (validate request) as [err|].
    + simpl. intros [= <-]. apply three_codes_InvalidArgument.
    + unfold library.RegisterAuthor, bind.
      destruct (WithTx (library.transactor l) _ _ _ _ _) as [[b [e0|]] w1]; simpl;
        [intros [= <-]; apply three_codes_convertErr | discriminate].
  - intros validate request server e.
    unfold controller.GetAuthorBooks, bind, zap.Info, zap.log, modify. cbn [fst snd].
    destruct (validate request) as [err|].
    + simpl. intros [= <-]. apply three_codes_InvalidArgument.
    + unfold library.GetAuthorBooks, bind, zap.Info, zap.log, modify. cbn [fst snd].
      destruct (GetAuthorBooks (library.authorRepository l) _ _ _) as [[books [e0|]] w1];
        simpl.
      * intros [= <-]. apply three_codes_convertErr.
      * destruct (library.sendBooks server books w1). simpl. discriminate.
  - intros repo validate request e.
    unfold controller.ChangeAuthorInfo, bind, zap.Info, zap.log, modify. cbn [fst snd].
    destruct (validate request) as [err|].
    + simpl. intros [= <-]. apply three_codes_InvalidArgument.
    + unfold usecases.ChangeAuthorInfo, bind, zap.Info, zap.log, modify. cbn [fst snd].
      destruct (repo _ _ _ _) as [[a [e0|]] w1]; simpl;
        [intros [= <-]; apply three_codes_convertErr | discriminate].
  - intros validate request e.
    unfold controller.GetBookInfo, bind, zap.Info, zap.log, modify. cbn [fst snd].
    destruct (validate request) as [err|].
    + simpl. intros [= <-]. apply three_codes_InvalidArgument.
    + unfold usecases.GetBookInfo, bind, zap.Info, zap.log, modify. cbn [fst snd].
      destruct (GetBookInfo (library.booksRepository l) _ _ _) as [[a [e0|]] w1]; simpl;
        [intros [= <-]; apply three_codes_convertErr | discriminate].
  - intros repo validate request e.
    unfold controller.UpdateBook, bind, zap.Info, zap.log, modify. cbn [fst snd].
    destruct (validate request) as [err|].
    + simpl. intros [= <-]. apply three_codes_InvalidArgument.
    + unfold usecases.UpdateBook, bind, zap.Info, zap.log, modify. cbn [fst snd].
      destruct (repo _ _ _ _ _) as [[a [e0|]] w1]; simpl;
        [intros [= <-]; apply three_codes_convertErr | discriminate].
  - intros repo validate request e.
    unfold controller.GetAuthorInfo, bind, zap.Info, zap.log, modify. cbn [fst snd].
    destruct (validate request) as [err|].
    + simpl. intros [= <-]. apply three_codes_InvalidArgument.
    + unfold usecases.GetAuthorInfo, bind, zap.Info, zap.log, modify. cbn [fst snd].
      destruct (repo _ _ _) as [[a [e0|]] w1]; simpl;
        [intros [= <-]; apply three_codes_convertErr | discriminate].
Qed.

End Controllers.

(** ** Examples on the sample worlds *)

Section MoreExamples.

Import repository.

Lemma repository_writes_enlist_witness :
  let ctx := context_WithValue context_Background 0 in
  let w := (injectTx context_Background sample.one_id).2 in
  within_tx 0 w (postgresImpl_AddBook ctx (entity.mkBook "" "Dune" [] 0 0) w).2 /\
  within_tx 0 w (postgresImpl_RegisterAuthor ctx (entity.mkAuthor "" "Herbert") w).2.
Proof.
  exact (repository_writes_enlist (context_WithValue context_Background 0) 0
           (entity.mkBook "" "Dune" [] 0 0) (entity.mkAuthor "" "Herbert")
           (injectTx context_Background sample.one_id).2 eq_refl).
Defined.

Lemma repository_writes_are_atomic_alone_witness :
  let w := set_ids ["b3"] sample.shelf in
  let r := postgresImpl_AddBook context_Background
             (entity.mkBook "" "Solaris" ["a1"] 0 0) w in
  r.1 = (entity.mkBook "b3" "Solaris" ["a1"] 0 0, None) /\
  open_tx r.2 = open_tx w /\
  durable r.2 = with_book (durable w) r.1.1.
Proof.
  cbv zeta. split; [vm_compute; reflexivity|].
  pose proof (proj1 (repository_writes_are_atomic_alone context_Background
                       (entity.mkBook "" "Solaris" ["a1"] 0 0)
                       (entity.mkAuthor "" "Lem") (set_ids ["b3"] sample.shelf) eq_refl))
    as H.
  cbv zeta in H. vm_compute in H. vm_compute. tauto.
Defined.

Lemma GetBookInfo_reads_the_committed_book_witness :
  (postgresImpl_GetBookInfo context_Background "b2" sample.shelf).1
    = (entity.mkBook "b2" "Dune" ["a1"] 0 0, None) /\
  (usecases.GetBookInfo (app.useCases sample.no_lease) context_Background
     {| rpc.GetBookInfo_Id := "b9" |} sample.shelf).1
    = Err (StatusError NotFound "book not found").
Proof.
  split.
  - pose proof (proj1 (GetBookInfo_reads_the_committed_book context_Background "b2"
                         sample.shelf sample.no_lease eq_refl)) as H.
    vm_compute in H. vm_compute. exact H.
  - apply (GetBookInfo_reads_the_committed_book context_Background "b9"
             sample.shelf sample.no_lease eq_refl).
    vm_compute. reflexivity.
Defined.

Lemma GetAuthorBooks_returns_the_linked_books_witness :
  let r := postgresImpl_GetAuthorBooks context_Background "a1" sample.shelf in
  r.1 = ([entity.mkBook "b2" "Dune" ["a1"] 0 0], None) /\
  NoDup (map entity.ID r.1.1).
Proof.
  cbv zeta. split; [vm_compute; reflexivity|].
  exact (proj1 (proj2 (GetAuthorBooks_returns_the_linked_books context_Background "a1"
                         sample.shelf eq_refl))).
Defined.

Lemma GetAuthorInfo_reads_the_committed_author_witness :
  let w := (postgres.ChangeAuthorInfo context_Background "a1" "Frank Herbert"
              sample.shelf).2 in
  (postgres.GetAuthorInfo context_Background "a1" w).1
    = (entity.mkAuthor "a1" "Frank Herbert", None).
Proof.
  cbv zeta.
  exact (proj2 (proj2 (proj2 (proj2
           (GetAuthorInfo_reads_the_committed_author context_Background "a1"
              (postgres.ChangeAuthorInfo context_Background "a1" "Frank Herbert"
                 sample.shelf).2 eq_refl))))
           context_Background "Frank Herbert" sample.shelf
           (entity.mkAuthor "a1" "Frank Herbert") eq_refl).
Defined.

Lemma UpdateBook_reports_what_is_missing_witness :
  (usecases.UpdateBook (postgres.UpdateBook (fun _ now => now)) context_Background
     {| rpc.UpdateBook_Id := "b9"; rpc.UpdateBook_Name := "Dune Messiah";
        rpc.UpdateBook_AuthorIds := ["a1"] |} sample.shelf).1
    = Err (StatusError NotFound "book not found") /\
  (usecases.UpdateBook (postgres.UpdateBook (fun _ now => now)) context_Background
     {| rpc.UpdateBook_Id := "b2"; rpc.UpdateBook_Name := "Dune Messiah";
        rpc.UpdateBook_AuthorIds := ["a1"; "ghost"] |} sample.shelf).1
    = Err (StatusError NotFound "author not found").
Proof.
  split.
  - apply (proj1 (UpdateBook_reports_what_is_missing (fun _ now => now) context_Background
             {| rpc.UpdateBook_Id := "b9"; rpc.UpdateBook_Name := "Dune Messiah";
                rpc.UpdateBook_AuthorIds := ["a1"] |} sample.shelf eq_refl)).
    vm_compute. reflexivity.
  - apply (proj2 (UpdateBook_reports_what_is_missing (fun _ now => now) context_Background
             {| rpc.UpdateBook_Id := "b2"; rpc.UpdateBook_Name := "Dune Messiah";
                rpc.UpdateBook_AuthorIds := ["a1"; "ghost"] |} sample.shelf eq_refl))
      with (a := "ghost").
    + vm_compute. eauto.
    + right. left.
    + vm_compute. reflexivity.
    + intros H. apply list_elem_of_singleton in H. discriminate.
Defined.

Local Abbreviation l := (app.useCases sample.no_lease).

Lemma AddBook_then_GetBookInfo_witness :
  let r := @library.AddBook sample.codec l context_Background sample_books.sequel
             sample_books.two_authors in
  r.1 = Ok {| pb.AddBook_Book := pb.mkBook "b3" "Hunters of Dune" ["a2"; "a1"] 0 0 |} /\
  exists read,
    (usecases.GetBookInfo l context_Background {| rpc.GetBookInfo_Id := "b3" |} r.2).1
      = Ok {| rpc.GetBookInfo_Book := read |} /\
    pb.Id read = "b3" /\
    pb.Name read = "Hunters of Dune" /\
    pb.CreatedAt read = 0%Z /\
    pb.UpdatedAt read = 0%Z /\
    pb.AuthorIds read ≡ₚ ["a2"; "a1"] /\
    "Hunters of Dune" = pb.AddBook_Name sample_books.sequel /\
    ["a2"; "a1"] = pb.AddBook_AuthorIds sample_books.sequel.
Proof.
  cbv zeta. split; [vm_compute; reflexivity|].
  apply (@AddBook_then_GetBookInfo sample.codec
           (fun _ _ _ => ret (Ok [])) (fun _ _ => ret None)
           context_Background context_Background sample_books.sequel
           sample_books.two_authors
           {| pb.AddBook_Book := pb.mkBook "b3" "Hunters of Dune" ["a2"; "a1"] 0 0 |}
           (@library.AddBook sample.codec l context_Background sample_books.sequel
              sample_books.two_authors).2).
  - reflexivity.
  - vm_compute. reflexivity.
  - intros a H. apply list_elem_of_singleton in H. discriminate.
  - vm_compute. reflexivity.
Defined.

Lemma RegisterAuthor_then_GetAuthorInfo_witness :
  let request := {| pb.RegisterAuthor_Name := "Herbert" |} in
  let r := @library.RegisterAuthor sample.codec l context_Background request
             (set_ids ["a7"] sample.quiet) in
  r.1 = Ok {| pb.RegisterAuthor_Id := "a7" |} /\
  (usecases.GetAuthorInfo postgres.GetAuthorInfo context_Background
     {| rpc.GetAuthorInfo_Id := "a7" |} r.2).1
    = Ok {| rpc.GetAuthorInfo_RespId := "a7"; rpc.GetAuthorInfo_RespName := "Herbert" |}.
Proof.
  cbv zeta. split; [vm_compute; reflexivity|].
  apply (@RegisterAuthor_then_GetAuthorInfo sample.codec
           (fun _ _ _ => ret (Ok [])) (fun _ _ => ret None)
           context_Background context_Background {| pb.RegisterAuthor_Name := "Herbert" |}
           (set_ids ["a7"] sample.quiet) {| pb.RegisterAuthor_Id := "a7" |}
           (@library.RegisterAuthor sample.codec l context_Background
              {| pb.RegisterAuthor_Name := "Herbert" |} (set_ids ["a7"] sample.quiet)).2).
  - vm_compute. reflexivity.
  - vm_compute. reflexivity.
Defined.

End MoreExamples.

(** ** An author that does not exist *)

Section UnknownAuthor.

Import repository.

Context {J : Json}.
Variable outboxRepository : OutboxRepository.

Lemma ChangeAuthorInfo_unknown ctx aid name (w : world) :
  hd None (faults w) = None -> author (durable w) !! aid = None ->
  (postgres.ChangeAuthorInfo ctx aid name w).1
    = (entity.Author_zero, Some ErrAuthorNotFound).
Proof.
  intros Hf Ha.
  unfold postgres.ChangeAuthorInfo, sql.run, sql.update_author, pgx.view, pgx.pop_fault,
    pgx.store, modify, gets, bind, ret. simpl. rewrite Hf. simpl. rewrite Ha. reflexivity.
Qed.

Lemma GetAuthorBooks_none ctx aid (w : world) :
  hd None (faults w) = None ->
  (forall bid, (aid, bid) ∉ author_book (durable w)) ->
  postgresImpl_GetAuthorBooks ctx aid w = (([], None), set_faults (tl (faults w)) w).
Proof.
  intros Hf Hnone.
  unfold postgresImpl_GetAuthorBooks, pgx.select_author_books, pgx.pop_fault,
    bind, gets, ret. simpl. rewrite Hf. simpl. rewrite scanBooks_map. simpl.
  unfold pgx.book_rows.
  pose proof (filter_key_absent
                (fun b => bool_decide ((aid, b) ∈ author_book (durable w)))
                (map_to_list (book (durable w)))) as H.
  cbv beta in H. rewrite H; [reflexivity|].
  intros r _. apply bool_decide_eq_false. apply Hnone.
Qed.

(** The three calls that take an author id disagree on an id that no
    author has: ChangeAuthorInfo and GetAuthorInfo answer NotFound "author
    not found", while GetAuthorBooks returns no error and streams nothing,
    as it does for an author without books. *)
Theorem unknown_author_is_not_an_error_for_GetAuthorBooks ctx aid name (w : world) :
  hd None (faults w) = None ->
  author (durable w) !! aid = None ->
  (forall bid, (aid, bid) ∉ author_book (durable w)) ->
  (usecases.ChangeAuthorInfo postgres.ChangeAuthorInfo ctx
     {| rpc.ChangeAuthorInfo_Id := aid; rpc.ChangeAuthorInfo_Name := name |} w).1
    = Err (StatusError NotFound "author not found") /\
  (usecases.GetAuthorInfo postgres.GetAuthorInfo ctx {| rpc.GetAuthorInfo_Id := aid |} w).1
    = Err (StatusError NotFound "author not found") /\
  let r := library.GetAuthorBooks (app.useCases outboxRepository) ctx
             {| pb.GetAuthorBooks_AuthorId := aid |} recording_stream w in
  r.1 = None /\ stream_sent r.2 = stream_sent w.
Proof.
  intros Hf Ha Hnone. split; [|split].
  - unfold usecases.ChangeAuthorInfo, bind, zap.Info, zap.log, modify.
    cbn [fst snd rpc.ChangeAuthorInfo_Id rpc.ChangeAuthorInfo_Name].
    set (w0 := set_logs _ w).
    pose proof (ChangeAuthorInfo_unknown ctx aid name w0 Hf Ha) as H.
    destruct (postgres.ChangeAuthorInfo ctx aid name w0) as [[a e] w1].
    cbn [fst snd] in *. injection H as -> ->. reflexivity.
  - unfold usecases.GetAuthorInfo, bind, zap.Info, zap.log, modify.
    cbn [fst snd rpc.GetAuthorInfo_Id].
    set (w0 := set_logs _ w).
    destruct (GetAuthorInfo_undisturbed ctx aid w0 Hf) as (H & _).
    change (durable w0) with (durable w) in H. rewrite Ha in H.
    destruct (postgres.GetAuthorInfo ctx aid w0) as [[a e] w1].
    cbn [fst snd] in *. injection H as -> ->. reflexivity.
  - cbv zeta. unfold library.GetAuthorBooks, bind, zap.Info, zap.log, modify.
    cbn [fst snd pb.GetAuthorBooks_AuthorId app.useCases library.authorRepository
         GetAuthorBooks postgresImpl_Authors].
    set (w0 := set_logs _ w).
    rewrite (GetAuthorBooks_none ctx aid w0 Hf Hnone). simpl. auto.
Qed.

End UnknownAuthor.

Lemma unknown_author_is_not_an_error_for_GetAuthorBooks_witness :
  (usecases.GetAuthorInfo postgres.GetAuthorInfo context_Background
     {| rpc.GetAuthorInfo_Id := "ghost" |} sample.shelf).1
    = Err (StatusError NotFound "author not found") /\
  (library.GetAuthorBooks (app.useCases sample.no_lease) context_Background
     {| pb.GetAuthorBooks_AuthorId := "ghost" |} recording_stream sample.shelf).1 = None.
Proof.
  pose proof (unknown_author_is_not_an_error_for_GetAuthorBooks sample.no_lease
                context_Background "ghost" "Nobody" sample.shelf eq_refl
                ltac:(vm_compute; reflexivity)) as H.
  destruct H as (_ & H2 & H3 & _).
  - intros bid Hin. apply list_elem_of_singleton in Hin. discriminate.
  - split; [exact H2 | exact H3].
Defined.

(** ** Configuration *)

Section Config.

Variable URL_String : config.url_URL -> string.
Variable JoinHostPort : string -> string -> string.
Variable Atoi : string -> result Z.
Variable NumError : string -> string -> error.

Local Abbreviation NewConfig := (config.NewConfig URL_String JoinHostPort Atoi NumError).
Local Abbreviation ParseBool := (config.ParseBool NumError).

Lemma getOrDefault_insert_ne (env : config.environ) name v n d :
  name <> n -> config.getOrDefault (<[name := v]> env) n d = config.getOrDefault env n d.
Proof. intros H. unfold config.getOrDefault. rewrite lookup_insert_ne by exact H. reflexivity. Qed.

(** The switch of the outbox.  A variable that is not set gives its
    default, so without OUTBOX_ENABLED the outbox is off; a variable that is
    set to the empty string gives the empty string, so an empty
    OUTBOX_ENABLED is a value that ParseBool refuses and NewConfig fails.
    With the outbox off, NewConfig succeeds, the outbox settings keep their
    zero values, and none of the six variables of the outbox is looked at:
    setting any of them to anything changes nothing. *)
Theorem disabled_outbox_ignores_its_settings (env : config.environ) :
  (env !! "OUTBOX_ENABLED" = None ->
   ParseBool (config.getOrDefault env "OUTBOX_ENABLED" "false") = Ok false) /\
  (env !! "OUTBOX_ENABLED" = Some "" ->
   NewConfig env
     = Err (Errorf "error while parsing OUTBOX_ENABLED: " (NumError "ParseBool" ""))) /\
  (ParseBool (config.getOrDefault env "OUTBOX_ENABLED" "false") = Ok false ->
   (exists cfg, NewConfig env = Ok cfg /\ config.Config_Outbox cfg = config.Outbox_zero) /\
   forall name v, name ∈ outbox_variables ->
     NewConfig (<[name := v]> env) = NewConfig env).
Proof.
  split; [|split].
  - intros H. unfold config.getOrDefault. rewrite H. reflexivity.
  - intros H. unfold config.NewConfig.
    replace (config.getOrDefault env "OUTBOX_ENABLED" "false") with ""
      by (unfold config.getOrDefault; rewrite H; reflexivity).
    reflexivity.
  - intros H. split.
    + unfold config.NewConfig. rewrite H. eexists. split; reflexivity.
    + intros name v Hin. unfold config.NewConfig.
      assert (Hne : Forall (fun n => name <> n)
                ["GRPC_PORT"; "GRPC_GATEWAY_PORT"; "POSTGRES_HOST"; "POSTGRES_PORT";
                 "POSTGRES_DB"; "POSTGRES_USER"; "POSTGRES_PASSWORD"; "POSTGRES_MAX_CONN";
                 "OUTBOX_ENABLED"]).
      { unfold outbox_variables in Hin. rewrite !elem_of_cons in Hin.
        destruct Hin as [->|[->|[->|[->|[->|[->|Hin]]]]]];
          [repeat constructor; discriminate ..| inversion Hin]. }
      repeat match goal with
             | H : Forall _ (_ :: _) |- _ =>
                 apply Forall_cons in H; let N := fresh "N" in destruct H as [N H]
             end.
      rewrite !getOrDefault_insert_ne by assumption. rewrite H. reflexivity.
Qed.

Lemma mul64_small (n : Z) :
  (-9223372036854 <= n <= 9223372036854)%Z ->
  config.mul64 n config.Millisecond = (n * 1000000)%Z.
Proof.
  intros H. unfold config.mul64, config.Millisecond.
  rewrite Z.mod_small; lia.
Qed.

(** With the outbox switched on there are no defaults: NewConfig succeeds
    exactly when OUTBOX_WORKERS, OUTBOX_BATCH_SIZE, OUTBOX_WAIT_TIME_MS and
    OUTBOX_IN_PROGRESS_TTL_MS all parse as integers.  The configuration then
    holds the parsed numbers, the two durations taken as milliseconds (in
    nanoseconds, exact for up to 9223372036854 ms), and an error names the
    variable that did not parse. *)
Theorem enabled_outbox_needs_every_number (env : config.environ) :
  ParseBool (config.getOrDefault env "OUTBOX_ENABLED" "false") = Ok true ->
  match NewConfig env with
  | Ok cfg =>
      let o := config.Config_Outbox cfg in
      config.Enabled o = true /\
      Atoi (config.Getenv env "OUTBOX_WORKERS") = Ok (config.Workers o) /\
      Atoi (config.Getenv env "OUTBOX_BATCH_SIZE") = Ok (config.BatchSize o) /\
      config.AuthorSendURL o = config.Getenv env "OUTBOX_AUTHOR_SEND_URL" /\
      config.BookSendURL o = config.Getenv env "OUTBOX_BOOK_SEND_URL" /\
      exists wait ttl,
        Atoi (config.Getenv env "OUTBOX_WAIT_TIME_MS") = Ok wait /\
        Atoi (config.Getenv env "OUTBOX_IN_PROGRESS_TTL_MS") = Ok ttl /\
        config.WaitTimeMS o = config.mul64 wait config.Millisecond /\
        config.InProgressTTLMS o = config.mul64 ttl config.Millisecond /\
        ((-9223372036854 <= wait <= 9223372036854)%Z ->
         config.WaitTimeMS o = (wait * 1000000)%Z) /\
        ((-9223372036854 <= ttl <= 9223372036854)%Z ->
         config.InProgressTTLMS o = (ttl * 1000000)%Z)
  | Err e =>
      exists name err,
        name ∈ outbox_numbers /\
        Atoi (config.Getenv env name) = Err err /\
        e = Errorf ("error while parsing " +:+ name +:+ ": ") err
  end.
Proof.
  intros H. unfold config.NewConfig. rewrite H. unfold config.outboxSettings.
  destruct (Atoi (config.Getenv env "OUTBOX_WORKERS")) as [workers|e] eqn:E1.
  2: { exists "OUTBOX_WORKERS", e. split; [|auto]. unfold outbox_numbers.
       rewrite !elem_of_cons. auto. }
  destruct (Atoi (config.Getenv env "OUTBOX_BATCH_SIZE")) as [batch|e] eqn:E2.
  2: { exists "OUTBOX_BATCH_SIZE", e. split; [|auto]. unfold outbox_numbers.
       rewrite !elem_of_cons. auto. }
  destruct (Atoi (config.Getenv env "OUTBOX_WAIT_TIME_MS")) as [wait|e] eqn:E3.
  2: { exists "OUTBOX_WAIT_TIME_MS", e. split; [|auto]. unfold outbox_numbers.
       rewrite !elem_of_cons. auto. }
  destruct (Atoi (config.Getenv env "OUTBOX_IN_PROGRESS_TTL_MS")) as [ttl|e] eqn:E4.
  2: { exists "OUTBOX_IN_PROGRESS_TTL_MS", e. split; [|auto]. unfold outbox_numbers.
       rewrite !elem_of_cons. auto 6. }
  cbn. repeat split; try reflexivity. exists wait, ttl.
  repeat split; try reflexivity; apply mul64_small.
Qed.

End Config.

Lemma disabled_outbox_ignores_its_settings_witness :
  (exists cfg, sample_config.NewConfig sample_config.switched_off = Ok cfg /\
     config.Config_Outbox cfg = config.Outbox_zero) /\
  sample_config.NewConfig sample_config.many_workers
    = sample_config.NewConfig sample_config.switched_off.
Proof.
  pose proof (proj2 (proj2 (disabled_outbox_ignores_its_settings
                sample_config.URL_String sample_config.JoinHostPort sample_config.Atoi
                sample_config.NumError sample_config.switched_off))
                ltac:(vm_compute; reflexivity)) as [H1 H2].
  split; [exact H1|]. apply (H2 "OUTBOX_WORKERS" "many"). left.
Defined.

Lemma enabled_outbox_needs_every_number_witness :
  (exists cfg, sample_config.NewConfig sample_config.switched_on = Ok cfg /\
     config.Workers (config.Config_Outbox cfg) = 4%Z /\
     config.WaitTimeMS (config.Config_Outbox cfg) = 250000000%Z) /\
  exists err, sample_config.NewConfig sample_config.no_batch_size
    = Err (Errorf "error while parsing OUTBOX_BATCH_SIZE: " err).
Proof.
  pose proof (enabled_outbox_needs_every_number
                sample_config.URL_String sample_config.JoinHostPort sample_config.Atoi
                sample_config.NumError sample_config.switched_on
                ltac:(vm_compute; reflexivity)) as H1.
  pose proof (enabled_outbox_needs_every_number
                sample_config.URL_String sample_config.JoinHostPort sample_config.Atoi
                sample_config.NumError sample_config.no_batch_size
                ltac:(vm_compute; reflexivity)) as H2.
  unfold sample_config.NewConfig. split.
  - clear H2.
    destruct (config.NewConfig _ _ _ _ sample_config.switched_on) as [cfg|e] eqn:E.
    + exists cfg. split; [reflexivity|]. cbv zeta in H1.
      destruct H1 as (_ & Hw & _ & _ & _ & wait & ttl & Hwait & _ & _ & _ & Hsmall & _).
      vm_compute in Hw. vm_compute in Hwait. injection Hw as Hw. injection Hwait as <-.
      split; [symmetry; exact Hw|]. apply Hsmall. lia.
    + vm_compute in E. discriminate.
  - clear H1.
    destruct (config.NewConfig _ _ _ _ sample_config.no_batch_size) as [cfg|e] eqn:E.
    + vm_compute in E. discriminate.
    + destruct H2 as (name & err & Hin & Ha & ->).
      unfold outbox_numbers in Hin. rewrite !elem_of_cons in Hin.
      destruct Hin as [->|[->|[->|[->|Hin]]]]; try (vm_compute in Ha; discriminate);
        [|inversion Hin].
      exists err. reflexivity.
Defined.
